(** * pkt-line: the packet-line tokenizer and the three protocol parsers

    A shallow embedding of [token.go], [receiveresp.go] (which also holds the
    protocol-v2 request parser) and [uploadresp.go], and the properties of the
    specification checked against it.

    Conventions.
    - A Go [string] and a Go [[]byte] are both byte sequences: [bytes].
    - Go's [int] is [Z]; lengths are [Z.of_nat (length _)].
    - A Go panic is the [Panic] outcome of the [go] monad.
    - A Go slice that is cut out of a larger array is a [slice]: the backing
      array from the slice's first element to its capacity, and its length.
      This matters in [PacketScanner.Scan], whose slice expressions are
      bounded by the capacity, not by the length.
    - [fmt.Sprintf("...%#v", x)] messages are kept symbolic ([GoSyntax]): the
      Go-syntax rendering of a value is not part of the repository. *)

From Stdlib Require Import Ascii String List ZArith Lia Bool Arith.
Import ListNotations.

Local Open Scope Z_scope.

(** ** Bytes and strings *)

Definition bytes := list ascii.

Definition B (s : string) : bytes := list_ascii_of_string s.

Definition len (b : bytes) : Z := Z.of_nat (length b).

Fixpoint bytes_eqb (a b : bytes) : bool :=
  match a, b with
  | [], [] => true
  | x :: a', y :: b' => Ascii.eqb x y && bytes_eqb a' b'
  | _, _ => false
  end.

(** [bytes.HasPrefix] / [strings.HasPrefix] *)
Fixpoint HasPrefix (s prefix : bytes) {struct prefix} : bool :=
  match prefix with
  | [] => true
  | p :: prefix' =>
      match s with
      | c :: s' => Ascii.eqb c p && HasPrefix s' prefix'
      | [] => false
      end
  end.

(** [strings.TrimPrefix] *)
Definition TrimPrefix (s prefix : bytes) : bytes :=
  if HasPrefix s prefix then skipn (length prefix) s else s.

Definition newline : ascii := "010"%char.
Definition space : ascii := " "%char.

(** [strings.TrimSuffix(s, "\n")]: drops one trailing newline, if any. *)
Fixpoint TrimSuffix_nl (s : bytes) : bytes :=
  match s with
  | [] => []
  | [c] => if Ascii.eqb c newline then [] else [c]
  | c :: s' => c :: TrimSuffix_nl s'
  end.

(** [strings.Index(s, " ")] together with the two cuts around the match:
    [Some (before, after)] at the first space, [None] without one. *)
Fixpoint cut_space (s : bytes) : option (bytes * bytes) :=
  match s with
  | [] => None
  | c :: s' =>
      if Ascii.eqb c space then Some ([], s')
      else match cut_space s' with
           | Some (a, b) => Some (c :: a, b)
           | None => None
           end
  end.

(** The loop of [strings.genSplit] for the separator [" "]: [n] is the number
    of cuts still allowed. *)
Fixpoint genSplit_loop (n : nat) (s : bytes) : list bytes :=
  match n with
  | O => [s]
  | S n' =>
      match cut_space s with
      | Some (a, rest) => a :: genSplit_loop n' rest
      | None => [s]
      end
  end.

(** [strings.SplitN(s, " ", n)] for [n > 0]: at most [n] fields, the last one
    the unsplit remainder.  ([n = 0] gives nil; the callers pass 2 or 3.) *)
Definition SplitN (s : bytes) (n : nat) : list bytes :=
  match n with
  | O => []
  | S n' => genSplit_loop (Nat.min n' (length s)) s
  end.

(** ** Outcomes of Go code: a value, or a panic *)

Inductive go (A : Type) : Type :=
| Ret (a : A)
| Panic (msg : string).
Arguments Ret {A} a.
Arguments Panic {A} msg.

Definition bind {A C : Type} (m : go A) (k : A -> go C) : go C :=
  match m with
  | Ret a => k a
  | Panic msg => Panic msg
  end.

Notation "x <- m ;; k" := (bind m (fun x => k))
  (at level 61, m at next level, right associativity).
Notation "' pat <- m ;; k" := (bind m (fun x => let 'pat := x in k))
  (at level 61, pat pattern, m at next level, right associativity).

(** Indexing a Go slice of strings: out of range panics. *)
Definition index {A : Type} (l : list A) (i : nat) : go A :=
  match nth_error l i with
  | Some a => Ret a
  | None => Panic "index out of range"
  end.

(** ** Hexadecimal: [fmt.Sprintf("%04x")], [fmt.Sprintf("%04X")] and
    [strconv.ParseUint(_, 16, 32)] *)

Definition hex_digit (upper : bool) (d : Z) : ascii :=
  if d <? 10 then ascii_of_nat (Z.to_nat (48 + d))
  else ascii_of_nat (Z.to_nat ((if upper then 55 else 87) + d)).

(** The low [w] hexadecimal digits of [n], most significant first. *)
Fixpoint hex_fixed (upper : bool) (w : nat) (n : Z) : bytes :=
  match w with
  | O => []
  | S w' => hex_fixed upper w' (n / 16) ++ [hex_digit upper (n mod 16)]
  end.

(** Number of hexadecimal digits of [n >= 0]. *)
Definition hex_width (n : Z) : nat :=
  if n <=? 0 then 1%nat else Z.to_nat (Z.log2 n / 4 + 1).

(** [fmt.Sprintf("%04x", n)] ([upper = false]) and [fmt.Sprintf("%04X", n)]
    for [n >= 0]: all the digits of [n], padded with zeros to width 4. *)
Definition Sprintf_04x (upper : bool) (n : Z) : bytes :=
  hex_fixed upper (Nat.max 4 (hex_width n)) n.

Definition hex_val (c : ascii) : option Z :=
  let n := Z.of_nat (nat_of_ascii c) in
  if (48 <=? n) && (n <=? 57) then Some (n - 48)
  else if (97 <=? n) && (n <=? 102) then Some (n - 87)
  else if (65 <=? n) && (n <=? 70) then Some (n - 55)
  else None.

Fixpoint parse_hex_acc (acc : Z) (s : bytes) : option Z :=
  match s with
  | [] => Some acc
  | c :: s' =>
      match hex_val c with
      | Some d => parse_hex_acc (acc * 16 + d) s'
      | None => None
      end
  end.

(** [strconv.ParseUint(s, 16, 32)] on a string of at most 8 characters (no
    overflow): [None] is the [ErrSyntax] failure.  With an explicit base no
    prefix, sign or underscore is accepted. *)
Definition ParseUint16 (s : bytes) : option Z :=
  match s with
  | [] => None
  | _ => parse_hex_acc 0 s
  end.

(** ** Errors *)

Inductive Packet : Type :=
| FlushPacket
| DelimPacket
| BytesPacket (b : bytes)
| ErrorPacket (e : bytes)
| PackFileIndicatorPacket
| PackFilePacket (p : bytes).

(** A value handed to [%#v]: a [Packet] interface value ([None] is the nil
    interface) or a string. *)
Inductive govalue : Type :=
| VPacket (p : option Packet)
| VString (s : bytes).

(** A message built by the code: a plain string, or
    [fmt.Sprintf(prefix + "%#v", value)] with the value kept as it is. *)
Inductive message : Type :=
| Text (s : bytes)
| GoSyntax (prefix : bytes) (v : govalue).

Inductive error : Type :=
| io_EOF
| io_Error (what : string)                 (* any other error of the reader *)
| bufio_ErrTooLong
| bufio_ErrAdvanceTooFar
| strconv_NumError (func : string) (num : bytes) (* Err = strconv.ErrSyntax *)
| SyntaxError (m : message)
| RemoteError (e : bytes).                (* an [ErrorPacket] used as error *)

(** ** token.go: the encoders *)

Definition FlushPacket_EncodeToPktLine : go bytes := Ret (B "0000").
Definition DelimPacket_EncodeToPktLine : go bytes := Ret (B "0001").

Definition BytesPacket_EncodeToPktLine (b : bytes) : go bytes :=
  let sz := len b in
  if sz >? 65535 - 4 then Panic "content too large"
  else Ret (Sprintf_04x false (sz + 4) ++ b).

Definition ErrorPacket_EncodeToPktLine (e : bytes) : go bytes :=
  let bs := B "ERR " ++ e in
  let sz := len bs in
  if sz >? 65535 then Panic "content too large"
  else Ret (Sprintf_04x true (sz + 4) ++ bs).

Definition PackFileIndicatorPacket_EncodeToPktLine : go bytes := Ret (B "PACK").
Definition PackFilePacket_EncodeToPktLine (p : bytes) : go bytes := Ret p.

Definition Packet_EncodeToPktLine (p : Packet) : go bytes :=
  match p with
  | FlushPacket => FlushPacket_EncodeToPktLine
  | DelimPacket => DelimPacket_EncodeToPktLine
  | BytesPacket b => BytesPacket_EncodeToPktLine b
  | ErrorPacket e => ErrorPacket_EncodeToPktLine e
  | PackFileIndicatorPacket => PackFileIndicatorPacket_EncodeToPktLine
  | PackFilePacket p => PackFilePacket_EncodeToPktLine p
  end.

(** ** Go slices into a shared array *)

(** A slice [s] of bytes: [arr] is the backing array from [s[0]] up to the
    capacity, [slen] the length ([slen <= length arr]).  The bytes past the
    length are whatever the array holds there. *)
Record slice : Type := mkSlice { arr : bytes; slen : nat }.

Definition slice_cap (s : slice) : nat := length (arr s).
Definition slice_bytes (s : slice) : bytes := firstn (slen s) (arr s).

(** [s[lo:hi]]: Go checks [0 <= lo <= hi <= cap(s)]. *)
Definition slice_lo_hi (s : slice) (lo hi : nat) : go slice :=
  if ((lo <=? hi) && (hi <=? slice_cap s))%nat
  then Ret (mkSlice (skipn lo (arr s)) (hi - lo))
  else Panic "slice bounds out of range".

(** [s[lo:]] is [s[lo:len(s)]]: Go checks [lo <= len(s)]. *)
Definition slice_lo (s : slice) (lo : nat) : go slice :=
  if (lo <=? slen s)%nat
  then Ret (mkSlice (skipn lo (arr s)) (slen s - lo))
  else Panic "slice bounds out of range".

(** A possibly nil slice: [None] is nil (length and capacity 0). *)
Definition nslice := option slice.

Definition nlen (d : nslice) : nat :=
  match d with Some s => slen s | None => O end.
Definition nbytes (d : nslice) : bytes :=
  match d with Some s => slice_bytes s | None => [] end.
Definition nslice_lo_hi (d : nslice) (lo hi : nat) : go slice :=
  slice_lo_hi (match d with Some s => s | None => mkSlice [] 0 end) lo hi.
Definition nslice_lo (d : nslice) (lo : nat) : go slice :=
  slice_lo (match d with Some s => s | None => mkSlice [] 0 end) lo.

(** ** The byte source: an [io.Reader]

    [rd_data] is what the source still holds, [rd_sched] how it hands it out:
    the next [Read] returns at most [S k] bytes for the head [k] of the
    schedule (everything that fits once the schedule is used up), and
    [rd_err] is the error returned when no data is left ([io_EOF] for a clean
    end).  A [Read] into a non-empty buffer returns at least one byte while
    data remains. *)
Record Reader : Type := mkReader {
  rd_data : bytes;
  rd_sched : list nat;
  rd_err : error
}.

Definition Reader_Read (r : Reader) (c : nat) : bytes * option error * Reader :=
  match rd_data r with
  | [] => ([], Some (rd_err r), r)
  | _ =>
      let k := match rd_sched r with
               | [] => c
               | k :: _ => Nat.min c (S k)
               end in
      (firstn k (rd_data r), None,
       mkReader (skipn k (rd_data r)) (tl (rd_sched r)) (rd_err r))
  end.

(** ** [bufio.Scanner] (Go standard library), as [PacketScanner] uses it

    The buffer [sc_buf] always has its full length ([len = cap]); an empty
    [sc_buf] is the nil buffer of a new scanner.  [ErrFinalToken],
    [ErrNegativeAdvance] and [ErrBadReadCount] cannot arise from the split
    function and the reader modelled here and are left out. *)
Record Scanner : Type := mkScanner {
  sc_r : Reader;
  sc_buf : bytes;
  sc_start : nat;
  sc_end : nat;
  sc_err : option error;
  sc_token : nslice;
  sc_empties : nat
}.

Definition SplitFunc := nslice -> bool -> go (nat * nslice * option error).

Definition startBufSize : nat := Z.to_nat 4096.
Definition MaxScanTokenSize : nat := Z.to_nat 65536.
Definition maxConsecutiveEmptyReads : nat := 100.
Definition io_ErrNoProgress : error := io_Error "multiple Read calls return no data or error".

Definition bufio_NewScanner (r : Reader) : Scanner :=
  mkScanner r [] 0 0 None None 0.

(** [e != nil] *)
Definition notnil {A : Type} (e : option A) : bool :=
  match e with Some _ => true | None => false end.

(** [s.setErr]: records the first error other than [io.EOF]. *)
Definition setErr (s : Scanner) (err : error) : Scanner :=
  match sc_err s with
  | None | Some io_EOF =>
      mkScanner (sc_r s) (sc_buf s) (sc_start s) (sc_end s) (Some err)
                (sc_token s) (sc_empties s)
  | Some _ => s
  end.

(** [s.Err()] *)
Definition bufio_Err (s : Scanner) : option error :=
  match sc_err s with
  | Some io_EOF => None
  | e => e
  end.

(** [s.buf[s.start:s.end]] *)
Definition sc_data (s : Scanner) : nslice :=
  match sc_buf s with
  | [] => None
  | _ => Some (mkSlice (skipn (sc_start s) (sc_buf s)) (sc_end s - sc_start s))
  end.

(** The read loop at the end of an iteration of [Scan]: [k] empty reads are
    still tolerated. *)
Fixpoint read_loop (k : nat) (s : Scanner) : Scanner :=
  let '(bs, e, r') := Reader_Read (sc_r s) (length (sc_buf s) - sc_end s) in
  let n := length bs in
  let s1 := mkScanner r'
              (firstn (sc_end s) (sc_buf s) ++ bs ++ skipn (sc_end s + n) (sc_buf s))
              (sc_start s) (sc_end s + n) (sc_err s) (sc_token s) (sc_empties s) in
  match e with
  | Some err => setErr s1 err
  | None =>
      if (0 <? n)%nat then
        mkScanner (sc_r s1) (sc_buf s1) (sc_start s1) (sc_end s1) (sc_err s1)
                  (sc_token s1) 0
      else match k with
           | O => setErr s1 io_ErrNoProgress
           | S k' => read_loop k' s1
           end
  end.

(** First half of an iteration of the [for] loop of [Scan], "see if we can
    get a token with what we already have": [inl] when [Scan] returns here,
    [inr] when it has to go on. *)
Definition bufio_Scan_token (split : SplitFunc) (s : Scanner)
  : go (bool * Scanner + Scanner) :=
  if (sc_start s <? sc_end s)%nat || (notnil (sc_err s)) then
    '(advance, token, err) <- split (sc_data s) (notnil (sc_err s)) ;;
    match err with
    | Some e => Ret (inl (false, setErr s e))
    | None =>
        if (sc_end s - sc_start s <? advance)%nat
        then Ret (inl (false, setErr s bufio_ErrAdvanceTooFar))
        else
          let s1 := mkScanner (sc_r s) (sc_buf s) (sc_start s + advance)
                      (sc_end s) (sc_err s) token (sc_empties s) in
          match token with
          | Some _ =>
              if (negb (notnil (sc_err s))) || (0 <? advance)%nat then
                Ret (inl (true,
                     mkScanner (sc_r s1) (sc_buf s1) (sc_start s1)
                       (sc_end s1) (sc_err s1) (sc_token s1) 0))
              else if (maxConsecutiveEmptyReads <? S (sc_empties s))%nat then
                Panic "bufio.Scan: too many empty tokens without progressing"
              else
                Ret (inl (true,
                     mkScanner (sc_r s1) (sc_buf s1) (sc_start s1)
                       (sc_end s1) (sc_err s1) (sc_token s1)
                       (S (sc_empties s))))
          | None => Ret (inr s1)
          end
    end
  else Ret (inr s).

(** Second half, "we cannot generate a token with what we are holding":
    give up at the end of the input, or make room and read. *)
Definition bufio_Scan_more (s : Scanner) : bool * Scanner + Scanner :=
  match sc_err s with
  | Some _ =>
      (* Shut it down. *)
      inl (false,
           mkScanner (sc_r s) (sc_buf s) 0 0 (sc_err s) (sc_token s) (sc_empties s))
  | None =>
      (* Shift data to the beginning of the buffer. *)
      let s :=
        if (0 <? sc_start s)%nat &&
           ((sc_end s =? length (sc_buf s))%nat ||
            (length (sc_buf s) / 2 <? sc_start s)%nat)
        then
          let d := firstn (sc_end s - sc_start s) (skipn (sc_start s) (sc_buf s)) in
          mkScanner (sc_r s) (d ++ skipn (length d) (sc_buf s)) 0
                    (sc_end s - sc_start s) (sc_err s) (sc_token s) (sc_empties s)
        else s in
      (* Is the buffer full?  If so, resize. *)
      if (sc_end s =? length (sc_buf s))%nat then
        if (MaxScanTokenSize <=? length (sc_buf s))%nat then
          inl (false, setErr s bufio_ErrTooLong)
        else
          let newSize := (length (sc_buf s) * 2)%nat in
          let newSize := if (newSize =? 0)%nat then startBufSize else newSize in
          let newSize := Nat.min newSize MaxScanTokenSize in
          let d := firstn (sc_end s - sc_start s) (skipn (sc_start s) (sc_buf s)) in
          let s := mkScanner (sc_r s)
                     (d ++ repeat zero (newSize - length d)) 0
                     (sc_end s - sc_start s) (sc_err s) (sc_token s) (sc_empties s) in
          inr (read_loop maxConsecutiveEmptyReads s)
      else inr (read_loop maxConsecutiveEmptyReads s)
  end.

(** One iteration of the loop. *)
Definition bufio_Scan_iter (split : SplitFunc) (s : Scanner)
  : go (bool * Scanner + Scanner) :=
  r1 <- bufio_Scan_token split s ;;
  match r1 with
  | inl res => Ret (inl res)
  | inr s => Ret (bufio_Scan_more s)
  end.

Fixpoint bufio_Scan_loop (fuel : nat) (split : SplitFunc) (s : Scanner)
  : go (bool * Scanner) :=
  match fuel with
  | O => Panic "unreachable: the loop of bufio.Scan ran out of fuel"
  | S fuel' =>
      r <- bufio_Scan_iter split s ;;
      match r with
      | inl res => Ret res
      | inr s' => bufio_Scan_loop fuel' split s'
      end
  end.

(** Every iteration that does not return reads at least one byte or records
    the reader's error, after which the next one returns. *)
Definition bufio_fuel (s : Scanner) : nat := S (S (length (rd_data (sc_r s)))).

(** [s.Scan()] *)
Definition bufio_Scan (split : SplitFunc) (s : Scanner) : go (bool * Scanner) :=
  bufio_Scan_loop (bufio_fuel s) split s.

(** ** token.go: [PacketScanner] *)

Record PacketScanner : Type := mkPacketScanner {
  ps_err : option error;
  ps_curr : option Packet;
  packFileMode : bool;
  scanner : Scanner
}.

(** [s.packetSplitFunc] *)
Definition packetSplitFunc (packFileMode : bool) : SplitFunc :=
  fun data atEOF =>
    if packFileMode then Ret (nlen data, data, None)
    else if (nlen data <? 4)%nat then Ret (O, None, None)
    else if HasPrefix (nbytes data) (B "PACK") then
      tok <- nslice_lo_hi data 0 4 ;; Ret (4%nat, Some tok, None)
    else
      hd <- nslice_lo_hi data 0 4 ;;
      match ParseUint16 (slice_bytes hd) with
      | None => Ret (O, None, Some (strconv_NumError "ParseUint" (slice_bytes hd)))
      | Some sz =>
          if (sz =? 0) || (sz =? 1) then
            tok <- nslice_lo_hi data 0 4 ;; Ret (4%nat, Some tok, None)
          else if Z.of_nat (nlen data) <? sz then Ret (O, None, None)
          else
            tok <- nslice_lo_hi data 0 (Z.to_nat sz) ;;
            Ret (Z.to_nat sz, Some tok, None)
      end.

Definition NewPacketScanner (r : Reader) : PacketScanner :=
  mkPacketScanner None None false (bufio_NewScanner r).

Definition PacketScanner_Err (s : PacketScanner) : option error := ps_err s.
Definition PacketScanner_Packet (s : PacketScanner) : option Packet := ps_curr s.

(** The second half of [s.Scan()], from [bs := s.scanner.Bytes()] on: [sc] is
    the [bufio.Scanner] after its [Scan] has returned true. *)
Definition PacketScanner_Scan_bytes (s : PacketScanner) (sc : Scanner)
  : go (bool * PacketScanner) :=
  let bs := sc_token sc in
  if packFileMode s then
    if (nlen bs =? 0)%nat then
      (* EOF *)
      Ret (false, mkPacketScanner None (ps_curr s) true sc)
    else
      Ret (true, mkPacketScanner None (Some (PackFilePacket (nbytes bs))) true sc)
  else if bytes_eqb (nbytes bs) (B "0000") then
    Ret (true, mkPacketScanner None (Some FlushPacket) false sc)
  else if bytes_eqb (nbytes bs) (B "0001") then
    Ret (true, mkPacketScanner None (Some DelimPacket) false sc)
  else if bytes_eqb (nbytes bs) (B "PACK") then
    Ret (true, mkPacketScanner None (Some PackFileIndicatorPacket) true sc)
  else if (nlen bs =? 4)%nat then
    Ret (false,
         mkPacketScanner
           (Some (SyntaxError (Text (B "unknown special packet: " ++ nbytes bs))))
           (ps_curr s) false sc)
  else
    b48 <- nslice_lo_hi bs 4 8 ;;
    if bytes_eqb (slice_bytes b48) (B "ERR ") then
      b8 <- nslice_lo bs 8 ;;
      Ret (false,
           mkPacketScanner (Some (RemoteError (slice_bytes b8)))
                           (ps_curr s) false sc)
    else
      b4 <- nslice_lo bs 4 ;;
      Ret (true,
           mkPacketScanner None (Some (BytesPacket (slice_bytes b4))) false sc).

(** [s.Scan()] *)
Definition PacketScanner_Scan (s : PacketScanner) : go (bool * PacketScanner) :=
  match ps_err s with
  | Some _ => Ret (false, s)
  | None =>
      '(ok, sc) <- bufio_Scan (packetSplitFunc (packFileMode s)) (scanner s) ;;
      if negb ok then
        Ret (false, mkPacketScanner (bufio_Err sc) (ps_curr s) (packFileMode s) sc)
      else PacketScanner_Scan_bytes s sc
  end.

Definition early_EOF : error := SyntaxError (Text (B "early EOF")).
Definition unexpected_packet (v : govalue) : error :=
  SyntaxError (GoSyntax (B "unexpected packet: ") v).

(** ** receiveresp.go: the protocol-v1 git-receive-pack response *)

Inductive ReceiveResponseState : Type :=
| ReceiveResponseBegin
| ReceiveResponseScanResult
| ReceiveResponseEnd.

Record ReceiveResponseChunk : Type := mkReceiveResponseChunk {
  UnpackStatus : bytes;
  RefUpdateStatus : bytes;
  RefName : bytes;
  RefUpdateFailMessage : bytes;
  EndOfResponse : bool
}.

Definition nonempty (s : bytes) : bool :=
  match s with [] => false | _ => true end.

(** [c.EncodeToPktLine()] *)
Definition ReceiveResponseChunk_EncodeToPktLine (c : ReceiveResponseChunk) : go bytes :=
  if nonempty (UnpackStatus c) then
    BytesPacket_EncodeToPktLine (B "unpack " ++ UnpackStatus c ++ [newline])
  else if nonempty (RefUpdateStatus c) then
    if negb (nonempty (RefUpdateFailMessage c)) then
      BytesPacket_EncodeToPktLine
        (RefUpdateStatus c ++ [space] ++ RefName c ++ [newline])
    else
      BytesPacket_EncodeToPktLine
        (RefUpdateStatus c ++ [space] ++ RefName c ++ [space]
           ++ RefUpdateFailMessage c ++ [newline])
  else if EndOfResponse c then FlushPacket_EncodeToPktLine
  else Panic "impossible chunk".

Record ReceiveResponse : Type := mkReceiveResponse {
  rr_scanner : PacketScanner;
  rr_state : ReceiveResponseState;
  rr_err : option error;
  rr_curr : option ReceiveResponseChunk
}.

Definition NewReceiveResponse (rd : Reader) : ReceiveResponse :=
  mkReceiveResponse (NewPacketScanner rd) ReceiveResponseBegin None None.

Definition ReceiveResponse_Err (r : ReceiveResponse) : option error := rr_err r.
Definition ReceiveResponse_Chunk (r : ReceiveResponse) : option ReceiveResponseChunk :=
  rr_curr r.

(** The [switch r.state] of [ReceiveResponse.Scan], reached once the packet
    scanner [sc] has delivered the packet [pkt]. *)
Definition ReceiveResponse_switch (sc : PacketScanner) (st : ReceiveResponseState)
    (curr : option ReceiveResponseChunk) (pkt : option Packet)
  : go (bool * ReceiveResponse) :=
  let fail e := Ret (false, mkReceiveResponse sc st (Some e) curr) in
  match st with
  | ReceiveResponseBegin =>
      match pkt with
      | Some (BytesPacket bp) =>
          let s := TrimSuffix_nl bp in
          if negb (HasPrefix s (B "unpack ")) then fail (unexpected_packet (VString s))
          else
            status <- index (SplitN s 2) 1 ;;
            Ret (true, mkReceiveResponse sc ReceiveResponseScanResult None
                         (Some (mkReceiveResponseChunk status [] [] [] false)))
      | _ => fail (unexpected_packet (VPacket pkt))
      end
  | ReceiveResponseScanResult =>
      match pkt with
      | Some FlushPacket =>
          Ret (true, mkReceiveResponse sc ReceiveResponseEnd None
                       (Some (mkReceiveResponseChunk [] [] [] [] true)))
      | Some (BytesPacket p) =>
          let s := TrimSuffix_nl p in
          if HasPrefix s (B "ok ") then
            let ss := SplitN s 2 in
            ss0 <- index ss 0 ;;
            ss1 <- index ss 1 ;;
            Ret (true, mkReceiveResponse sc st None
                         (Some (mkReceiveResponseChunk [] ss0 ss1 [] false)))
          else if HasPrefix s (B "ng ") then
            let ss := SplitN s 3 in
            if negb (length ss =? 3)%nat then
              fail (SyntaxError (Text (B "cannot split into three: " ++ s)))
            else
              ss0 <- index ss 0 ;;
              ss1 <- index ss 1 ;;
              ss2 <- index ss 2 ;;
              Ret (true, mkReceiveResponse sc st None
                           (Some (mkReceiveResponseChunk [] ss0 ss1 ss2 false)))
          else fail (unexpected_packet (VPacket pkt))
      | _ => fail (unexpected_packet (VPacket pkt))
      end
  | ReceiveResponseEnd => Panic "impossible state"
  end.

(** [r.Scan()] *)
Definition ReceiveResponse_Scan (r : ReceiveResponse) : go (bool * ReceiveResponse) :=
  if notnil (rr_err r)
     || match rr_state r with ReceiveResponseEnd => true | _ => false end
  then Ret (false, r)
  else
    '(ok, sc) <- PacketScanner_Scan (rr_scanner r) ;;
    if negb ok then
      let err := PacketScanner_Err sc in
      let err :=
        if negb (notnil err)
           && negb match rr_state r with ReceiveResponseBegin => true | _ => false end
        then Some early_EOF else err in
      Ret (false, mkReceiveResponse sc (rr_state r) err (rr_curr r))
    else
      ReceiveResponse_switch sc (rr_state r) (rr_curr r) (PacketScanner_Packet sc).

(** ** receiveresp.go, second part: the protocol-v2 request *)

Inductive RequestState : Type :=
| RequestBegin
| RequestScanCapabilities
| RequestScanArguments
| RequestEnd.

Record RequestChunk : Type := mkRequestChunk {
  Command : bytes;
  Capability : bytes;
  EndCapability : bool;
  Argument : bytes;
  EndArgument : bool;
  EndRequest : bool
}.

(** [c.EncodeToPktLine()] *)
Definition RequestChunk_EncodeToPktLine (c : RequestChunk) : go bytes :=
  if nonempty (Command c) then
    BytesPacket_EncodeToPktLine (B "command=" ++ Command c ++ [newline])
  else if nonempty (Capability c) then
    BytesPacket_EncodeToPktLine (Capability c ++ [newline])
  else if EndCapability c then DelimPacket_EncodeToPktLine
  else if negb (len (Argument c) =? 0) then BytesPacket_EncodeToPktLine (Argument c)
  else if EndArgument c || EndRequest c then FlushPacket_EncodeToPktLine
  else Panic "impossible chunk".

Record Request : Type := mkRequest {
  rq_scanner : PacketScanner;
  rq_state : RequestState;
  rq_err : option error;
  rq_curr : option RequestChunk
}.

Definition NewRequest (rd : Reader) : Request :=
  mkRequest (NewPacketScanner rd) RequestBegin None None.

Definition Request_Err (r : Request) : option error := rq_err r.
Definition Request_Chunk (r : Request) : option RequestChunk := rq_curr r.

(** The [switch r.state] of [Request.Scan]. *)
Definition Request_switch (sc : PacketScanner) (st : RequestState)
    (curr : option RequestChunk) (packet : option Packet)
  : go (bool * Request) :=
  let fail := Ret (false, mkRequest sc st (Some (unexpected_packet (VPacket packet))) curr) in
  let emit st' c := Ret (true, mkRequest sc st' None (Some c)) in
  match st with
  | RequestBegin =>
      match packet with
      | Some FlushPacket => emit RequestEnd (mkRequestChunk [] [] false [] false true)
      | Some (BytesPacket p) =>
          if negb (HasPrefix p (B "command=")) then fail
          else emit RequestScanCapabilities
                 (mkRequestChunk (TrimSuffix_nl (TrimPrefix p (B "command=")))
                                 [] false [] false false)
      | _ => fail
      end
  | RequestScanCapabilities =>
      match packet with
      | Some DelimPacket => emit RequestScanArguments (mkRequestChunk [] [] true [] false false)
      | Some (BytesPacket p) =>
          emit st (mkRequestChunk [] (TrimSuffix_nl p) false [] false false)
      | _ => fail
      end
  | RequestScanArguments =>
      match packet with
      | Some FlushPacket => emit RequestBegin (mkRequestChunk [] [] false [] true false)
      | Some (BytesPacket p) => emit st (mkRequestChunk [] [] false p false false)
      | _ => fail
      end
  | RequestEnd => Panic "impossible state"
  end.

(** [r.Scan()] *)
Definition Request_Scan (r : Request) : go (bool * Request) :=
  if notnil (rq_err r) || match rq_state r with RequestEnd => true | _ => false end
  then Ret (false, r)
  else
    '(ok, sc) <- PacketScanner_Scan (rq_scanner r) ;;
    if negb ok then
      let err := PacketScanner_Err sc in
      let err :=
        if negb (notnil err)
           && negb match rq_state r with RequestBegin => true | _ => false end
        then Some early_EOF else err in
      Ret (false, mkRequest sc (rq_state r) err (rq_curr r))
    else
      Request_switch sc (rq_state r) (rq_curr r) (PacketScanner_Packet sc).

(** ** uploadresp.go: the protocol-v1 git-upload-pack response *)

Inductive UploadResponseState : Type :=
| UploadResponseBegin
| UploadResponseScanShallows
| UploadResponseScanUnshallows
| UploadResponseBeginAcknowledgements
| UploadResponseScanAcknowledgements
| UploadResponseScanPacks
| UploadResponseEnd.

(** The field [PackRepo any] is never written by the parser nor read by the
    encoder; it is kept as a field that is always nil. *)
Record UploadResponseChunk : Type := mkUploadResponseChunk {
  ShallowObjectID : bytes;
  UnshallowObjectID : bytes;
  EndOfShallows : bool;
  AckObjectID : bytes;
  AckDetail : bytes;
  Nak : bool;
  PackStream : bytes;
  PackRepo : option unit;
  EndOfRequest : bool
}.

Definition emptyUploadResponseChunk : UploadResponseChunk :=
  mkUploadResponseChunk [] [] false [] [] false [] None false.

(** [c.EncodeToPktLine()] *)
Definition UploadResponseChunk_EncodeToPktLine (c : UploadResponseChunk) : go bytes :=
  if nonempty (ShallowObjectID c) then
    BytesPacket_EncodeToPktLine (B "shallow " ++ ShallowObjectID c ++ [newline])
  else if nonempty (UnshallowObjectID c) then
    BytesPacket_EncodeToPktLine (B "unshallow " ++ UnshallowObjectID c ++ [newline])
  else if EndOfShallows c then FlushPacket_EncodeToPktLine
  else if nonempty (AckObjectID c) then
    if nonempty (AckDetail c) then
      BytesPacket_EncodeToPktLine
        (B "ACK " ++ AckObjectID c ++ [space] ++ AckDetail c ++ [newline])
    else
      BytesPacket_EncodeToPktLine (B "ACK " ++ AckObjectID c ++ [newline])
  else if Nak c then BytesPacket_EncodeToPktLine (B "NAK" ++ [newline])
  else if negb (len (PackStream c) =? 0) then BytesPacket_EncodeToPktLine (PackStream c)
  else if EndOfRequest c then FlushPacket_EncodeToPktLine
  else Panic "impossible chunk".

Record UploadResponse : Type := mkUploadResponse {
  ur_scanner : PacketScanner;
  ur_state : UploadResponseState;
  ur_err : option error;
  ur_curr : option UploadResponseChunk
}.

Definition NewUploadResponse (rd : Reader) : UploadResponse :=
  mkUploadResponse (NewPacketScanner rd) UploadResponseBegin None None.

Definition UploadResponse_Err (r : UploadResponse) : option error := ur_err r.
Definition UploadResponse_Chunk (r : UploadResponse) : option UploadResponseChunk :=
  ur_curr r.

Section UploadSwitch.
(** The [switch r.state] of [UploadResponse.Scan]: one function per [case],
    each falling through to the next.  [st] and [curr] are [r.state] and
    [r.curr] on entry; neither changes before a [return]. *)
Variable sc : PacketScanner.
Variable st : UploadResponseState.
Variable curr : option UploadResponseChunk.
Variable pkt : option Packet.

Let fail (e : error) : go (bool * UploadResponse) :=
  Ret (false, mkUploadResponse sc st (Some e) curr).
Let emit (st' : UploadResponseState) (c : UploadResponseChunk)
  : go (bool * UploadResponse) :=
  Ret (true, mkUploadResponse sc st' None (Some c)).

(** [case UploadResponseScanPacks] *)
Definition UploadResponse_case_packs : go (bool * UploadResponse) :=
  match pkt with
  | Some FlushPacket =>
      emit UploadResponseEnd
        (mkUploadResponseChunk [] [] false [] [] false [] None true)
  | Some (BytesPacket p) =>
      emit UploadResponseScanPacks
        (mkUploadResponseChunk [] [] false [] [] false p None false)
  | Some (PackFilePacket p) =>
      emit UploadResponseScanPacks
        (mkUploadResponseChunk [] [] false [] [] false p None false)
  | Some PackFileIndicatorPacket =>
      Ret (true, mkUploadResponse sc UploadResponseScanPacks None curr)
  | _ => fail (unexpected_packet (VPacket pkt))
  end.

(** [case UploadResponseBeginAcknowledgements, UploadResponseScanAcknowledgements] *)
Definition UploadResponse_case_acks : go (bool * UploadResponse) :=
  let rest :=
    match st with
    | UploadResponseBegin => fail (unexpected_packet (VPacket pkt))
    | _ => UploadResponse_case_packs
    end in
  match pkt with
  | Some (BytesPacket bp) =>
      if HasPrefix bp (B "ACK ") then
        let ss := SplitN (TrimSuffix_nl bp) 3 in
        if (length ss <? 2)%nat then
          fail (SyntaxError (Text (B "cannot split ACK: " ++ bp)))
        else
          detail <- (if (length ss =? 3)%nat then index ss 2 else Ret []) ;;
          ss1 <- index ss 1 ;;
          emit UploadResponseScanAcknowledgements
            (mkUploadResponseChunk [] [] false ss1 detail false [] None false)
      else if bytes_eqb bp (B "NAK" ++ [newline]) then
        emit UploadResponseScanPacks
          (mkUploadResponseChunk [] [] false [] [] true [] None false)
      else rest
  | _ => rest
  end.

(** [case UploadResponseScanUnshallows] *)
Definition UploadResponse_case_unshallows : go (bool * UploadResponse) :=
  let rest :=
    match pkt with
    | Some FlushPacket =>
        emit UploadResponseBeginAcknowledgements
          (mkUploadResponseChunk [] [] true [] [] false [] None false)
    | _ => UploadResponse_case_acks
    end in
  match pkt with
  | Some (BytesPacket bp) =>
      if HasPrefix bp (B "unshallow ") then
        let ss := SplitN (TrimSuffix_nl bp) 2 in
        if (length ss <? 2)%nat then
          fail (SyntaxError (Text (B "cannot split unshallow: " ++ bp)))
        else
          ss1 <- index ss 1 ;;
          emit UploadResponseScanUnshallows
            (mkUploadResponseChunk [] ss1 false [] [] false [] None false)
      else rest
  | _ => rest
  end.

(** [case UploadResponseBegin, UploadResponseScanShallows] *)
Definition UploadResponse_case_shallows : go (bool * UploadResponse) :=
  match pkt with
  | Some (BytesPacket bp) =>
      if HasPrefix bp (B "shallow ") then
        let ss := SplitN (TrimSuffix_nl bp) 2 in
        if (length ss <? 2)%nat then
          fail (SyntaxError (Text (B "cannot split shallow: " ++ bp)))
        else
          ss1 <- index ss 1 ;;
          emit UploadResponseScanShallows
            (mkUploadResponseChunk ss1 [] false [] [] false [] None false)
      else UploadResponse_case_unshallows
  | _ => UploadResponse_case_unshallows
  end.

Definition UploadResponse_switch : go (bool * UploadResponse) :=
  match st with
  | UploadResponseBegin | UploadResponseScanShallows => UploadResponse_case_shallows
  | UploadResponseScanUnshallows => UploadResponse_case_unshallows
  | UploadResponseBeginAcknowledgements
  | UploadResponseScanAcknowledgements => UploadResponse_case_acks
  | UploadResponseScanPacks => UploadResponse_case_packs
  | UploadResponseEnd => Panic "impossible state"
  end.
End UploadSwitch.

(** [r.Scan()] *)
Definition UploadResponse_Scan (r : UploadResponse) : go (bool * UploadResponse) :=
  if notnil (ur_err r)
     || match ur_state r with UploadResponseEnd => true | _ => false end
  then Ret (false, r)
  else
    '(ok, sc) <- PacketScanner_Scan (ur_scanner r) ;;
    if negb ok then
      let err :=
        if negb (notnil (PacketScanner_Err sc)) then
          match ur_state r with
          | UploadResponseBeginAcknowledgements | UploadResponseScanPacks => ur_err r
          | _ => Some early_EOF
          end
        else ur_err r in
      Ret (false, mkUploadResponse sc (ur_state r) err (ur_curr r))
    else
      UploadResponse_switch sc (ur_state r) (ur_curr r) (PacketScanner_Packet sc).

(** ** Driving a parser: [for r.Scan() { ... r.Chunk() ... }]

    The chunks are taken as values at the time [Scan] returns them. *)

Section Run.
Context {R C : Type}.
Variable scan : R -> go (bool * R).
Variable chunk : R -> option C.

(** The loop with its chunks: [runs r cs r'] when [Scan] returns true
    [length cs] times from [r], exposing the chunks [cs], and then false,
    leaving the parser in [r']. *)
Inductive runs : R -> list (option C) -> R -> Prop :=
| runs_stop r r' : scan r = Ret (false, r') -> runs r [] r'
| runs_step r r1 cs r' :
    scan r = Ret (true, r1) -> runs r1 cs r' -> runs r (chunk r1 :: cs) r'.

Lemma runs_cons r r1 c cs r' :
  scan r = Ret (true, r1) -> chunk r1 = c -> runs r1 cs r' -> runs r (c :: cs) r'.
Proof. intros H <- Hr. apply runs_step; assumption. Qed.

(** The same loop, executable: [None] when [fuel] calls did not reach the
    end. *)
Fixpoint run (fuel : nat) (r : R) : go (option (list (option C) * R)) :=
  match fuel with
  | O => Ret None
  | S fuel' =>
      '(ok, r1) <- scan r ;;
      if ok then
        res <- run fuel' r1 ;;
        match res with
        | Some (cs, r') => Ret (Some (chunk r1 :: cs, r'))
        | None => Ret None
        end
      else Ret (Some ([], r1))
  end.
End Run.

(** * Properties *)

(** ** Strings *)

Lemma HasPrefix_app (p s : bytes) : HasPrefix (p ++ s) p = true.
Proof.
  induction p as [|c p IH]; simpl; [reflexivity|].
  now rewrite Ascii.eqb_refl.
Qed.

Lemma HasPrefix_inv (p s : bytes) :
  HasPrefix s p = true -> s = p ++ skipn (length p) s.
Proof.
  revert s; induction p as [|c p IH]; intros s H; simpl in *; [reflexivity|].
  destruct s as [|d s]; [discriminate|].
  apply andb_true_iff in H as [Hc Hp].
  apply Ascii.eqb_eq in Hc; subst d.
  simpl. f_equal. now apply IH.
Qed.

Lemma TrimSuffix_nl_snoc (s : bytes) : TrimSuffix_nl (s ++ [newline]) = s.
Proof.
  induction s as [|c s IH]; [reflexivity|].
  simpl. destruct (s ++ [newline]) eqn:E.
  - destruct s; discriminate.
  - now rewrite <- IH.
Qed.

(** [TrimSuffix] either removes a final newline or leaves the string alone. *)
Lemma TrimSuffix_nl_cases (s : bytes) :
  s = TrimSuffix_nl s ++ [newline] \/ s = TrimSuffix_nl s.
Proof.
  induction s as [|c s IH]; [now right|].
  destruct s as [|d s].
  - simpl. destruct (Ascii.eqb c newline) eqn:E.
    + apply Ascii.eqb_eq in E. subst. now left.
    + now right.
  - change (TrimSuffix_nl (c :: d :: s)) with (c :: TrimSuffix_nl (d :: s)).
    destruct IH as [IH|IH]; [left|right]; cbn [app]; now rewrite <- IH.
Qed.


Lemma cut_space_Some (s a b : bytes) :
  cut_space s = Some (a, b) ->
  s = a ++ space :: b /\ ~ In space a.
Proof.
  revert a b; induction s as [|c s IH]; intros a b H; simpl in H; [discriminate|].
  destruct (Ascii.eqb c space) eqn:E.
  - apply Ascii.eqb_eq in E. inversion H; subst. split; [reflexivity|intros []].
  - destruct (cut_space s) as [[a' b']|]; [|discriminate].
    inversion H; subst. destruct (IH a' b eq_refl) as [-> Hn].
    split; [reflexivity|].
    intros [Hc|Hin]; [|now apply Hn].
    subst c. now rewrite Ascii.eqb_refl in E.
Qed.

Lemma cut_space_None (s : bytes) : cut_space s = None -> ~ In space s.
Proof.
  induction s as [|c s IH]; simpl; intros H; [intros []|].
  destruct (Ascii.eqb c space) eqn:E; [discriminate|].
  destruct (cut_space s) as [[a b]|]; [discriminate|].
  intros [Hc|Hin]; [|now apply IH].
  subst c. now rewrite Ascii.eqb_refl in E.
Qed.

Lemma cut_space_app (a b : bytes) :
  ~ In space a -> cut_space (a ++ space :: b) = Some (a, b).
Proof.
  induction a as [|c a IH]; intros Hn; simpl.
  - reflexivity.
  - destruct (Ascii.eqb c space) eqn:E.
    + apply Ascii.eqb_eq in E. exfalso. apply Hn. now left.
    + rewrite IH; [reflexivity|]. intros Hin. apply Hn. now right.
Qed.

Lemma cut_space_nospace (s : bytes) : ~ In space s -> cut_space s = None.
Proof.
  induction s as [|c s IH]; intros Hn; simpl; [reflexivity|].
  destruct (Ascii.eqb c space) eqn:E.
  - apply Ascii.eqb_eq in E. exfalso. apply Hn. now left.
  - rewrite IH; [reflexivity|]. intros Hin. apply Hn. now right.
Qed.





(** The cuts the length bound of [genSplit] removes were never possible. *)
Lemma genSplit_loop_min (n m : nat) (s : bytes) :
  (length s <= m)%nat -> genSplit_loop (Nat.min n m) s = genSplit_loop n s.
Proof.
  revert m s; induction n as [|n IH]; intros m s Hm; [reflexivity|].
  destruct m as [|m].
  - destruct s; [reflexivity|simpl in Hm; lia].
  - change (Nat.min (S n) (S m)) with (S (Nat.min n m)).
    cbn [genSplit_loop].
    destruct (cut_space s) as [[a rest]|] eqn:E; [|reflexivity].
    f_equal. apply IH.
    apply cut_space_Some in E as [E _].
    apply (f_equal (@length ascii)) in E. rewrite length_app in E. simpl in E. lia.
Qed.

Lemma SplitN_S (s : bytes) (n : nat) : SplitN s (S n) = genSplit_loop n s.
Proof. apply genSplit_loop_min. lia. Qed.

(** ** End of stream in the receive-pack and request parsers *)

Definition stream (s : string) : Reader := mkReader (B s) [] io_EOF.

(** C8.  Receive-pack response parser and v2 request parser: when the packet
    scanner stops with no error, [Scan] returns false; [Err()] is nil if the
    parser is in its [Begin] state and [SyntaxError("early EOF")] in any
    other state that is not [End]. *)
Theorem clean_end_of_stream
    (r : ReceiveResponse) (q : Request) (sr sq : PacketScanner)
    (Hr : rr_err r = None) (Hrs : rr_state r <> ReceiveResponseEnd)
    (Hrscan : PacketScanner_Scan (rr_scanner r) = Ret (false, sr))
    (Hrclean : PacketScanner_Err sr = None)
    (Hq : rq_err q = None) (Hqs : rq_state q <> RequestEnd)
    (Hqscan : PacketScanner_Scan (rq_scanner q) = Ret (false, sq))
    (Hqclean : PacketScanner_Err sq = None) :
  (exists r', ReceiveResponse_Scan r = Ret (false, r') /\
     ReceiveResponse_Err r' =
       match rr_state r with
       | ReceiveResponseBegin => None
       | _ => Some (SyntaxError (Text (B "early EOF")))
       end) /\
  (exists q', Request_Scan q = Ret (false, q') /\
     Request_Err q' =
       match rq_state q with
       | RequestBegin => None
       | _ => Some (SyntaxError (Text (B "early EOF")))
       end).
Proof.
  split.
  - unfold ReceiveResponse_Scan. rewrite Hr, Hrscan. cbn [notnil bind negb orb].
    rewrite Hrclean.
    destruct (rr_state r); [| |contradiction]; eexists; split; reflexivity.
  - unfold Request_Scan. rewrite Hq, Hqscan. cbn [notnil bind negb orb].
    rewrite Hqclean.
    destruct (rq_state q); try contradiction; eexists; split; reflexivity.
Qed.

(** The state a parser is left in by its first [n] calls of [Scan]. *)
Fixpoint after {R : Type} (scan : R -> go (bool * R)) (n : nat) (r : R) : R :=
  match n with
  | O => r
  | S n' => match scan r with
            | Ret (_, r') => after scan n' r'
            | Panic _ => r
            end
  end.

Lemma clean_end_of_stream_witness :
  (exists r', ReceiveResponse_Scan
                (after ReceiveResponse_Scan 1
                   (NewReceiveResponse (stream "000dunpack ok"))) = Ret (false, r') /\
     ReceiveResponse_Err r' = Some (SyntaxError (Text (B "early EOF")))) /\
  (exists q', Request_Scan (NewRequest (stream "")) = Ret (false, q') /\
     Request_Err q' = None).
Proof.
  refine (clean_end_of_stream
    (after ReceiveResponse_Scan 1 (NewReceiveResponse (stream "000dunpack ok")))
    (NewRequest (stream ""))
    (after PacketScanner_Scan 2 (NewPacketScanner (stream "000dunpack ok")))
    (after PacketScanner_Scan 1 (NewPacketScanner (stream "")))
    _ _ _ _ _ _ _ _);
    try (vm_compute; reflexivity); vm_compute; discriminate.
Defined.

(** ** The pack-file indicator in the upload-pack response parser *)

(** C9.  When [UploadResponse.Scan] consumes a [PackFileIndicatorPacket] in
    the pack section (and in every state but [Begin] and [End], which fall
    through to it), it returns true, leaves the current chunk as it was and
    only moves the state to [UploadResponseScanPacks]. *)
Theorem pack_indicator_keeps_chunk
    (r : UploadResponse) (sc : PacketScanner)
    (Herr : ur_err r = None)
    (Hst : ur_state r <> UploadResponseBegin /\ ur_state r <> UploadResponseEnd)
    (Hscan : PacketScanner_Scan (ur_scanner r) = Ret (true, sc))
    (Hpkt : PacketScanner_Packet sc = Some PackFileIndicatorPacket) :
  exists r', UploadResponse_Scan r = Ret (true, r') /\
    UploadResponse_Chunk r' = UploadResponse_Chunk r /\
    ur_state r' = UploadResponseScanPacks /\
    UploadResponse_Err r' = None.
Proof.
  destruct Hst as [Hb He].
  unfold UploadResponse_Scan. rewrite Herr, Hscan. cbn [notnil bind negb orb].
  rewrite Hpkt.
  destruct (ur_state r); try contradiction;
    (eexists; split; [reflexivity|repeat split]).
Qed.

Lemma pack_indicator_keeps_chunk_witness :
  exists r',
    UploadResponse_Scan
      (after UploadResponse_Scan 1 (NewUploadResponse (stream "0008NAK
PACKabc"))) = Ret (true, r') /\
    UploadResponse_Chunk r' =
      Some (mkUploadResponseChunk [] [] false [] [] true [] None false) /\
    ur_state r' = UploadResponseScanPacks /\
    UploadResponse_Err r' = None.
Proof.
  refine (pack_indicator_keeps_chunk
    (after UploadResponse_Scan 1 (NewUploadResponse (stream "0008NAK
PACKabc")))
    (after PacketScanner_Scan 2 (NewPacketScanner (stream "0008NAK
PACKabc"))) _ _ _ _).
  - vm_compute; reflexivity.
  - split; vm_compute; discriminate.
  - vm_compute; reflexivity.
  - vm_compute; reflexivity.
Defined.

(** ** NAK, pack data, flush *)

(** C7.  Whatever [packBytes] is: when the packet scanner delivers
    [Bytes("NAK\n")], [Bytes(packBytes)] and [Flush], a new upload-pack
    response parser yields the chunks [Nak], [PackStream packBytes],
    [EndOfRequest] in this order, after which [Scan] returns false and
    [Err()] is nil. *)
Theorem upload_nak_pack_flush
    (packBytes : bytes) (s0 s1 s2 s3 : PacketScanner)
    (H1 : PacketScanner_Scan s0 = Ret (true, s1))
    (P1 : PacketScanner_Packet s1 = Some (BytesPacket (B "NAK" ++ [newline])))
    (H2 : PacketScanner_Scan s1 = Ret (true, s2))
    (P2 : PacketScanner_Packet s2 = Some (BytesPacket packBytes))
    (H3 : PacketScanner_Scan s2 = Ret (true, s3))
    (P3 : PacketScanner_Packet s3 = Some FlushPacket) :
  exists r',
    runs UploadResponse_Scan UploadResponse_Chunk
      (mkUploadResponse s0 UploadResponseBegin None None)
      [ Some (mkUploadResponseChunk [] [] false [] [] true [] None false);
        Some (mkUploadResponseChunk [] [] false [] [] false packBytes None false);
        Some (mkUploadResponseChunk [] [] false [] [] false [] None true) ]
      r' /\
    UploadResponse_Err r' = None.
Proof.
  eexists. split.
  - eapply runs_cons with
      (r1 := mkUploadResponse s1 UploadResponseScanPacks None
               (Some (mkUploadResponseChunk [] [] false [] [] true [] None false)));
      [|reflexivity|].
    { unfold UploadResponse_Scan. cbn [ur_err ur_state ur_scanner notnil orb].
      rewrite H1. cbn [bind negb]. rewrite P1. reflexivity. }
    eapply runs_cons with
      (r1 := mkUploadResponse s2 UploadResponseScanPacks None
               (Some (mkUploadResponseChunk [] [] false [] [] false packBytes None false)));
      [|reflexivity|].
    { unfold UploadResponse_Scan. cbn [ur_err ur_state ur_scanner notnil orb].
      rewrite H2. cbn [bind negb]. rewrite P2. reflexivity. }
    eapply runs_cons with
      (r1 := mkUploadResponse s3 UploadResponseEnd None
               (Some (mkUploadResponseChunk [] [] false [] [] false [] None true)));
      [|reflexivity|].
    { unfold UploadResponse_Scan. cbn [ur_err ur_state ur_scanner notnil orb].
      rewrite H3. cbn [bind negb]. rewrite P3. reflexivity. }
    apply runs_stop. reflexivity.
  - reflexivity.
Qed.

Lemma upload_nak_pack_flush_witness :
  exists r',
    runs UploadResponse_Scan UploadResponse_Chunk
      (NewUploadResponse (stream "0008NAK
0007abc0000"))
      [ Some (mkUploadResponseChunk [] [] false [] [] true [] None false);
        Some (mkUploadResponseChunk [] [] false [] [] false (B "abc") None false);
        Some (mkUploadResponseChunk [] [] false [] [] false [] None true) ]
      r' /\
    UploadResponse_Err r' = None.
Proof.
  refine (upload_nak_pack_flush (B "abc")
    (NewPacketScanner (stream "0008NAK
0007abc0000"))
    (after PacketScanner_Scan 1 (NewPacketScanner (stream "0008NAK
0007abc0000")))
    (after PacketScanner_Scan 2 (NewPacketScanner (stream "0008NAK
0007abc0000")))
    (after PacketScanner_Scan 3 (NewPacketScanner (stream "0008NAK
0007abc0000"))) _ _ _ _ _ _); vm_compute; reflexivity.
Defined.

(** ** The "ng" line of the receive-pack response *)

Lemma SplitN3_ng (rest : bytes) :
  SplitN (B "ng " ++ rest) 3 =
    B "ng" :: match cut_space rest with
              | Some (a, b) => [a; b]
              | None => [rest]
              end.
Proof.
  rewrite SplitN_S. cbn. destruct (cut_space rest) as [[a b]|]; reflexivity.
Qed.



(** ** The tokenizer's error in the upload-pack response parser *)

(** Whatever error stops the packet scanner, [UploadResponse.Scan] returns
    false and leaves [r.err] as it was: nil. *)
Lemma UploadResponse_Scan_tokenizer_error
    (r : UploadResponse) (sc : PacketScanner) (e : error) :
  ur_err r = None -> ur_state r <> UploadResponseEnd ->
  PacketScanner_Scan (ur_scanner r) = Ret (false, sc) ->
  PacketScanner_Err sc = Some e ->
  exists r', UploadResponse_Scan r = Ret (false, r') /\
    ur_scanner r' = sc /\ UploadResponse_Err r' = None.
Proof.
  intros Herr Hst Hscan He.
  unfold UploadResponse_Scan. rewrite Herr, Hscan. cbn [notnil bind negb orb].
  rewrite He. cbn [notnil negb].
  destruct (ur_state r); try contradiction; eexists; repeat split; assumption.
Qed.

(** The receive-pack response parser, in the same situation, reports the
    error of the packet scanner. *)
Lemma ReceiveResponse_Scan_tokenizer_error
    (r : ReceiveResponse) (sc : PacketScanner) (e : error) :
  rr_err r = None -> rr_state r <> ReceiveResponseEnd ->
  PacketScanner_Scan (rr_scanner r) = Ret (false, sc) ->
  PacketScanner_Err sc = Some e ->
  exists r', ReceiveResponse_Scan r = Ret (false, r') /\
    ReceiveResponse_Err r' = Some e.
Proof.
  intros Herr Hst Hscan He.
  unfold ReceiveResponse_Scan. rewrite Herr, Hscan. cbn [notnil bind negb orb].
  rewrite He. cbn [notnil negb andb].
  destruct (rr_state r); try contradiction; eexists; split; reflexivity.
Qed.

(** C2.  On the stream "0004" the packet scanner stops with
    [SyntaxError("unknown special packet: 0004")]; [UploadResponse.Scan]
    returns false, and [UploadResponse.Err()] is nil, not that error. *)
Theorem upload_scan_loses_tokenizer_error :
  exists r',
    UploadResponse_Scan (NewUploadResponse (stream "0004")) = Ret (false, r') /\
    PacketScanner_Err (ur_scanner r') =
      Some (SyntaxError (Text (B "unknown special packet: 0004"))) /\
    UploadResponse_Err r' = None.
Proof. eexists. split; [vm_compute; reflexivity|]. split; reflexivity. Qed.

(** ** Hexadecimal headers *)


Definition is_lower_hex (c : ascii) : bool :=
  let n := Z.of_nat (nat_of_ascii c) in
  ((48 <=? n) && (n <=? 57)) || ((97 <=? n) && (n <=? 102)).

Lemma digit_cases (d : Z) :
  0 <= d < 16 ->
  d = 0 \/ d = 1 \/ d = 2 \/ d = 3 \/ d = 4 \/ d = 5 \/ d = 6 \/ d = 7 \/
  d = 8 \/ d = 9 \/ d = 10 \/ d = 11 \/ d = 12 \/ d = 13 \/ d = 14 \/ d = 15.
Proof. lia. Qed.

Lemma hex_val_hex_digit (upper : bool) (d : Z) :
  0 <= d < 16 -> hex_val (hex_digit upper d) = Some d.
Proof.
  intros H. destruct upper;
    decompose [or] (digit_cases d H); subst; reflexivity.
Qed.


Lemma hex_digit_lower (d : Z) :
  0 <= d < 16 -> is_lower_hex (hex_digit false d) = true.
Proof.
  intros H. decompose [or] (digit_cases d H); subst; reflexivity.
Qed.

Lemma hex_fixed_length (upper : bool) (w : nat) (n : Z) :
  length (hex_fixed upper w n) = w.
Proof.
  revert n; induction w as [|w IH]; intros n; simpl; [reflexivity|].
  rewrite length_app, IH. simpl. lia.
Qed.

Lemma parse_hex_acc_snoc (acc : Z) (a : bytes) (c : ascii) :
  parse_hex_acc acc (a ++ [c]) =
    match parse_hex_acc acc a with
    | Some v => match hex_val c with
                | Some d => Some (v * 16 + d)
                | None => None
                end
    | None => None
    end.
Proof.
  revert acc; induction a as [|x a IH]; intros acc; simpl.
  - destruct (hex_val c); reflexivity.
  - destruct (hex_val x); [apply IH|reflexivity].
Qed.

Lemma parse_hex_fixed (upper : bool) (w : nat) (n : Z) :
  0 <= n ->
  parse_hex_acc 0 (hex_fixed upper w n) = Some (n mod 16 ^ Z.of_nat w).
Proof.
  revert n; induction w as [|w IH]; intros n Hn.
  - simpl. now rewrite Z.mod_1_r.
  - cbn [hex_fixed]. rewrite parse_hex_acc_snoc.
    rewrite IH by (apply Z.div_pos; lia).
    rewrite hex_val_hex_digit by (apply Z.mod_pos_bound; lia).
    f_equal.
    rewrite Nat2Z.inj_succ, Z.pow_succ_r by lia.
    rewrite Z.rem_mul_r by lia. lia.
Qed.


Lemma hex_fixed_lower (w : nat) (n : Z) :
  forallb is_lower_hex (hex_fixed false w n) = true.
Proof.
  revert n; induction w as [|w IH]; intros n; [reflexivity|].
  cbn [hex_fixed]. rewrite forallb_app, IH. cbn [forallb andb].
  rewrite hex_digit_lower by (apply Z.mod_pos_bound; lia). reflexivity.
Qed.

(** Below 65536 the header has exactly four digits ... *)
Lemma Sprintf_04x_small (upper : bool) (n : Z) :
  0 <= n < 65536 -> Sprintf_04x upper n = hex_fixed upper 4 n.
Proof.
  intros H. unfold Sprintf_04x, hex_width.
  destruct (n <=? 0) eqn:E; [reflexivity|].
  apply Z.leb_gt in E.
  assert (Hl : Z.log2 n < 16) by (apply Z.log2_lt_pow2; lia).
  assert (Hl0 : 0 <= Z.log2 n) by apply Z.log2_nonneg.
  assert (Hq : Z.log2 n / 4 <= 3) by (apply Z.lt_succ_r, Z.div_lt_upper_bound; lia).
  assert (Hq0 : 0 <= Z.log2 n / 4) by (apply Z.div_pos; lia).
  replace (Nat.max 4 (Z.to_nat (Z.log2 n / 4 + 1))) with 4%nat by lia.
  reflexivity.
Qed.


Lemma ParseUint16_Sprintf (upper : bool) (n : Z) :
  0 <= n < 65536 -> ParseUint16 (Sprintf_04x upper n) = Some n.
Proof.
  intros H. rewrite Sprintf_04x_small by assumption.
  unfold ParseUint16.
  destruct (hex_fixed upper 4 n) eqn:E.
  - apply (f_equal (@length ascii)) in E. rewrite hex_fixed_length in E. discriminate.
  - rewrite <- E, parse_hex_fixed by lia.
    f_equal. apply Z.mod_small. simpl. lia.
Qed.


(** ** The encoder of the error packet *)

Lemma len_app (a b : bytes) : len (a ++ b) = len a + len b.
Proof. unfold len. rewrite length_app. lia. Qed.

Lemma len_nonneg (a : bytes) : 0 <= len a.
Proof. unfold len. lia. Qed.






(** ** The tokenizer in framed mode *)

(** What the split function decides on the bytes [d] it is shown. *)
Inductive frame : Type :=
| NeedMore
| BadHeader (hd : bytes)
| Token (n : nat).

Definition next_frame (d : bytes) : frame :=
  if (length d <? 4)%nat then NeedMore
  else if HasPrefix d (B "PACK") then Token 4
  else match ParseUint16 (firstn 4 d) with
       | None => BadHeader (firstn 4 d)
       | Some sz =>
           if (sz =? 0) || (sz =? 1) then Token 4
           else if Z.of_nat (length d) <? sz then NeedMore
           else Token (Z.to_nat sz)
       end.

Lemma hex_val_bound (c : ascii) (d : Z) : hex_val c = Some d -> 0 <= d < 16.
Proof.
  unfold hex_val.
  set (n := Z.of_nat (nat_of_ascii c)).
  destruct ((48 <=? n) && (n <=? 57)) eqn:E1;
    [|destruct ((97 <=? n) && (n <=? 102)) eqn:E2;
      [|destruct ((65 <=? n) && (n <=? 70)) eqn:E3; [|discriminate]]];
    intros H; inversion H; subst; lia.
Qed.

Lemma parse_hex_acc_bound (s : bytes) (acc v : Z) :
  0 <= acc -> parse_hex_acc acc s = Some v ->
  0 <= v < (acc + 1) * 16 ^ Z.of_nat (length s).
Proof.
  revert acc; induction s as [|c s IH]; intros acc Ha H.
  - simpl in *. inversion H; subst. lia.
  - cbn [parse_hex_acc] in H.
    destruct (hex_val c) as [d|] eqn:E; [|discriminate].
    apply hex_val_bound in E.
    apply IH in H; [|lia].
    cbn [length]. rewrite Nat2Z.inj_succ, Z.pow_succ_r by lia.
    nia.
Qed.

Lemma ParseUint16_bound (s : bytes) (v : Z) :
  length s = 4%nat -> ParseUint16 s = Some v -> 0 <= v < 65536.
Proof.
  intros Hl H. unfold ParseUint16 in H.
  destruct s; [discriminate|].
  apply parse_hex_acc_bound in H; [|lia].
  rewrite Hl in H. simpl in H. lia.
Qed.

Lemma HasPrefix_firstn (d p : bytes) :
  HasPrefix (firstn (length p) d) p = HasPrefix d p.
Proof.
  revert d; induction p as [|c p IH]; intros d; [reflexivity|].
  destruct d as [|x d]; [reflexivity|].
  cbn [length firstn HasPrefix]. now rewrite IH.
Qed.

Lemma firstn_app_le {A : Type} (n : nat) (a b : list A) :
  (n <= length a)%nat -> firstn n (a ++ b) = firstn n a.
Proof.
  intros H. rewrite firstn_app.
  replace (n - length a)%nat with 0%nat by lia.
  simpl. apply app_nil_r.
Qed.

Lemma skipn_app_le {A : Type} (n : nat) (a b : list A) :
  (n <= length a)%nat -> skipn n (a ++ b) = skipn n a ++ b.
Proof.
  intros H. rewrite skipn_app.
  replace (n - length a)%nat with 0%nat by lia.
  reflexivity.
Qed.

(** A token never exceeds what the split function was shown, nor 65535
    bytes; it is at least 2 bytes long. *)
Lemma next_frame_Token (d : bytes) (n : nat) :
  next_frame d = Token n ->
  (2 <= n <= length d)%nat /\ (n < MaxScanTokenSize)%nat.
Proof.
  unfold next_frame, MaxScanTokenSize.
  destruct (length d <? 4)%nat eqn:E4; [discriminate|].
  apply Nat.ltb_ge in E4.
  destruct (HasPrefix d (B "PACK")); [intros H; inversion H; lia|].
  destruct (ParseUint16 (firstn 4 d)) as [sz|] eqn:Ep; [|discriminate].
  apply ParseUint16_bound in Ep; [|rewrite firstn_length_le; lia].
  destruct ((sz =? 0) || (sz =? 1)) eqn:E01; [intros H; inversion H; lia|].
  apply orb_false_iff in E01 as [E0 E1].
  apply Z.eqb_neq in E0, E1.
  destruct (Z.of_nat (length d) <? sz) eqn:El; [discriminate|].
  apply Z.ltb_ge in El.
  intros H; inversion H; subst. lia.
Qed.

Lemma next_frame_NeedMore (d : bytes) :
  next_frame d = NeedMore -> Z.of_nat (length d) < 65535.
Proof.
  unfold next_frame.
  destruct (length d <? 4)%nat eqn:E4; [apply Nat.ltb_lt in E4; lia|].
  apply Nat.ltb_ge in E4.
  destruct (HasPrefix d (B "PACK")); [discriminate|].
  destruct (ParseUint16 (firstn 4 d)) as [sz|] eqn:Ep; [|discriminate].
  apply ParseUint16_bound in Ep; [|rewrite firstn_length_le; lia].
  destruct ((sz =? 0) || (sz =? 1)); [discriminate|].
  destruct (Z.of_nat (length d) <? sz) eqn:El; [|discriminate].
  apply Z.ltb_lt in El. lia.
Qed.

(** Once the split function has decided, more input does not change its
    mind. *)
Lemma next_frame_app (d x : bytes) :
  next_frame d <> NeedMore -> next_frame (d ++ x) = next_frame d.
Proof.
  unfold next_frame.
  destruct (length d <? 4)%nat eqn:E4; [congruence|].
  apply Nat.ltb_ge in E4.
  replace (length (d ++ x) <? 4)%nat with false
    by (symmetry; apply Nat.ltb_ge; rewrite length_app; lia).
  rewrite <- (HasPrefix_firstn (d ++ x)), <- (HasPrefix_firstn d).
  change (length (B "PACK")) with 4%nat.
  rewrite (firstn_app_le 4 d x) by lia.
  destruct (HasPrefix (firstn 4 d) (B "PACK")); [reflexivity|].
  destruct (ParseUint16 (firstn 4 d)) as [sz|]; [|reflexivity].
  destruct ((sz =? 0) || (sz =? 1)); [reflexivity|].
  destruct (Z.of_nat (length d) <? sz) eqn:El; [congruence|].
  apply Z.ltb_ge in El.
  replace (Z.of_nat (length (d ++ x)) <? sz) with false
    by (symmetry; apply Z.ltb_ge; rewrite length_app; lia).
  reflexivity.
Qed.

(** *** The scanner's buffer *)

(** The bytes read and not yet consumed, [s.buf[s.start:s.end]], and the
    whole input still ahead of the scanner. *)
Definition sc_buffered (s : Scanner) : bytes :=
  firstn (sc_end s - sc_start s) (skipn (sc_start s) (sc_buf s)).

Definition sc_pending (s : Scanner) : bytes :=
  sc_buffered s ++ rd_data (sc_r s).

Definition sc_bounds (s : Scanner) : Prop :=
  (sc_start s <= sc_end s <= length (sc_buf s))%nat /\
  (length (sc_buf s) <= MaxScanTokenSize)%nat.

(** A scanner that has not met the end of its input. *)
Definition sc_live (s : Scanner) : Prop := sc_bounds s /\ sc_err s = None.

(** A scanner that has shut down at the end of its input. *)
Definition sc_dead (s : Scanner) : Prop :=
  sc_bounds s /\ sc_start s = O /\ sc_end s = O /\ sc_err s <> None.

Lemma sc_buffered_length (s : Scanner) :
  sc_bounds s -> length (sc_buffered s) = (sc_end s - sc_start s)%nat.
Proof.
  intros [H _]. unfold sc_buffered.
  rewrite firstn_length_le; [reflexivity|]. rewrite length_skipn. lia.
Qed.

Lemma firstn_skipn_swap {A : Type} (n m : nat) (l : list A) :
  firstn m (skipn n l) = skipn n (firstn (n + m) l).
Proof.
  revert l; induction n as [|n IH]; intros l; [reflexivity|].
  destruct l as [|x l]; [now rewrite firstn_nil|].
  cbn [skipn firstn Nat.add]. apply IH.
Qed.

Lemma nslice_lo_hi_0 (a : bytes) (k n : nat) :
  (n <= length a)%nat ->
  nslice_lo_hi (Some (mkSlice a k)) 0 n = Ret (mkSlice a n).
Proof.
  intros H. unfold nslice_lo_hi, slice_lo_hi, slice_cap. cbn [arr].
  replace (n <=? length a)%nat with true by (symmetry; apply Nat.leb_le; lia).
  cbn [Nat.leb andb skipn]. now rewrite Nat.sub_0_r.
Qed.

(** The split function in framed mode, on the buffer of [s]. *)
Lemma packetSplitFunc_framed (s : Scanner) (atEOF : bool) :
  sc_bounds s ->
  packetSplitFunc false (sc_data s) atEOF =
    match next_frame (sc_buffered s) with
    | NeedMore => Ret (O, None, None)
    | BadHeader hd => Ret (O, None, Some (strconv_NumError "ParseUint" hd))
    | Token n => Ret (n, Some (mkSlice (skipn (sc_start s) (sc_buf s)) n), None)
    end.
Proof.
  intros Hb. pose proof (sc_buffered_length s Hb) as Hlen.
  destruct Hb as [Hb _].
  unfold packetSplitFunc, sc_data.
  destruct (sc_buf s) as [|b0 buf] eqn:Ebuf.
  - simpl in Hb. unfold next_frame, sc_buffered. rewrite Ebuf.
    rewrite skipn_nil, firstn_nil. reflexivity.
  - rewrite <- Ebuf in *. clear Ebuf b0 buf.
    set (a := skipn (sc_start s) (sc_buf s)) in *.
    assert (Ha : (sc_end s - sc_start s <= length a)%nat)
      by (unfold a; rewrite length_skipn; lia).
    cbn [nlen slen nbytes].
    unfold next_frame. rewrite Hlen.
    destruct (sc_end s - sc_start s <? 4)%nat eqn:E4; [reflexivity|].
    apply Nat.ltb_ge in E4.
    assert (Hf4 : firstn 4 a = firstn 4 (sc_buffered s)).
    { unfold sc_buffered. fold a. rewrite firstn_firstn.
      now replace (Nat.min 4 (sc_end s - sc_start s)) with 4%nat by lia. }
    rewrite !nslice_lo_hi_0 by lia. cbn [bind]. unfold slice_bytes. cbn [arr slen].
    change (firstn (sc_end s - sc_start s) a) with (sc_buffered s).
    rewrite Hf4.
    destruct (HasPrefix (sc_buffered s) (B "PACK")); [reflexivity|].
    destruct (ParseUint16 (firstn 4 (sc_buffered s))) as [sz|]; [|reflexivity].
    destruct ((sz =? 0) || (sz =? 1)); [reflexivity|].
    destruct (Z.of_nat (sc_end s - sc_start s) <? sz) eqn:El; [reflexivity|].
    apply Z.ltb_ge in El.
    rewrite nslice_lo_hi_0 by lia. reflexivity.
Qed.

(** *** One iteration of [bufio.Scanner.Scan] *)

(** A token is in the buffer. *)
Lemma bufio_Scan_token_Token (s : Scanner) (n : nat) :
  sc_live s -> next_frame (sc_buffered s) = Token n ->
  bufio_Scan_token (packetSplitFunc false) s =
    Ret (inl (true,
         mkScanner (sc_r s) (sc_buf s) (sc_start s + n) (sc_end s) None
           (Some (mkSlice (skipn (sc_start s) (sc_buf s)) n)) 0)).
Proof.
  intros [Hb He] Hf.
  pose proof (sc_buffered_length s Hb) as Hlen.
  destruct (next_frame_Token _ _ Hf) as [Hn _]. rewrite Hlen in Hn.
  unfold bufio_Scan_token.
  replace (sc_start s <? sc_end s)%nat with true by (symmetry; apply Nat.ltb_lt; lia).
  cbn [orb]. rewrite packetSplitFunc_framed, Hf by assumption. cbn [bind].
  replace (sc_end s - sc_start s <? n)%nat with false
    by (symmetry; apply Nat.ltb_ge; lia).
  rewrite He. reflexivity.
Qed.

(** The header in the buffer is not hexadecimal. *)
Lemma bufio_Scan_token_BadHeader (s : Scanner) (hd : bytes) :
  sc_live s -> next_frame (sc_buffered s) = BadHeader hd ->
  bufio_Scan_token (packetSplitFunc false) s =
    Ret (inl (false,
         mkScanner (sc_r s) (sc_buf s) (sc_start s) (sc_end s)
           (Some (strconv_NumError "ParseUint" hd)) (sc_token s) (sc_empties s))).
Proof.
  intros [Hb He] Hf.
  pose proof (sc_buffered_length s Hb) as Hlen.
  assert (H4 : (4 <= sc_end s - sc_start s)%nat).
  { rewrite <- Hlen. unfold next_frame in Hf.
    destruct (length (sc_buffered s) <? 4)%nat eqn:E; [discriminate|].
    now apply Nat.ltb_ge in E. }
  unfold bufio_Scan_token.
  replace (sc_start s <? sc_end s)%nat with true by (symmetry; apply Nat.ltb_lt; lia).
  cbn [orb]. rewrite packetSplitFunc_framed, Hf by assumption. cbn [bind].
  unfold setErr. rewrite He. reflexivity.
Qed.

(** Two scanner states with the same reader, buffer and error. *)
Definition sc_same (s s0 : Scanner) : Prop :=
  sc_r s0 = sc_r s /\ sc_buf s0 = sc_buf s /\ sc_start s0 = sc_start s /\
  sc_end s0 = sc_end s /\ sc_err s0 = sc_err s.

Lemma sc_same_buffered (s s0 : Scanner) :
  sc_same s s0 -> sc_buffered s0 = sc_buffered s.
Proof.
  intros (_ & Hb & Hs & He & _). unfold sc_buffered. now rewrite Hb, Hs, He.
Qed.

Lemma sc_same_bounds (s s0 : Scanner) :
  sc_same s s0 -> sc_bounds s -> sc_bounds s0.
Proof.
  intros (_ & Hb & Hs & He & _). unfold sc_bounds. now rewrite Hb, Hs, He.
Qed.

(** The buffer does not hold a whole frame: the first half of the iteration
    changes at most the token. *)
Lemma bufio_Scan_token_NeedMore (s : Scanner) :
  sc_bounds s -> next_frame (sc_buffered s) = NeedMore ->
  exists s0,
    bufio_Scan_token (packetSplitFunc false) s = Ret (inr s0) /\ sc_same s s0.
Proof.
  intros Hb Hf. unfold bufio_Scan_token.
  destruct ((sc_start s <? sc_end s)%nat || notnil (sc_err s)).
  - rewrite packetSplitFunc_framed, Hf by assumption. cbn [bind].
    replace (sc_end s - sc_start s <? 0)%nat with false by reflexivity.
    eexists. split; [reflexivity|].
    unfold sc_same. cbn. rewrite Nat.add_0_r. repeat split.
  - exists s. split; [reflexivity|]. unfold sc_same. repeat split.
Qed.

Lemma read_loop_eq (k : nat) (s : Scanner) :
  read_loop k s =
    let '(bs, e, r') := Reader_Read (sc_r s) (length (sc_buf s) - sc_end s) in
    let n := length bs in
    let s1 := mkScanner r'
                (firstn (sc_end s) (sc_buf s) ++ bs ++ skipn (sc_end s + n) (sc_buf s))
                (sc_start s) (sc_end s + n) (sc_err s) (sc_token s) (sc_empties s) in
    match e with
    | Some err => setErr s1 err
    | None =>
        if (0 <? n)%nat then
          mkScanner (sc_r s1) (sc_buf s1) (sc_start s1) (sc_end s1) (sc_err s1)
                    (sc_token s1) 0
        else match k with
             | O => setErr s1 io_ErrNoProgress
             | S k' => read_loop k' s1
             end
    end.
Proof. destruct k; reflexivity. Qed.

(** Reading at the end of the input records the reader's error and leaves
    the buffer alone. *)
Lemma read_loop_eof (k : nat) (s : Scanner) :
  sc_bounds s -> sc_err s = None -> rd_data (sc_r s) = [] ->
  sc_bounds (read_loop k s) /\
  sc_err (read_loop k s) = Some (rd_err (sc_r s)) /\
  sc_buffered (read_loop k s) = sc_buffered s /\
  sc_r (read_loop k s) = sc_r s.
Proof.
  intros Hb He Hd. rewrite read_loop_eq. unfold Reader_Read. rewrite Hd.
  cbn [length app]. rewrite Nat.add_0_r, firstn_skipn.
  unfold setErr. cbn [sc_err]. rewrite He.
  unfold sc_bounds, sc_buffered. cbn. repeat split; apply Hb.
Qed.

(** Reading while input remains appends at least one byte to the buffer. *)
Lemma read_loop_data (k : nat) (s : Scanner) :
  sc_bounds s -> sc_err s = None ->
  (sc_end s < length (sc_buf s))%nat -> rd_data (sc_r s) <> [] ->
  sc_live (read_loop k s) /\
  sc_pending (read_loop k s) = sc_pending s /\
  (length (rd_data (sc_r (read_loop k s))) < length (rd_data (sc_r s)))%nat /\
  rd_err (sc_r (read_loop k s)) = rd_err (sc_r s).
Proof.
  intros [Hb Hm] He Hfree Hd. rewrite read_loop_eq. unfold Reader_Read.
  destruct (rd_data (sc_r s)) as [|x data] eqn:Ed; [contradiction|].
  rewrite <- Ed in *.
  set (c := (length (sc_buf s) - sc_end s)%nat).
  set (k0 := match rd_sched (sc_r s) with
             | [] => c
             | k1 :: _ => Nat.min c (S k1)
             end).
  assert (Hk0 : (1 <= k0 <= c)%nat).
  { unfold k0. destruct (rd_sched (sc_r s)); lia. }
  set (bs := firstn k0 (rd_data (sc_r s))).
  assert (Hbs : (1 <= length bs <= c)%nat).
  { unfold bs. rewrite length_firstn, Ed. cbn [length]. lia. }
  cbv zeta.
  replace (0 <? length bs)%nat with true by (symmetry; apply Nat.ltb_lt; lia).
  cbn [sc_r sc_buf sc_start sc_end sc_err sc_token].
  assert (Hlen : length (firstn (sc_end s) (sc_buf s) ++ bs ++
                          skipn (sc_end s + length bs) (sc_buf s)) =
                 length (sc_buf s)).
  { rewrite !length_app, length_firstn, length_skipn. lia. }
  repeat split.
  - cbn [sc_start sc_end sc_buf]. lia.
  - cbn [sc_start sc_end sc_buf]. lia.
  - cbn [sc_buf]. rewrite Hlen. assumption.
  - assumption.
  - unfold sc_pending, sc_buffered. cbn [sc_r sc_buf sc_start sc_end rd_data].
    rewrite skipn_app_le by (rewrite length_firstn; lia).
    replace (sc_end s + length bs - sc_start s)%nat
      with (length (skipn (sc_start s) (firstn (sc_end s) (sc_buf s))) + length bs)%nat
      by (rewrite length_skipn, length_firstn; lia).
    rewrite firstn_app_2.
    rewrite firstn_app_le by lia.
    rewrite firstn_all.
    rewrite <- app_assoc. unfold bs. rewrite firstn_skipn.
    f_equal. rewrite firstn_skipn_swap. f_equal. f_equal. lia.
  - cbn [sc_r rd_data]. rewrite length_skipn, Ed. cbn [length]. lia.
Qed.

(** Making room: when the buffer holds no whole frame, the second half of
    the iteration reads into a buffer with free space, after moving or
    copying the buffered bytes. *)
Lemma bufio_Scan_more_room (s : Scanner) :
  sc_live s -> next_frame (sc_buffered s) = NeedMore ->
  exists s1,
    bufio_Scan_more s = inr (read_loop maxConsecutiveEmptyReads s1) /\
    sc_bounds s1 /\ sc_err s1 = None /\
    (sc_end s1 < length (sc_buf s1))%nat /\
    sc_buffered s1 = sc_buffered s /\ sc_r s1 = sc_r s.
Proof.
  intros [Hb He] Hf.
  pose proof (sc_buffered_length s Hb) as Hlen.
  apply next_frame_NeedMore in Hf. rewrite Hlen in Hf.
  destruct Hb as [Hb Hm].
  unfold bufio_Scan_more. rewrite He.
  set (d := firstn (sc_end s - sc_start s) (skipn (sc_start s) (sc_buf s))).
  assert (Hd : length d = (sc_end s - sc_start s)%nat) by exact Hlen.
  (* the shift *)
  set (sa := if (0 <? sc_start s)%nat &&
                ((sc_end s =? length (sc_buf s))%nat ||
                 (length (sc_buf s) / 2 <? sc_start s)%nat)
             then mkScanner (sc_r s) (d ++ skipn (length d) (sc_buf s)) 0
                    (sc_end s - sc_start s) None (sc_token s) (sc_empties s)
             else s).
  assert (Hsa : (sc_start sa <= sc_end sa <= length (sc_buf sa))%nat /\
                length (sc_buf sa) = length (sc_buf s) /\
                sc_err sa = None /\ sc_r sa = sc_r s /\
                sc_buffered sa = sc_buffered s /\
                (sc_end sa = length (sc_buf sa) -> sc_start sa = O)).
  { unfold sa.
    destruct (0 <? sc_start s)%nat eqn:E0; cbn [andb].
    - apply Nat.ltb_lt in E0.
      destruct ((sc_end s =? length (sc_buf s))%nat ||
                (length (sc_buf s) / 2 <? sc_start s)%nat) eqn:E1.
      + cbn [sc_start sc_end sc_buf sc_err sc_r].
        assert (Hl : length (d ++ skipn (length d) (sc_buf s)) = length (sc_buf s))
          by (rewrite length_app, length_skipn; lia).
        rewrite Hl. repeat split; try lia; try assumption.
        change (sc_buffered s) with d.
        unfold sc_buffered. cbn [sc_start sc_end sc_buf skipn].
        rewrite Nat.sub_0_r, <- Hd, firstn_app_le, firstn_all by lia.
        reflexivity.
      + apply orb_false_iff in E1 as [E1 _]. apply Nat.eqb_neq in E1.
        repeat split; try lia; try assumption.
    - apply Nat.ltb_ge in E0.
      repeat split; try lia; try assumption. }
  clearbody sa. destruct Hsa as (Hba & Hla & Hea & Hra & Hda & Hfull).
  (* the resize *)
  unfold sc_buffered in Hda. fold d in Hda.
  destruct (sc_end sa =? length (sc_buf sa))%nat eqn:Efull.
  - apply Nat.eqb_eq in Efull. specialize (Hfull Efull).
    assert (Hd' : length d = length (sc_buf sa)).
    { rewrite <- Hda, length_firstn, length_skipn. lia. }
    unfold MaxScanTokenSize, startBufSize in *.
    replace (Z.to_nat 65536 <=? length (sc_buf sa))%nat with false
      by (symmetry; apply Nat.leb_gt; lia).
    eexists. split; [reflexivity|].
    cbn [sc_start sc_end sc_buf sc_err sc_r].
    rewrite Hda.
    set (newSize := Nat.min _ _).
    assert (Hns : (length d < newSize <= Z.to_nat 65536)%nat).
    { unfold newSize.
      destruct (length (sc_buf sa) * 2 =? 0)%nat eqn:Ez.
      - apply Nat.eqb_eq in Ez. lia.
      - apply Nat.eqb_neq in Ez. lia. }
    assert (Hl : length (d ++ repeat zero (newSize - length d)) = newSize)
      by (rewrite length_app, repeat_length; lia).
    unfold sc_bounds, sc_buffered, MaxScanTokenSize.
    cbn [sc_start sc_end sc_buf sc_err sc_r skipn]. rewrite Hl.
    repeat split; try lia; try assumption.
    fold d.
    replace (sc_end sa - sc_start sa - 0)%nat with (length d) by lia.
    rewrite firstn_app_le, firstn_all by lia. reflexivity.
  - apply Nat.eqb_neq in Efull.
    exists sa. split; [reflexivity|].
    unfold sc_bounds. repeat split; try lia; try assumption.
Qed.

(** At the end of the input, with no whole frame in the buffer, the scanner
    shuts down. *)
Lemma bufio_Scan_iter_eof (s : Scanner) (e : error) :
  sc_bounds s -> sc_err s = Some e -> next_frame (sc_buffered s) = NeedMore ->
  exists s',
    bufio_Scan_iter (packetSplitFunc false) s = Ret (inl (false, s')) /\
    sc_dead s' /\ sc_err s' = Some e /\ sc_r s' = sc_r s.
Proof.
  intros Hb He Hf. unfold bufio_Scan_iter.
  destruct (bufio_Scan_token_NeedMore s Hb Hf) as (s0 & Ht & Hs).
  rewrite Ht. cbn [bind]. unfold bufio_Scan_more.
  pose proof (sc_same_bounds _ _ Hs Hb) as [_ Hm].
  destruct Hs as (Hr & _ & _ & _ & He0). rewrite He0, He.
  eexists. split; [reflexivity|].
  unfold sc_dead, sc_bounds. cbn [sc_start sc_end sc_buf sc_err sc_r].
  repeat split; try lia; try assumption. discriminate.
Qed.

(** *** [bufio.Scanner.Scan] in framed mode

    What a call of [Scan] returns is decided by the input still ahead of the
    scanner, however the reader hands it out: the next frame when there is
    one, the conversion error of a header that is not hexadecimal, and the
    end of the scan (with the reader's error) when the input stops short of
    a frame. *)
Definition framed_result (s : Scanner) (res : go (bool * Scanner)) : Prop :=
  match next_frame (sc_pending s) with
  | Token n =>
      exists s' a,
        res = Ret (true, s') /\ sc_live s' /\
        sc_pending s' = skipn n (sc_pending s) /\
        rd_err (sc_r s') = rd_err (sc_r s) /\
        sc_token s' = Some (mkSlice a n) /\ (n <= length a)%nat /\
        firstn n a = firstn n (sc_pending s)
  | BadHeader hd =>
      exists s',
        res = Ret (false, s') /\
        sc_err s' = Some (strconv_NumError "ParseUint" hd)
  | NeedMore =>
      exists s',
        res = Ret (false, s') /\ sc_dead s' /\
        sc_err s' = Some (rd_err (sc_r s)) /\ rd_err (sc_r s') = rd_err (sc_r s) /\
        rd_data (sc_r s') = []
  end.

Lemma framed_result_BadHeader (s : Scanner) (hd : bytes) :
  sc_live s -> next_frame (sc_buffered s) = BadHeader hd ->
  framed_result s
    (Ret (false,
          mkScanner (sc_r s) (sc_buf s) (sc_start s) (sc_end s)
            (Some (strconv_NumError "ParseUint" hd)) (sc_token s) (sc_empties s))).
Proof.
  intros Hl Ef. unfold framed_result, sc_pending.
  rewrite next_frame_app, Ef by (rewrite Ef; discriminate).
  eexists. split; reflexivity.
Qed.

Lemma framed_result_Token (s : Scanner) (n : nat) :
  sc_live s -> next_frame (sc_buffered s) = Token n ->
  framed_result s
    (Ret (true,
          mkScanner (sc_r s) (sc_buf s) (sc_start s + n) (sc_end s) None
            (Some (mkSlice (skipn (sc_start s) (sc_buf s)) n)) 0)).
Proof.
  intros [Hb He] Ef.
  pose proof (sc_buffered_length s Hb) as Hlen.
  destruct (next_frame_Token _ _ Ef) as [Hn _]. rewrite Hlen in Hn.
  unfold framed_result, sc_pending.
  rewrite next_frame_app, Ef by (rewrite Ef; discriminate).
  destruct Hb as [Hb Hm].
  eexists. eexists. split; [reflexivity|].
  cbn [sc_r sc_token].
  split; [|split; [|split; [reflexivity|split; [reflexivity|split]]]].
  + unfold sc_live, sc_bounds. cbn [sc_start sc_end sc_buf sc_err].
    repeat split; try lia; assumption.
  + unfold sc_buffered at 1. cbn [sc_start sc_end sc_buf].
    rewrite skipn_app_le by lia. f_equal.
    unfold sc_buffered.
    replace (sc_end s - sc_start s)%nat
      with (n + (sc_end s - sc_start s - n))%nat by lia.
    rewrite <- firstn_skipn_swap, skipn_skipn.
    f_equal; [lia|f_equal; lia].
  + rewrite length_skipn. lia.
  + rewrite (firstn_app_le n (sc_buffered s)) by lia.
    unfold sc_buffered. rewrite firstn_firstn.
    f_equal. lia.
Qed.

(** The buffer holds no whole frame and the reader is at its end: two more
    iterations end the scan. *)
Lemma bufio_Scan_loop_eof (fuel : nat) (s : Scanner) :
  sc_live s -> next_frame (sc_buffered s) = NeedMore ->
  rd_data (sc_r s) = [] ->
  framed_result s (bufio_Scan_loop (S (S fuel)) (packetSplitFunc false) s).
Proof.
  intros Hl Ef Ed. pose proof Hl as [Hb He].
  cbn [bufio_Scan_loop]. unfold bufio_Scan_iter at 1.
  destruct (bufio_Scan_token_NeedMore s Hb Ef) as (s0 & Ht & Hs).
  rewrite Ht. cbn [bind].
  assert (Hl0 : sc_live s0).
  { split; [now apply (sc_same_bounds s)|]. destruct Hs as (_ & _ & _ & _ & E).
    now rewrite E. }
  pose proof (sc_same_buffered _ _ Hs) as Hd0.
  destruct Hs as (Hr0 & _).
  destruct (bufio_Scan_more_room s0 Hl0)
    as (s1 & Hm & Hb1 & He1 & Hfree & Hd1 & Hr1); [now rewrite Hd0|].
  rewrite Hm.
  destruct (read_loop_eof maxConsecutiveEmptyReads s1 Hb1 He1)
    as (Hb2 & He2 & Hd2 & Hr2); [now rewrite Hr1, Hr0|].
  destruct (bufio_Scan_iter_eof _ _ Hb2 He2) as (s3 & Hi & Hdead & He3 & Hr3);
    [now rewrite Hd2, Hd1, Hd0|].
  rewrite Hi. cbn [bind].
  unfold framed_result, sc_pending. rewrite Ed, app_nil_r, Ef.
  exists s3. split; [reflexivity|]. split; [assumption|].
  rewrite He3, Hr3, Hr2, Hr1, Hr0. repeat split. exact Ed.
Qed.

(** The buffer holds no whole frame and the reader has more: the iteration
    reads, and the input ahead is the same. *)
Lemma bufio_Scan_iter_more (s : Scanner) :
  sc_live s -> next_frame (sc_buffered s) = NeedMore ->
  rd_data (sc_r s) <> [] ->
  exists s2,
    bufio_Scan_iter (packetSplitFunc false) s = Ret (inr s2) /\
    sc_live s2 /\ sc_pending s2 = sc_pending s /\
    (length (rd_data (sc_r s2)) < length (rd_data (sc_r s)))%nat /\
    rd_err (sc_r s2) = rd_err (sc_r s).
Proof.
  intros Hl Ef Ed. pose proof Hl as [Hb He].
  unfold bufio_Scan_iter.
  destruct (bufio_Scan_token_NeedMore s Hb Ef) as (s0 & Ht & Hs).
  rewrite Ht. cbn [bind].
  assert (Hl0 : sc_live s0).
  { split; [now apply (sc_same_bounds s)|]. destruct Hs as (_ & _ & _ & _ & E).
    now rewrite E. }
  pose proof (sc_same_buffered _ _ Hs) as Hd0.
  destruct Hs as (Hr0 & _).
  destruct (bufio_Scan_more_room s0 Hl0)
    as (s1 & Hm & Hb1 & He1 & Hfree & Hd1 & Hr1); [now rewrite Hd0|].
  rewrite Hm.
  destruct (read_loop_data maxConsecutiveEmptyReads s1 Hb1 He1 Hfree)
    as (Hl2 & Hp2 & Hlt & Hre); [now rewrite Hr1, Hr0|].
  eexists. split; [reflexivity|].
  split; [assumption|].
  split; [rewrite Hp2; unfold sc_pending; now rewrite Hd1, Hr1, Hd0, Hr0|].
  split; [now rewrite Hr1, Hr0 in Hlt|now rewrite Hre, Hr1, Hr0].
Qed.

Lemma bufio_Scan_loop_framed (fuel : nat) (s : Scanner) :
  sc_live s -> (bufio_fuel s <= fuel)%nat ->
  framed_result s (bufio_Scan_loop fuel (packetSplitFunc false) s).
Proof.
  revert s; induction fuel as [|fuel IH]; intros s Hl Hfuel;
    [unfold bufio_fuel in Hfuel; lia|].
  destruct (next_frame (sc_buffered s)) as [|hd|n] eqn:Ef.
  - destruct (rd_data (sc_r s)) as [|x data] eqn:Ed.
    + destruct fuel as [|fuel]; [unfold bufio_fuel in Hfuel; lia|].
      now apply bufio_Scan_loop_eof.
    + destruct (bufio_Scan_iter_more s Hl Ef) as (s2 & Hi & Hl2 & Hp & Hlt & Hre);
        [rewrite Ed; discriminate|].
      cbn [bufio_Scan_loop]. rewrite Hi. cbn [bind].
      assert (Hf2 : (bufio_fuel s2 <= fuel)%nat)
        by (unfold bufio_fuel in *; lia).
      specialize (IH s2 Hl2 Hf2).
      unfold framed_result in *. rewrite Hp, Hre in IH. exact IH.
  - cbn [bufio_Scan_loop]. unfold bufio_Scan_iter.
    rewrite (bufio_Scan_token_BadHeader s hd Hl Ef). cbn [bind].
    apply framed_result_BadHeader; assumption.
  - cbn [bufio_Scan_loop]. unfold bufio_Scan_iter.
    rewrite (bufio_Scan_token_Token s n Hl Ef). cbn [bind].
    apply framed_result_Token; assumption.
Qed.

Lemma bufio_Scan_framed (s : Scanner) :
  sc_live s -> framed_result s (bufio_Scan (packetSplitFunc false) s).
Proof. intros H. apply bufio_Scan_loop_framed; [assumption|lia]. Qed.

(** A scanner that has shut down stays shut down. *)
Lemma bufio_Scan_dead (s : Scanner) :
  sc_dead s ->
  exists s', bufio_Scan (packetSplitFunc false) s = Ret (false, s') /\
    sc_dead s' /\ sc_err s' = sc_err s /\ sc_r s' = sc_r s.
Proof.
  intros (Hb & Hs & He & Herr).
  destruct (sc_err s) as [e|] eqn:E; [|contradiction].
  assert (Hf : next_frame (sc_buffered s) = NeedMore).
  { unfold sc_buffered. rewrite Hs, He. reflexivity. }
  destruct (bufio_Scan_iter_eof s e Hb E Hf) as (s' & Hi & Hd & He' & Hr).
  exists s'. unfold bufio_Scan, bufio_fuel. cbn [bufio_Scan_loop].
  rewrite Hi. cbn [bind]. split; [reflexivity|]. split; [assumption|].
  split; assumption.
Qed.

(** *** [PacketScanner.Scan] in framed mode *)

Lemma bytes_eqb_eq (a b : bytes) : bytes_eqb a b = true <-> a = b.
Proof.
  revert b; induction a as [|x a IH]; intros [|y b]; simpl; split;
    try discriminate; try reflexivity; intros H.
  - apply andb_true_iff in H as [Hx Ha]. apply Ascii.eqb_eq in Hx.
    apply IH in Ha. now subst.
  - inversion H; subst. rewrite Ascii.eqb_refl. now apply IH.
Qed.

Lemma bytes_eqb_length (a b : bytes) :
  length a <> length b -> bytes_eqb a b = false.
Proof.
  intros H. destruct (bytes_eqb a b) eqn:E; [|reflexivity].
  apply bytes_eqb_eq in E. now subst.
Qed.

Ltac finish := repeat first [assumption | reflexivity | split].

(** A packet scanner in framed mode that has met neither an error nor the
    end of its input, and the input still ahead of it. *)
Definition ps_framed (p : PacketScanner) : Prop :=
  ps_err p = None /\ packFileMode p = false /\ sc_live (scanner p).

Definition ps_pending (p : PacketScanner) : bytes := sc_pending (scanner p).

(** A packet scanner that has met the clean end of its input. *)
Definition ps_ended (p : PacketScanner) : Prop :=
  ps_err p = None /\ packFileMode p = false /\
  sc_dead (scanner p) /\ sc_err (scanner p) = Some io_EOF.

Lemma NewPacketScanner_framed (r : Reader) :
  ps_framed (NewPacketScanner r) /\ ps_pending (NewPacketScanner r) = rd_data r.
Proof.
  unfold ps_framed, ps_pending, sc_live, sc_bounds, sc_pending, sc_buffered.
  cbn. repeat split; lia.
Qed.

(** The frame ahead is whole: [Scan] goes on with the token, which holds
    exactly the first [n] bytes of the input ahead. *)
Lemma PacketScanner_Scan_Token (p : PacketScanner) (n : nat) :
  ps_framed p -> next_frame (ps_pending p) = Token n ->
  exists sc a,
    PacketScanner_Scan p = PacketScanner_Scan_bytes p sc /\
    sc_live sc /\ sc_pending sc = skipn n (ps_pending p) /\
    rd_err (sc_r sc) = rd_err (sc_r (scanner p)) /\
    sc_token sc = Some (mkSlice a n) /\ (n <= length a)%nat /\
    firstn n a = firstn n (ps_pending p).
Proof.
  intros (He & Hm & Hl) Hf.
  pose proof (bufio_Scan_framed _ Hl) as H.
  unfold framed_result in H. unfold ps_pending in Hf. rewrite Hf in H.
  destruct H as (sc & a & Hs & H).
  exists sc, a. split; [|exact H].
  unfold PacketScanner_Scan. rewrite He, Hm, Hs. reflexivity.
Qed.

Section Token.
Variable p : PacketScanner.
Variable n : nat.
Hypothesis Hp : ps_framed p.
Hypothesis Hf : next_frame (ps_pending p) = Token n.

(** The token: the first [n] bytes ahead. *)
Let tok : bytes := firstn n (ps_pending p).

Lemma tok_length : length tok = n.
Proof.
  destruct (next_frame_Token _ _ Hf) as [H _].
  unfold tok. rewrite firstn_length_le; lia.
Qed.

(** "0000" *)
Lemma PacketScanner_Scan_Flush :
  tok = B "0000" ->
  exists p', PacketScanner_Scan p = Ret (true, p') /\
    ps_curr p' = Some FlushPacket /\ ps_framed p' /\
    ps_pending p' = skipn n (ps_pending p) /\
    rd_err (sc_r (scanner p')) = rd_err (sc_r (scanner p)).
Proof.
  intros Ht.
  destruct (PacketScanner_Scan_Token p n Hp Hf)
    as (sc & a & Hs & Hl & Hpe & Hr & Htk & Hla & Ha).
  destruct Hp as (_ & Hm & _).
  rewrite Hs. unfold PacketScanner_Scan_bytes. rewrite Hm, Htk.
  unfold nbytes, slice_bytes; cbn [arr slen]. rewrite Ha. fold tok. rewrite Ht.
  eexists. split; [reflexivity|]. unfold ps_framed, ps_pending. finish.
Qed.

(** "0001" *)
Lemma PacketScanner_Scan_Delim :
  tok = B "0001" ->
  exists p', PacketScanner_Scan p = Ret (true, p') /\
    ps_curr p' = Some DelimPacket /\ ps_framed p' /\
    ps_pending p' = skipn n (ps_pending p) /\
    rd_err (sc_r (scanner p')) = rd_err (sc_r (scanner p)).
Proof.
  intros Ht.
  destruct (PacketScanner_Scan_Token p n Hp Hf)
    as (sc & a & Hs & Hl & Hpe & Hr & Htk & Hla & Ha).
  destruct Hp as (_ & Hm & _).
  rewrite Hs. unfold PacketScanner_Scan_bytes. rewrite Hm, Htk.
  unfold nbytes, slice_bytes; cbn [arr slen]. rewrite Ha. fold tok. rewrite Ht.
  eexists. split; [reflexivity|]. unfold ps_framed, ps_pending. finish.
Qed.

(** Any other token of four bytes but "PACK" *)
Lemma PacketScanner_Scan_unknown :
  n = 4%nat -> tok <> B "0000" -> tok <> B "0001" -> tok <> B "PACK" ->
  exists p', PacketScanner_Scan p = Ret (false, p') /\
    ps_err p' = Some (SyntaxError (Text (B "unknown special packet: " ++ tok))).
Proof.
  intros Hn H0 H1 HP.
  destruct (PacketScanner_Scan_Token p n Hp Hf)
    as (sc & a & Hs & Hl & Hpe & Hr & Htk & Hla & Ha).
  destruct Hp as (_ & Hm & _).
  rewrite Hs. unfold PacketScanner_Scan_bytes. rewrite Hm, Htk.
  unfold nbytes, nlen, slice_bytes; cbn [arr slen]. rewrite Ha. fold tok.
  destruct (bytes_eqb tok (B "0000")) eqn:E0; [now apply bytes_eqb_eq in E0|].
  destruct (bytes_eqb tok (B "0001")) eqn:E1; [now apply bytes_eqb_eq in E1|].
  destruct (bytes_eqb tok (B "PACK")) eqn:EP; [now apply bytes_eqb_eq in EP|].
  rewrite Hn. cbn [Nat.eqb].
  eexists. split; reflexivity.
Qed.

(** The bytes of the slices [bs[4:8]], [bs[8:]] and [bs[4:]] of a token of
    at least 8 bytes. *)
Lemma token_slices (a : bytes) :
  (8 <= n)%nat -> (n <= length a)%nat -> firstn n a = tok ->
  nslice_lo_hi (Some (mkSlice a n)) 4 8 = Ret (mkSlice (skipn 4 a) 4) /\
  firstn 4 (skipn 4 a) = firstn 4 (skipn 4 tok) /\
  nslice_lo (Some (mkSlice a n)) 8 = Ret (mkSlice (skipn 8 a) (n - 8)) /\
  firstn (n - 8) (skipn 8 a) = skipn 8 tok /\
  nslice_lo (Some (mkSlice a n)) 4 = Ret (mkSlice (skipn 4 a) (n - 4)) /\
  firstn (n - 4) (skipn 4 a) = skipn 4 tok.
Proof.
  intros H8 Hla Ha.
  unfold nslice_lo_hi, nslice_lo, slice_lo_hi, slice_lo, slice_cap.
  cbn [arr slen].
  replace (8 <=? length a)%nat with true by (symmetry; apply Nat.leb_le; lia).
  replace (8 <=? n)%nat with true by (symmetry; apply Nat.leb_le; lia).
  replace (4 <=? n)%nat with true by (symmetry; apply Nat.leb_le; lia).
  cbn [Nat.leb andb Nat.sub].
  repeat split.
  - rewrite <- Ha. rewrite !firstn_skipn_swap. f_equal.
    rewrite firstn_firstn. f_equal. lia.
  - rewrite <- Ha, firstn_skipn_swap. f_equal. f_equal. lia.
  - rewrite <- Ha, firstn_skipn_swap. f_equal. f_equal. lia.
Qed.

(** A frame whose payload starts with "ERR " *)
Lemma PacketScanner_Scan_ERR :
  (8 <= n)%nat -> firstn 4 (skipn 4 tok) = B "ERR " ->
  exists p', PacketScanner_Scan p = Ret (false, p') /\
    ps_err p' = Some (RemoteError (skipn 8 tok)).
Proof.
  intros H8 He.
  destruct (PacketScanner_Scan_Token p n Hp Hf)
    as (sc & a & Hs & Hl & Hpe & Hr & Htk & Hla & Ha).
  destruct Hp as (_ & Hm & _).
  rewrite Hs. unfold PacketScanner_Scan_bytes. rewrite Hm, Htk.
  unfold nbytes, nlen, slice_bytes; cbn [arr slen]. rewrite Ha. fold tok.
  pose proof tok_length as Htl.
  rewrite !bytes_eqb_length by (rewrite Htl; cbn; lia).
  replace (n =? 4)%nat with false by (symmetry; apply Nat.eqb_neq; lia).
  destruct (token_slices a H8 Hla Ha) as (S48 & B48 & S8 & B8 & _).
  rewrite S48. cbn [bind arr slen].
  rewrite B48, He.
  replace (bytes_eqb (B "ERR ") (B "ERR ")) with true by reflexivity.
  rewrite S8. cbn [bind arr slen]. rewrite B8.
  eexists. split; reflexivity.
Qed.

(** Any other frame of at least 8 bytes *)
Lemma PacketScanner_Scan_Bytes :
  (8 <= n)%nat -> firstn 4 (skipn 4 tok) <> B "ERR " ->
  exists p', PacketScanner_Scan p = Ret (true, p') /\
    ps_curr p' = Some (BytesPacket (skipn 4 tok)) /\ ps_framed p' /\
    ps_pending p' = skipn n (ps_pending p) /\
    rd_err (sc_r (scanner p')) = rd_err (sc_r (scanner p)).
Proof.
  intros H8 He.
  destruct (PacketScanner_Scan_Token p n Hp Hf)
    as (sc & a & Hs & Hl & Hpe & Hr & Htk & Hla & Ha).
  destruct Hp as (_ & Hm & _).
  rewrite Hs. unfold PacketScanner_Scan_bytes. rewrite Hm, Htk.
  unfold nbytes, nlen, slice_bytes; cbn [arr slen]. rewrite Ha. fold tok.
  pose proof tok_length as Htl.
  rewrite !bytes_eqb_length by (rewrite Htl; cbn; lia).
  replace (n =? 4)%nat with false by (symmetry; apply Nat.eqb_neq; lia).
  destruct (token_slices a H8 Hla Ha) as (S48 & B48 & _ & _ & S4 & B4).
  rewrite S48. cbn [bind arr slen].
  rewrite B48.
  destruct (bytes_eqb (firstn 4 (skipn 4 tok)) (B "ERR ")) eqn:E;
    [now apply bytes_eqb_eq in E|].
  rewrite S4. cbn [bind arr slen]. rewrite B4.
  eexists. split; [reflexivity|]. unfold ps_framed, ps_pending. finish.
Qed.
End Token.

(** The header ahead is not hexadecimal: [Err()] is the conversion error. *)
Lemma PacketScanner_Scan_BadHeader (p : PacketScanner) (hd : bytes) :
  ps_framed p -> next_frame (ps_pending p) = BadHeader hd ->
  exists p', PacketScanner_Scan p = Ret (false, p') /\
    ps_err p' = Some (strconv_NumError "ParseUint" hd).
Proof.
  intros (He & Hm & Hl) Hf.
  pose proof (bufio_Scan_framed _ Hl) as H.
  unfold framed_result in H. unfold ps_pending in Hf. rewrite Hf in H.
  destruct H as (sc & Hs & Hse).
  unfold PacketScanner_Scan. rewrite He, Hm, Hs. cbn [bind negb].
  unfold bufio_Err. rewrite Hse.
  eexists. split; reflexivity.
Qed.

(** The input stops short of a frame: [Scan] returns false, and [Err()] is
    the reader's error, nil for [io.EOF]. *)
Lemma PacketScanner_Scan_end (p : PacketScanner) :
  ps_framed p -> next_frame (ps_pending p) = NeedMore ->
  exists p', PacketScanner_Scan p = Ret (false, p') /\
    ps_curr p' = ps_curr p /\
    ps_err p' = match rd_err (sc_r (scanner p)) with
                | io_EOF => None
                | e => Some e
                end /\
    (rd_err (sc_r (scanner p)) = io_EOF -> ps_ended p').
Proof.
  intros (He & Hm & Hl) Hf.
  pose proof (bufio_Scan_framed _ Hl) as H.
  unfold framed_result in H. unfold ps_pending in Hf. rewrite Hf in H.
  destruct H as (sc & Hs & Hd & Hse & Hr & Hdata).
  unfold PacketScanner_Scan. rewrite He, Hm, Hs. cbn [bind negb].
  eexists. split; [reflexivity|]. cbn [ps_curr ps_err].
  unfold bufio_Err. rewrite Hse.
  split; [reflexivity|]. split.
  - destruct (rd_err (sc_r (scanner p))); reflexivity.
  - intros E. rewrite E in *. unfold ps_ended. cbn. finish.
Qed.

(** After the clean end of the input every [Scan] returns false, with no
    error. *)
Lemma PacketScanner_Scan_ended (p : PacketScanner) :
  ps_ended p ->
  exists p', PacketScanner_Scan p = Ret (false, p') /\
    ps_curr p' = ps_curr p /\ ps_ended p'.
Proof.
  intros (He & Hm & Hd & Hse).
  destruct (bufio_Scan_dead _ Hd) as (sc & Hs & Hd' & He' & _).
  unfold PacketScanner_Scan. rewrite He, Hm, Hs. cbn [bind negb].
  eexists. split; [reflexivity|]. split; [reflexivity|].
  unfold ps_ended, bufio_Err. cbn. rewrite He', Hse. finish.
Qed.

(** ** Remote errors *)

Lemma after_fixed {R : Type} (scan : R -> go (bool * R)) (r : R) (b : bool) :
  scan r = Ret (b, r) -> forall k, after scan k r = r.
Proof.
  intros H k; induction k as [|k IH]; [reflexivity|].
  cbn [after]. now rewrite H.
Qed.

(** C4.  In framed mode, whatever the input and however it is read: when
    the payload of the frame ahead starts with "ERR ", [Scan] returns false,
    [Err()] is the [ErrorPacket] whose message is the payload after these
    four bytes, and every later [Scan] returns false as well. *)
Theorem remote_error_packet
    (p : PacketScanner) (n : nat)
    (Hp : ps_framed p)
    (Hf : next_frame (ps_pending p) = Token n)
    (Herr : HasPrefix (skipn 4 (firstn n (ps_pending p))) (B "ERR ") = true) :
  exists p',
    PacketScanner_Scan p = Ret (false, p') /\
    PacketScanner_Err p' =
      Some (RemoteError (skipn 4 (skipn 4 (firstn n (ps_pending p))))) /\
    PacketScanner_Scan p' = Ret (false, p') /\
    forall k, after PacketScanner_Scan k p' = p'.
Proof.
  pose proof (tok_length p n Hf) as Htl.
  set (tok := firstn n (ps_pending p)) in *.
  apply HasPrefix_inv in Herr.
  assert (H8 : (8 <= n)%nat).
  { apply (f_equal (@length ascii)) in Herr.
    rewrite length_app, length_skipn in Herr. cbn [B length list_ascii_of_string] in Herr.
    lia. }
  assert (He : firstn 4 (skipn 4 tok) = B "ERR ").
  { rewrite Herr. reflexivity. }
  destruct (PacketScanner_Scan_ERR p n Hp Hf H8 He) as (p' & Hs & Hpe).
  assert (Hfix : PacketScanner_Scan p' = Ret (false, p')).
  { unfold PacketScanner_Scan. now rewrite Hpe. }
  exists p'. split; [assumption|]. split.
  - unfold PacketScanner_Err. rewrite Hpe. fold tok. now rewrite skipn_skipn.
  - split; [assumption|]. now apply after_fixed with false.
Qed.

Lemma remote_error_packet_witness :
  exists p',
    PacketScanner_Scan (NewPacketScanner (stream "0014ERR bad request
")) = Ret (false, p') /\
    PacketScanner_Err p' = Some (RemoteError (B "bad request
")) /\
    PacketScanner_Scan p' = Ret (false, p') /\
    forall k, after PacketScanner_Scan k p' = p'.
Proof.
  refine (remote_error_packet (NewPacketScanner (stream "0014ERR bad request
")) 20 _ _ _).
  - apply NewPacketScanner_framed.
  - vm_compute. reflexivity.
  - vm_compute. reflexivity.
Defined.

(** ** Tokens that are no packet *)

(** What the claim says of the input "zzzz": [Scan] returns false and
    [Err()] is a [SyntaxError]. *)
Definition bad_header_is_SyntaxError (input : string) : Prop :=
  exists p' m,
    PacketScanner_Scan (NewPacketScanner (stream input)) = Ret (false, p') /\
    PacketScanner_Err p' = Some (SyntaxError m).

(** On "zzzz" [Err()] is the error of [strconv.ParseUint], which the split
    function returns as it is. *)
Lemma bad_header_counterexample : ~ bad_header_is_SyntaxError "zzzz".
Proof.
  intros (p' & m & Hs & He).
  vm_compute in Hs. inversion Hs; subst p'. discriminate He.
Qed.

(** C5, amended.  In framed mode, whatever the input and however it is read:
    when the next four bytes are hexadecimal digits of value 4 (the only
    four-byte token that is none of "0000", "0001" and "PACK"), [Scan]
    returns false and [Err()] is the [SyntaxError] "unknown special packet: "
    followed by the token; when they are neither "PACK" nor hexadecimal,
    [Scan] returns false and [Err()] is the [NumError] of
    [strconv.ParseUint] for these four bytes. *)
Theorem unknown_special_packet
    (p : PacketScanner) (Hp : ps_framed p)
    (H4 : (4 <= length (ps_pending p))%nat)
    (HPACK : HasPrefix (ps_pending p) (B "PACK") = false) :
  (ParseUint16 (firstn 4 (ps_pending p)) = Some 4 ->
   exists p',
     PacketScanner_Scan p = Ret (false, p') /\
     PacketScanner_Err p' =
       Some (SyntaxError
               (Text (B "unknown special packet: " ++ firstn 4 (ps_pending p))))) /\
  (ParseUint16 (firstn 4 (ps_pending p)) = None ->
   exists p',
     PacketScanner_Scan p = Ret (false, p') /\
     PacketScanner_Err p' =
       Some (strconv_NumError "ParseUint" (firstn 4 (ps_pending p)))).
Proof.
  assert (Hnf : next_frame (ps_pending p) =
                match ParseUint16 (firstn 4 (ps_pending p)) with
                | None => BadHeader (firstn 4 (ps_pending p))
                | Some sz =>
                    if (sz =? 0) || (sz =? 1) then Token 4
                    else if Z.of_nat (length (ps_pending p)) <? sz then NeedMore
                    else Token (Z.to_nat sz)
                end).
  { unfold next_frame.
    replace (length (ps_pending p) <? 4)%nat with false
      by (symmetry; apply Nat.ltb_ge; lia).
    now rewrite HPACK. }
  split; intros Hparse; rewrite Hparse in Hnf.
  - replace (Z.of_nat (length (ps_pending p)) <? 4) with false in Hnf
      by (symmetry; apply Z.ltb_ge; lia).
    cbn in Hnf.
    apply (PacketScanner_Scan_unknown p 4 Hp Hnf); [reflexivity| | |];
      intros E; rewrite E in *; try discriminate.
  - now apply PacketScanner_Scan_BadHeader.
Qed.

Lemma unknown_special_packet_witness :
  (exists p',
     PacketScanner_Scan (NewPacketScanner (stream "0004")) = Ret (false, p') /\
     PacketScanner_Err p' =
       Some (SyntaxError (Text (B "unknown special packet: 0004")))) /\
  (exists p',
     PacketScanner_Scan (NewPacketScanner (stream "zzzz")) = Ret (false, p') /\
     PacketScanner_Err p' = Some (strconv_NumError "ParseUint" (B "zzzz"))).
Proof.
  split.
  - refine (proj1 (unknown_special_packet (NewPacketScanner (stream "0004"))
                     _ _ _) _).
    + apply NewPacketScanner_framed.
    + vm_compute. lia.
    + vm_compute. reflexivity.
    + vm_compute. reflexivity.
  - refine (proj2 (unknown_special_packet (NewPacketScanner (stream "zzzz"))
                     _ _ _) _).
    + apply NewPacketScanner_framed.
    + vm_compute. lia.
    + vm_compute. reflexivity.
    + vm_compute. reflexivity.
Defined.

(** ** Short frames *)

(** C10.  On the input "0002" the split function delivers the two-byte token
    "00", and [Scan] aborts on [bs[4:]]; on the input "0005a" it delivers
    the five-byte token "0005a", and [bs[4:8]] is the byte "a" followed by
    three bytes of the buffer past the end of the token. *)
Theorem short_frames_escape_the_token :
  (exists sc,
     bufio_Scan (packetSplitFunc false) (bufio_NewScanner (stream "0002"))
       = Ret (true, sc) /\
     nbytes (sc_token sc) = B "00" /\
     PacketScanner_Scan (NewPacketScanner (stream "0002"))
       = Panic "slice bounds out of range") /\
  (exists sc b48,
     bufio_Scan (packetSplitFunc false) (bufio_NewScanner (stream "0005a"))
       = Ret (true, sc) /\
     nbytes (sc_token sc) = B "0005a" /\
     nslice_lo_hi (sc_token sc) 4 8 = Ret b48 /\
     slice_bytes b48 = ["a"%char; zero; zero; zero]).
Proof.
  split.
  - eexists. split; [vm_compute; reflexivity|]. split; vm_compute; reflexivity.
  - eexists. eexists. split; [vm_compute; reflexivity|].
    split; [vm_compute; reflexivity|]. split; vm_compute; reflexivity.
Qed.

(** ** Round trips: decode, encode, decode *)

(** *** The frames of encoded chunks *)

(** The packet a chunk is written as: [wire enc q] when [enc], the result of
    the chunk's [EncodeToPktLine], is the flush packet, the delim packet, or
    a frame with at least four bytes of payload that does not start with
    "ERR ". *)
Definition wire (enc : go bytes) (q : Packet) : Prop :=
  match q with
  | FlushPacket => enc = Ret (B "0000")
  | DelimPacket => enc = Ret (B "0001")
  | BytesPacket b =>
      enc = BytesPacket_EncodeToPktLine b /\ (4 <= length b)%nat /\
      firstn 4 b <> B "ERR "
  | _ => False
  end.

Lemma hex_digit_not_P (d : Z) :
  0 <= d < 16 -> Ascii.eqb (hex_digit false d) "P"%char = false.
Proof.
  intros H. decompose [or] (digit_cases d H); subst; reflexivity.
Qed.

Lemma hex_fixed_4 (upper : bool) (n : Z) :
  hex_fixed upper 4 n =
    [hex_digit upper (n / 16 / 16 / 16 mod 16); hex_digit upper (n / 16 / 16 mod 16);
     hex_digit upper (n / 16 mod 16); hex_digit upper (n mod 16)].
Proof. reflexivity. Qed.

(** The frame of a payload of 4 to 65531 bytes is one token. *)
Lemma next_frame_encoded (b enc : bytes) :
  BytesPacket_EncodeToPktLine b = Ret enc -> (4 <= length b)%nat ->
  next_frame enc = Token (4 + length b) /\
  enc = firstn 4 enc ++ b /\ length enc = (4 + length b)%nat.
Proof.
  unfold BytesPacket_EncodeToPktLine, len.
  destruct (Z.of_nat (length b) >? 65535 - 4) eqn:E; [discriminate|].
  rewrite Z.gtb_ltb in E. apply Z.ltb_ge in E.
  intros H H4. inversion H as [He]; clear H.
  rewrite Sprintf_04x_small by lia.
  set (n := Z.of_nat (length b) + 4).
  assert (Hl : length (hex_fixed false 4 n ++ b) = (4 + length b)%nat)
    by (rewrite length_app, hex_fixed_length; reflexivity).
  assert (Hf : firstn 4 (hex_fixed false 4 n ++ b) = hex_fixed false 4 n).
  { rewrite firstn_app_le by (rewrite hex_fixed_length; lia).
    apply firstn_all2. rewrite hex_fixed_length. lia. }
  split; [|split; [now rewrite Hf|assumption]].
  unfold next_frame. rewrite Hl, Hf.
  replace (4 + length b <? 4)%nat with false by (symmetry; apply Nat.ltb_ge; lia).
  replace (HasPrefix (hex_fixed false 4 n ++ b) (B "PACK")) with false.
  2:{ rewrite hex_fixed_4. cbn [app HasPrefix B list_ascii_of_string].
      rewrite hex_digit_not_P by (apply Z.mod_pos_bound; lia). reflexivity. }
  rewrite <- (Sprintf_04x_small false n) by lia.
  rewrite ParseUint16_Sprintf by lia.
  replace ((n =? 0) || (n =? 1)) with false
    by (symmetry; apply orb_false_iff; split; apply Z.eqb_neq; lia).
  replace (Z.of_nat (4 + length b) <? n) with false
    by (symmetry; apply Z.ltb_ge; lia).
  f_equal. lia.
Qed.

(** Scanning the frame a chunk was written as gives its packet back,
    whatever follows and however the reader hands the bytes out. *)
Lemma PacketScanner_Scan_wire (p : PacketScanner) (q : Packet) (enc rest : bytes) :
  ps_framed p -> wire (Ret enc) q -> ps_pending p = enc ++ rest ->
  exists p',
    PacketScanner_Scan p = Ret (true, p') /\ ps_curr p' = Some q /\
    ps_framed p' /\ ps_pending p' = rest /\
    rd_err (sc_r (scanner p')) = rd_err (sc_r (scanner p)).
Proof.
  intros Hp Hw Hpe.
  destruct q as [| |b| | |]; cbn [wire] in Hw; try contradiction.
  - inversion Hw; subst enc.
    assert (Hf : next_frame (ps_pending p) = Token 4)
      by (rewrite Hpe, next_frame_app; [reflexivity|discriminate]).
    destruct (PacketScanner_Scan_Flush p 4 Hp Hf) as (p' & H); [now rewrite Hpe|].
    exists p'. now rewrite Hpe in H.
  - inversion Hw; subst enc.
    assert (Hf : next_frame (ps_pending p) = Token 4)
      by (rewrite Hpe, next_frame_app; [reflexivity|discriminate]).
    destruct (PacketScanner_Scan_Delim p 4 Hp Hf) as (p' & H); [now rewrite Hpe|].
    exists p'. now rewrite Hpe in H.
  - destruct Hw as (He & H4 & Herr). symmetry in He.
    destruct (next_frame_encoded b enc He H4) as (Hnf & Henc & Hl).
    assert (Hf : next_frame (ps_pending p) = Token (4 + length b))
      by (rewrite Hpe, next_frame_app; [assumption|rewrite Hnf; discriminate]).
    assert (Htok : firstn (4 + length b) (ps_pending p) = enc).
    { rewrite Hpe, firstn_app_le by lia. apply firstn_all2. lia. }
    assert (Hpay : skipn 4 enc = b).
    { rewrite Henc at 1. rewrite skipn_app_le by (rewrite length_firstn; lia).
      rewrite skipn_all2 by (rewrite length_firstn; lia). reflexivity. }
    destruct (PacketScanner_Scan_Bytes p (4 + length b) Hp Hf) as (p' & H).
    + lia.
    + now rewrite Htok, Hpay.
    + rewrite Htok, Hpay in H. exists p'.
      destruct H as (H1 & H2 & H3 & H4' & H5).
      repeat split; try assumption; try apply H3.
      rewrite H4', Hpe, skipn_app_le by lia.
      rewrite skipn_all2 by lia. reflexivity.
Qed.

(** *** Encoding a run *)

(** The bytes written for the chunks of a run: each chunk's
    [EncodeToPktLine], in order.  Encoding a nil chunk aborts. *)
Fixpoint encode_all {C : Type} (encode : C -> go bytes) (cs : list (option C))
  : go bytes :=
  match cs with
  | [] => Ret []
  | None :: _ => Panic "invalid memory address or nil pointer dereference"
  | Some c :: cs' =>
      enc <- encode c ;;
      rest <- encode_all encode cs' ;;
      Ret (enc ++ rest)
  end.

(** *** The round trip of a parser, from the round trip of its steps *)

Section RoundTrip.
Context {R St C : Type}.
Variable scan : R -> go (bool * R).
Variable chunk : R -> option C.
Variable err : R -> option error.
Variable st : R -> St.
Variable tokenizer : R -> PacketScanner.
Variable encode : C -> go bytes.
(** What is asked of a chunk, and of the parser at the end of the run. *)
Variable wf : C -> Prop.
Variable good : R -> Prop.

(** In state [s] the parser turns the packet [q] into the chunk [c] and
    moves to the state [s']. *)
Definition accepts (s : St) (q : Packet) (s' : St) (c : C) : Prop :=
  forall r2 p2,
    st r2 = s -> err r2 = None ->
    PacketScanner_Scan (tokenizer r2) = Ret (true, p2) -> ps_curr p2 = Some q ->
    exists r2',
      scan r2 = Ret (true, r2') /\ st r2' = s' /\ err r2' = None /\
      chunk r2' = Some c /\ tokenizer r2' = p2.

(** In state [s] the parser ends without error when the packet scanner
    ends without error. *)
Definition halts (s : St) : Prop :=
  forall r2 p2,
    st r2 = s -> err r2 = None ->
    PacketScanner_Scan (tokenizer r2) = Ret (false, p2) -> ps_err p2 = None ->
    exists r2', scan r2 = Ret (false, r2') /\ err r2' = None.

Hypothesis good_back : forall r b r1, scan r = Ret (b, r1) -> good r1 -> good r.

Hypothesis step_round_trip :
  forall r r1 c,
    err r = None -> scan r = Ret (true, r1) -> good r1 ->
    chunk r1 = Some c -> wf c -> (exists enc, encode c = Ret enc) ->
    err r1 = None /\
    exists q, wire (encode c) q /\ accepts (st r) q (st r1) c.

Hypothesis stop_round_trip :
  forall r r',
    err r = None -> scan r = Ret (false, r') -> err r' = None -> good r' ->
    halts (st r).

Lemma runs_good (r : R) (cs : list (option C)) (r' : R) :
  runs scan chunk r cs r' -> good r' -> good r.
Proof.
  induction 1 as [r r' H|r r1 cs r' H _ IH]; intros Hg.
  - now apply good_back with false r'.
  - apply good_back with true r1; [assumption|now apply IH].
Qed.

(** A run that ends without error, re-encoded chunk by chunk and read again
    from a new reader that holds exactly these bytes, gives the same chunks
    and ends without error. *)
Lemma runs_round_trip (r : R) (cs : list (option C)) (r' : R) :
  runs scan chunk r cs r' ->
  err r = None -> err r' = None -> good r' ->
  Forall (fun oc => exists c, oc = Some c /\ wf c) cs ->
  forall (bs : bytes) (r2 : R),
    encode_all encode cs = Ret bs ->
    st r2 = st r -> err r2 = None ->
    ps_framed (tokenizer r2) -> ps_pending (tokenizer r2) = bs ->
    rd_err (sc_r (scanner (tokenizer r2))) = io_EOF ->
    exists r2', runs scan chunk r2 cs r2' /\ err r2' = None.
Proof.
  induction 1 as [r r' H|r r1 cs r' H Hruns IH];
    intros He He' Hg Hwf bs r2 Henc Hst He2 Hfr Hpe Heof.
  - (* the end of the run *)
    cbn in Henc. inversion Henc as [Hbs]. rewrite <- Hbs in Hpe.
    assert (Hnf : next_frame (ps_pending (tokenizer r2)) = NeedMore)
      by now rewrite Hpe.
    destruct (PacketScanner_Scan_end _ Hfr Hnf) as (p2 & Hs & _ & Hpe2 & _).
    rewrite Heof in Hpe2.
    destruct (stop_round_trip r r' He H He' Hg r2 p2 Hst He2 Hs Hpe2)
      as (r2' & Hs2 & He2').
    exists r2'. split; [now apply runs_stop|assumption].
  - (* one more chunk *)
    apply Forall_cons_iff in Hwf as [(c & Hc & Hwc) Hwf'].
    pose proof (runs_good _ _ _ Hruns Hg) as Hg1.
    rewrite Hc in Henc. cbn [encode_all] in Henc.
    destruct (encode c) as [enc|] eqn:Ee; [|discriminate].
    destruct (step_round_trip r r1 c He H Hg1 Hc Hwc) as (He1 & q & Hw & Hacc);
      [now exists enc|].
    rewrite Ee in Hw.
    cbn [bind] in Henc.
    destruct (encode_all encode cs) as [rest|] eqn:Er; [|discriminate].
    cbn [bind] in Henc. inversion Henc as [Hbs]. rewrite <- Hbs in Hpe.
    destruct (PacketScanner_Scan_wire _ q enc rest Hfr Hw Hpe)
      as (p2 & Hs & Hq & Hfr2 & Hpe2 & Hr2).
    destruct (Hacc r2 p2 Hst He2 Hs Hq) as (r2' & Hs2 & Hst2 & He2' & Hc2 & Ht2).
    destruct (IH He1 He' Hg Hwf' rest r2' eq_refl Hst2 He2')
      as (r2'' & Hruns2 & He2''); try (rewrite Ht2; assumption).
    { rewrite Ht2, Hr2. assumption. }
    exists r2''. split; [|assumption].
    rewrite Hc, <- Hc2. now apply runs_step.
Qed.
End RoundTrip.

(** *** The receive-pack response *)

Lemma SplitN2_unpack (rest : bytes) :
  SplitN (B "unpack " ++ rest) 2 = [B "unpack"; rest].
Proof. now rewrite SplitN_S. Qed.

Lemma SplitN2_ok (rest : bytes) :
  SplitN (B "ok " ++ rest) 2 = [B "ok"; rest].
Proof. now rewrite SplitN_S. Qed.

Lemma nonempty_true (s : bytes) : nonempty s = true <-> s <> [].
Proof. destruct s; split; intros H; try reflexivity; try discriminate; now contradiction H. Qed.

Lemma HasPrefix_split (p s : bytes) :
  HasPrefix s p = true -> exists rest, s = p ++ rest.
Proof. intros H. eexists. now apply HasPrefix_inv. Qed.

(** [Scan] returns true only through the [switch]. *)
Lemma ReceiveResponse_Scan_true (r r1 : ReceiveResponse) :
  ReceiveResponse_Scan r = Ret (true, r1) ->
  exists sc,
    PacketScanner_Scan (rr_scanner r) = Ret (true, sc) /\
    ReceiveResponse_switch sc (rr_state r) (rr_curr r) (ps_curr sc) = Ret (true, r1).
Proof.
  unfold ReceiveResponse_Scan.
  destruct (notnil (rr_err r) || _); [discriminate|].
  destruct (PacketScanner_Scan (rr_scanner r)) as [[ok sc]|]; [|discriminate].
  cbn [bind]. destruct ok; [|discriminate]. cbn [negb].
  intros H. now exists sc.
Qed.

Lemma ReceiveResponse_Scan_switch (r : ReceiveResponse) (sc : PacketScanner) :
  rr_err r = None -> rr_state r <> ReceiveResponseEnd ->
  PacketScanner_Scan (rr_scanner r) = Ret (true, sc) ->
  ReceiveResponse_Scan r =
    ReceiveResponse_switch sc (rr_state r) (rr_curr r) (ps_curr sc).
Proof.
  intros He Hs H. unfold ReceiveResponse_Scan. rewrite He, H.
  destruct (rr_state r); try contradiction; reflexivity.
Qed.

(** What is asked of a chunk of the receive-pack response: an "ng" line
    carries a message. *)
Definition receive_wf (c : ReceiveResponseChunk) : Prop :=
  RefUpdateStatus c = B "ng" -> RefUpdateFailMessage c <> [].

(** A packet the [switch] turns into a chunk, and the packet this chunk is
    written as, lead to the same chunk and state. *)
Lemma ReceiveResponse_switch_round_trip
    (sc : PacketScanner) (s : ReceiveResponseState)
    (curr : option ReceiveResponseChunk) (pkt : option Packet)
    (r1 : ReceiveResponse) (c : ReceiveResponseChunk) :
  ReceiveResponse_switch sc s curr pkt = Ret (true, r1) ->
  rr_curr r1 = Some c -> receive_wf c ->
  (exists enc, ReceiveResponseChunk_EncodeToPktLine c = Ret enc) ->
  rr_err r1 = None /\
  exists q,
    wire (ReceiveResponseChunk_EncodeToPktLine c) q /\
    forall sc' curr',
      ReceiveResponse_switch sc' s curr' (Some q) =
        Ret (true, mkReceiveResponse sc' (rr_state r1) None (Some c)).
Proof.
  intros Hsw Hc Hwf (enc & Henc).
  destruct s; cbn [ReceiveResponse_switch] in Hsw; [| |discriminate].
  - (* Begin *)
    destruct pkt as [[| |bp| | |]|]; try discriminate.
    remember (TrimSuffix_nl bp) as s eqn:Hs.
    destruct (HasPrefix s (B "unpack ")) eqn:Hp; [|discriminate].
    cbn [negb] in Hsw. apply HasPrefix_split in Hp as [rest Hp].
    rewrite Hp, SplitN2_unpack in Hsw. cbn in Hsw.
    inversion Hsw; subst r1. cbn in Hc. inversion Hc; subst c. clear Hsw Hc.
    split; [reflexivity|].
    destruct rest as [|x rest]; [cbn in Henc; discriminate|].
    exists (BytesPacket (B "unpack " ++ (x :: rest) ++ [newline])).
    split.
    + cbn [wire]. split; [reflexivity|]. split; [rewrite !length_app; cbn; lia|discriminate].
    + intros sc' curr'. cbn [ReceiveResponse_switch].
      rewrite app_assoc, TrimSuffix_nl_snoc, HasPrefix_app. cbn [negb].
      rewrite SplitN2_unpack. reflexivity.
  - (* ScanResult *)
    destruct pkt as [[| |bp| | |]|]; try discriminate.
    + (* Flush *)
      inversion Hsw; subst r1. cbn in Hc. inversion Hc; subst c. clear Hsw Hc.
      split; [reflexivity|].
      exists FlushPacket. split; [reflexivity|]. intros; reflexivity.
    + remember (TrimSuffix_nl bp) as s eqn:Hs.
      destruct (HasPrefix s (B "ok ")) eqn:Hok.
      * (* ok *)
        apply HasPrefix_split in Hok as [rest Hok].
        rewrite Hok, SplitN2_ok in Hsw. cbn in Hsw.
        inversion Hsw; subst r1. cbn in Hc. inversion Hc; subst c. clear Hsw Hc.
        split; [reflexivity|].
        exists (BytesPacket (B "ok " ++ rest ++ [newline])).
        split.
        -- cbn [wire]. split; [reflexivity|]. split; [rewrite !length_app; cbn; lia|discriminate].
        -- intros sc' curr'. cbn [ReceiveResponse_switch].
           rewrite app_assoc, TrimSuffix_nl_snoc, HasPrefix_app.
           rewrite SplitN2_ok. reflexivity.
      * destruct (HasPrefix s (B "ng ")) eqn:Hng; [|discriminate].
        (* ng *)
        apply HasPrefix_split in Hng as [rest Hng].
        rewrite Hng, SplitN3_ng in Hsw.
        destruct (cut_space rest) as [[a b]|] eqn:Ec; [|discriminate].
        cbn in Hsw.
        inversion Hsw; subst r1. cbn in Hc. inversion Hc; subst c. clear Hsw Hc.
        split; [reflexivity|].
        apply cut_space_Some in Ec as [_ Hns].
        unfold receive_wf in Hwf. cbn in Hwf. specialize (Hwf eq_refl).
        destruct b as [|y b]; [contradiction|].
        exists (BytesPacket (B "ng " ++ (a ++ space :: y :: b) ++ [newline])).
        split.
        -- cbn [wire]. split.
           ++ unfold ReceiveResponseChunk_EncodeToPktLine. cbn.
              rewrite <- !app_assoc. reflexivity.
           ++ split; [rewrite !length_app; cbn; lia|discriminate].
        -- intros sc' curr'. cbn [ReceiveResponse_switch].
           rewrite app_assoc, TrimSuffix_nl_snoc.
           replace (HasPrefix (B "ng " ++ a ++ space :: y :: b) (B "ok "))
             with false by reflexivity.
           rewrite HasPrefix_app, SplitN3_ng, cut_space_app by assumption.
           reflexivity.
Qed.

(** When the [switch] returns false it has recorded an error. *)
Lemma ReceiveResponse_switch_false
    (sc : PacketScanner) (s : ReceiveResponseState)
    (curr : option ReceiveResponseChunk) (pkt : option Packet) (r' : ReceiveResponse) :
  ReceiveResponse_switch sc s curr pkt = Ret (false, r') -> rr_err r' <> None.
Proof.
  unfold ReceiveResponse_switch, index.
  destruct s; [| |discriminate];
    repeat match goal with
           | |- context [match ?x with _ => _ end] => destruct x
           end; cbn [bind]; intros H; inversion H; discriminate.
Qed.

Lemma ReceiveResponse_step_round_trip (r r1 : ReceiveResponse) (c : ReceiveResponseChunk) :
  rr_err r = None -> ReceiveResponse_Scan r = Ret (true, r1) -> True ->
  rr_curr r1 = Some c -> receive_wf c ->
  (exists enc, ReceiveResponseChunk_EncodeToPktLine c = Ret enc) ->
  rr_err r1 = None /\
  exists q,
    wire (ReceiveResponseChunk_EncodeToPktLine c) q /\
    accepts ReceiveResponse_Scan rr_curr rr_err rr_state rr_scanner
      (rr_state r) q (rr_state r1) c.
Proof.
  intros He Hs _ Hc Hwf Henc.
  destruct (ReceiveResponse_Scan_true r r1 Hs) as (sc & Hsc & Hsw).
  destruct (ReceiveResponse_switch_round_trip _ _ _ _ _ _ Hsw Hc Hwf Henc)
    as (He1 & q & Hw & Hq).
  split; [assumption|]. exists q. split; [assumption|].
  intros r2 p2 Hst He2 Hs2 Hq2.
  assert (Hne : rr_state r <> ReceiveResponseEnd).
  { intros E. rewrite E in Hsw. discriminate. }
  rewrite <- Hst in Hne.
  rewrite (ReceiveResponse_Scan_switch r2 p2 He2 Hne Hs2), Hq2, Hst, Hq.
  eexists. split; [reflexivity|]. repeat split.
Qed.

Lemma ReceiveResponse_stop_round_trip (r r' : ReceiveResponse) :
  rr_err r = None -> ReceiveResponse_Scan r = Ret (false, r') ->
  rr_err r' = None -> True ->
  halts ReceiveResponse_Scan rr_err rr_state rr_scanner (rr_state r).
Proof.
  intros He Hs He' _ r2 p2 Hst He2 Hs2 Hp2.
  unfold ReceiveResponse_Scan in *. rewrite He in Hs. rewrite He2, Hst.
  cbn [notnil orb] in *.
  destruct (rr_state r) eqn:Est.
  - rewrite Hs2. cbn [bind negb]. unfold PacketScanner_Err. rewrite Hp2.
    eexists. split; reflexivity.
  - exfalso.
    destruct (PacketScanner_Scan (rr_scanner r)) as [[ok sc]|]; [|discriminate].
    cbn [bind] in Hs. destruct ok; cbn [negb] in Hs.
    + now apply ReceiveResponse_switch_false in Hs.
    + inversion Hs; subst r'. cbn in He'.
      destruct (PacketScanner_Err sc); discriminate.
  - eexists. split; [reflexivity|assumption].
Qed.

(** The round trip of the receive-pack response parser. *)
Lemma ReceiveResponse_round_trip
    (rd : Reader) (cs : list (option ReceiveResponseChunk)) (r' : ReceiveResponse) :
  runs ReceiveResponse_Scan ReceiveResponse_Chunk (NewReceiveResponse rd) cs r' ->
  ReceiveResponse_Err r' = None ->
  Forall (fun oc => exists c, oc = Some c /\ receive_wf c) cs ->
  forall (bs : bytes) (sched : list nat),
    encode_all ReceiveResponseChunk_EncodeToPktLine cs = Ret bs ->
    exists r'',
      runs ReceiveResponse_Scan ReceiveResponse_Chunk
        (NewReceiveResponse (mkReader bs sched io_EOF)) cs r'' /\
      ReceiveResponse_Err r'' = None.
Proof.
  intros Hruns He' Hwf bs sched Henc.
  destruct (NewPacketScanner_framed (mkReader bs sched io_EOF)) as [Hfr Hpe].
  eapply (runs_round_trip ReceiveResponse_Scan rr_curr rr_err rr_state rr_scanner
            ReceiveResponseChunk_EncodeToPktLine receive_wf (fun _ => True)
            (fun _ _ _ _ _ => I)
            ReceiveResponse_step_round_trip ReceiveResponse_stop_round_trip
            _ cs r' Hruns eq_refl He' I Hwf bs _ Henc);
    try reflexivity; assumption.
Qed.

(** *** What the packet scanner delivers *)

(** A [Bytes] packet never starts with "ERR ". *)
Lemma PacketScanner_Scan_not_ERR (p p' : PacketScanner) (b : bytes) :
  PacketScanner_Scan p = Ret (true, p') -> ps_curr p' = Some (BytesPacket b) ->
  (4 <= length b)%nat -> firstn 4 b <> B "ERR ".
Proof.
  unfold PacketScanner_Scan.
  destruct (ps_err p); [discriminate|].
  destruct (bufio_Scan _ _) as [[ok sc]|]; [|discriminate].
  cbn [bind]. destruct ok; [|discriminate]. cbn [negb].
  unfold PacketScanner_Scan_bytes.
  destruct (packFileMode p).
  { destruct (nlen (sc_token sc) =? 0)%nat; [discriminate|].
    intros H; inversion H; subst p'. discriminate. }
  destruct (bytes_eqb _ (B "0000")); [intros H; inversion H; subst p'; discriminate|].
  destruct (bytes_eqb _ (B "0001")); [intros H; inversion H; subst p'; discriminate|].
  destruct (bytes_eqb _ (B "PACK")); [intros H; inversion H; subst p'; discriminate|].
  destruct (nlen (sc_token sc) =? 4)%nat; [discriminate|].
  destruct (nslice_lo_hi (sc_token sc) 4 8) as [b48|] eqn:E48; [|discriminate].
  cbn [bind].
  destruct (bytes_eqb (slice_bytes b48) (B "ERR ")) eqn:Eerr.
  { destruct (nslice_lo (sc_token sc) 8); discriminate. }
  destruct (nslice_lo (sc_token sc) 4) as [b4|] eqn:E4; [|discriminate].
  cbn [bind]. intros H; inversion H; subst p'. clear H.
  cbn [ps_curr]. intros Hb Hl. inversion Hb; subst b. clear Hb.
  intros Hc. apply bytes_eqb_eq in Hc.
  assert (Hs : slice_bytes b48 = firstn 4 (slice_bytes b4)).
  { unfold nslice_lo_hi, slice_lo_hi in E48. unfold nslice_lo, slice_lo in E4.
    destruct (_ && _)%bool in E48; [|discriminate].
    destruct (_ <=? _)%nat in E4; [|discriminate].
    inversion E48; subst b48. inversion E4; subst b4.
    unfold slice_bytes in *. cbn [arr slen] in *.
    rewrite length_firstn in Hl.
    rewrite firstn_firstn. f_equal. lia. }
  rewrite Hs in Eerr. congruence.
Qed.

(** Once in pack-file mode, always in pack-file mode; and with an error,
    no more packets. *)
Lemma PacketScanner_Scan_framed_back (p p' : PacketScanner) (b : bool) :
  PacketScanner_Scan p = Ret (b, p') ->
  packFileMode p' = false -> ps_err p' = None ->
  packFileMode p = false /\ ps_err p = None /\
  (b = true ->
   ps_curr p' <> Some PackFileIndicatorPacket /\
   forall x, ps_curr p' <> Some (PackFilePacket x)).
Proof.
  unfold PacketScanner_Scan.
  destruct (ps_err p) eqn:Ee.
  { intros H; inversion H; subst. congruence. }
  destruct (bufio_Scan _ _) as [[ok sc]|]; [|discriminate].
  cbn [bind]. destruct ok; cbn [negb].
  2:{ intros H; inversion H; subst. cbn. intros Hm _.
      split; [assumption|]. split; [reflexivity|]. intros Hb; discriminate Hb. }
  unfold PacketScanner_Scan_bytes.
  destruct (packFileMode p).
  { destruct (nlen (sc_token sc) =? 0)%nat;
      intros H; inversion H; subst; cbn; discriminate. }
  destruct (bytes_eqb _ (B "0000")).
  { intros H; inversion H; subst; cbn. intros _ _.
    repeat split; try discriminate. }
  destruct (bytes_eqb _ (B "0001")).
  { intros H; inversion H; subst; cbn. intros _ _.
    repeat split; try discriminate. }
  destruct (bytes_eqb _ (B "PACK")).
  { intros H; inversion H; subst; cbn. discriminate. }
  destruct (nlen (sc_token sc) =? 4)%nat.
  { intros H; inversion H; subst; cbn. discriminate. }
  destruct (nslice_lo_hi (sc_token sc) 4 8) as [b48|]; [|discriminate].
  cbn [bind].
  destruct (bytes_eqb (slice_bytes b48) (B "ERR ")).
  { destruct (nslice_lo (sc_token sc) 8); [|discriminate].
    cbn [bind]. intros H; inversion H; subst; cbn. discriminate. }
  destruct (nslice_lo (sc_token sc) 4) as [b4|]; [|discriminate].
  cbn [bind]. intros H; inversion H; subst; cbn. intros _ _.
  repeat split; try discriminate.
Qed.

(** The packet of a frame: what was asked of it when it was scanned. *)
Definition delivered (pkt : option Packet) : Prop :=
  forall b, pkt = Some (BytesPacket b) ->
    (4 <= length b)%nat -> firstn 4 b <> B "ERR ".

Lemma BytesPacket_Encode_length (b enc : bytes) :
  BytesPacket_EncodeToPktLine b = Ret enc -> length enc = (4 + length b)%nat.
Proof.
  unfold BytesPacket_EncodeToPktLine.
  destruct (len b >? 65535 - 4) eqn:E; [discriminate|].
  rewrite Z.gtb_ltb in E. apply Z.ltb_ge in E.
  pose proof (len_nonneg b) as H0.
  intros H; inversion H. rewrite Sprintf_04x_small by lia.
  now rewrite length_app, hex_fixed_length.
Qed.

(** A line with its newline starts with "ERR " only if the line does. *)
Lemma firstn4_snoc_newline (s : bytes) :
  firstn 4 (s ++ [newline]) = B "ERR " ->
  (4 <= length s)%nat /\ firstn 4 s = B "ERR ".
Proof.
  destruct s as [|a [|b [|c [|d s]]]]; cbn; intros H; inversion H.
  split; [lia|reflexivity].
Qed.

Lemma firstn4_TrimSuffix_nl (p : bytes) :
  (4 <= length (TrimSuffix_nl p))%nat ->
  (4 <= length p)%nat /\ firstn 4 p = firstn 4 (TrimSuffix_nl p).
Proof.
  intros H. destruct (TrimSuffix_nl_cases p) as [E|E].
  - set (t := TrimSuffix_nl p) in *. clearbody t. subst p.
    rewrite length_app, (firstn_app_le 4 t) by lia. split; [lia|reflexivity].
  - split; [rewrite E; assumption|now rewrite <- E].
Qed.

(** *** The protocol-v2 request *)

(** What is asked of a chunk whose frame is written: a special packet of
    four bytes, or a frame of at least eight. *)
Definition frame_wf (enc : go bytes) : Prop :=
  forall bs, enc = Ret bs -> length bs = 4%nat \/ (8 <= length bs)%nat.

Definition request_wf (c : RequestChunk) : Prop :=
  frame_wf (RequestChunk_EncodeToPktLine c).

Lemma frame_wf_Bytes (b enc : bytes) :
  frame_wf (BytesPacket_EncodeToPktLine b) ->
  BytesPacket_EncodeToPktLine b = Ret enc -> b <> [] -> (4 <= length b)%nat.
Proof.
  intros Hwf He Hb. specialize (Hwf enc He).
  apply BytesPacket_Encode_length in He.
  destruct b; [contradiction|]. cbn [length] in *. lia.
Qed.

Lemma Request_Scan_true (r r1 : Request) :
  Request_Scan r = Ret (true, r1) ->
  exists sc,
    PacketScanner_Scan (rq_scanner r) = Ret (true, sc) /\
    Request_switch sc (rq_state r) (rq_curr r) (ps_curr sc) = Ret (true, r1).
Proof.
  unfold Request_Scan.
  destruct (notnil (rq_err r) || _); [discriminate|].
  destruct (PacketScanner_Scan (rq_scanner r)) as [[ok sc]|]; [|discriminate].
  cbn [bind]. destruct ok; [|discriminate]. cbn [negb].
  intros H. now exists sc.
Qed.

Lemma Request_Scan_switch (r : Request) (sc : PacketScanner) :
  rq_err r = None -> rq_state r <> RequestEnd ->
  PacketScanner_Scan (rq_scanner r) = Ret (true, sc) ->
  Request_Scan r = Request_switch sc (rq_state r) (rq_curr r) (ps_curr sc).
Proof.
  intros He Hs H. unfold Request_Scan. rewrite He, H.
  destruct (rq_state r); try contradiction; reflexivity.
Qed.

Lemma Request_switch_false
    (sc : PacketScanner) (s : RequestState) (curr : option RequestChunk)
    (pkt : option Packet) (r' : Request) :
  Request_switch sc s curr pkt = Ret (false, r') -> rq_err r' <> None.
Proof.
  unfold Request_switch.
  destruct s; [| | |discriminate];
    repeat match goal with
           | |- context [match ?x with _ => _ end] => destruct x
           end; intros H; inversion H; discriminate.
Qed.

Lemma Request_switch_round_trip
    (sc : PacketScanner) (s : RequestState) (curr : option RequestChunk)
    (pkt : option Packet) (r1 : Request) (c : RequestChunk) :
  Request_switch sc s curr pkt = Ret (true, r1) -> delivered pkt ->
  rq_curr r1 = Some c -> request_wf c ->
  (exists enc, RequestChunk_EncodeToPktLine c = Ret enc) ->
  rq_err r1 = None /\
  exists q,
    wire (RequestChunk_EncodeToPktLine c) q /\
    forall sc' curr',
      Request_switch sc' s curr' (Some q) =
        Ret (true, mkRequest sc' (rq_state r1) None (Some c)).
Proof.
  intros Hsw Hdel Hc Hwf (enc & Henc).
  unfold request_wf in Hwf.
  destruct s; cbn [Request_switch] in Hsw; [| | |discriminate].
  - (* Begin *)
    destruct pkt as [[| |p| | |]|]; try discriminate.
    + inversion Hsw; subst r1. cbn in Hc. inversion Hc; subst c. clear Hsw Hc.
      split; [reflexivity|].
      exists FlushPacket. split; [reflexivity|]. intros; reflexivity.
    + destruct (HasPrefix p (B "command=")) eqn:Hp; [|discriminate].
      cbn [negb] in Hsw.
      unfold TrimPrefix in Hsw. rewrite Hp in Hsw.
      apply HasPrefix_split in Hp as [rest Hp]. subst p.
      replace (skipn (length (B "command=")) (B "command=" ++ rest)) with rest in Hsw
        by reflexivity.
      remember (TrimSuffix_nl rest) as name eqn:Hname.
      inversion Hsw; subst r1. cbn in Hc. inversion Hc; subst c. clear Hsw Hc.
      split; [reflexivity|].
      destruct name as [|x name]; [cbn in Henc; discriminate|].
      exists (BytesPacket (B "command=" ++ (x :: name) ++ [newline])).
      split.
      * cbn [wire]. split; [reflexivity|].
        split; [rewrite !length_app; cbn; lia|discriminate].
      * intros sc' curr'. cbn [Request_switch].
        rewrite HasPrefix_app. cbn [negb].
        unfold TrimPrefix. rewrite HasPrefix_app.
        replace (skipn (length (B "command="))
                   (B "command=" ++ (x :: name) ++ [newline]))
          with ((x :: name) ++ [newline]) by reflexivity.
        rewrite TrimSuffix_nl_snoc. reflexivity.
  - (* ScanCapabilities *)
    destruct pkt as [[| |p| | |]|]; try discriminate.
    + inversion Hsw; subst r1. cbn in Hc. inversion Hc; subst c. clear Hsw Hc.
      split; [reflexivity|].
      exists DelimPacket. split; [reflexivity|]. intros; reflexivity.
    + remember (TrimSuffix_nl p) as cap eqn:Hcap.
      inversion Hsw; subst r1. cbn in Hc. inversion Hc; subst c. clear Hsw Hc.
      split; [reflexivity|].
      destruct cap as [|x cap]; [cbn in Henc; discriminate|].
      assert (He : RequestChunk_EncodeToPktLine
                     (mkRequestChunk [] (x :: cap) false [] false false) =
                   BytesPacket_EncodeToPktLine ((x :: cap) ++ [newline]))
        by reflexivity.
      rewrite He in *.
      assert (H4 : (4 <= length ((x :: cap) ++ [newline]))%nat)
        by (apply (frame_wf_Bytes _ enc Hwf Henc); discriminate).
      exists (BytesPacket ((x :: cap) ++ [newline])).
      split.
      * cbn [wire]. split; [reflexivity|]. split; [assumption|].
        intros E. apply firstn4_snoc_newline in E as [Hl E].
        rewrite Hcap in Hl, E.
        apply firstn4_TrimSuffix_nl in Hl as [Hl Hf].
        rewrite <- Hf in E. now apply (Hdel p eq_refl Hl).
      * intros sc' curr'. cbn [Request_switch].
        rewrite TrimSuffix_nl_snoc. reflexivity.
  - (* ScanArguments *)
    destruct pkt as [[| |p| | |]|]; try discriminate.
    + inversion Hsw; subst r1. cbn in Hc. inversion Hc; subst c. clear Hsw Hc.
      split; [reflexivity|].
      exists FlushPacket. split; [reflexivity|]. intros; reflexivity.
    + inversion Hsw; subst r1. cbn in Hc. inversion Hc; subst c. clear Hsw Hc.
      split; [reflexivity|].
      destruct p as [|x p]; [cbn in Henc; discriminate|].
      assert (He : RequestChunk_EncodeToPktLine
                     (mkRequestChunk [] [] false (x :: p) false false) =
                   BytesPacket_EncodeToPktLine (x :: p))
        by reflexivity.
      rewrite He in *.
      assert (H4 : (4 <= length (x :: p))%nat)
        by (apply (frame_wf_Bytes _ enc Hwf Henc); discriminate).
      exists (BytesPacket (x :: p)).
      split.
      * cbn [wire]. split; [reflexivity|]. split; [assumption|].
        now apply (Hdel (x :: p) eq_refl).
      * intros sc' curr'. reflexivity.
Qed.

Lemma Request_step_round_trip (r r1 : Request) (c : RequestChunk) :
  rq_err r = None -> Request_Scan r = Ret (true, r1) -> True ->
  rq_curr r1 = Some c -> request_wf c ->
  (exists enc, RequestChunk_EncodeToPktLine c = Ret enc) ->
  rq_err r1 = None /\
  exists q,
    wire (RequestChunk_EncodeToPktLine c) q /\
    accepts Request_Scan rq_curr rq_err rq_state rq_scanner
      (rq_state r) q (rq_state r1) c.
Proof.
  intros He Hs _ Hc Hwf Henc.
  destruct (Request_Scan_true r r1 Hs) as (sc & Hsc & Hsw).
  assert (Hdel : delivered (ps_curr sc)).
  { intros b Hb. now apply (PacketScanner_Scan_not_ERR _ _ _ Hsc). }
  destruct (Request_switch_round_trip _ _ _ _ _ _ Hsw Hdel Hc Hwf Henc)
    as (He1 & q & Hw & Hq).
  split; [assumption|]. exists q. split; [assumption|].
  intros r2 p2 Hst He2 Hs2 Hq2.
  assert (Hne : rq_state r <> RequestEnd).
  { intros E. rewrite E in Hsw. discriminate. }
  rewrite <- Hst in Hne.
  rewrite (Request_Scan_switch r2 p2 He2 Hne Hs2), Hq2, Hst, Hq.
  eexists. split; [reflexivity|]. repeat split.
Qed.

Lemma Request_stop_round_trip (r r' : Request) :
  rq_err r = None -> Request_Scan r = Ret (false, r') ->
  rq_err r' = None -> True ->
  halts Request_Scan rq_err rq_state rq_scanner (rq_state r).
Proof.
  intros He Hs He' _ r2 p2 Hst He2 Hs2 Hp2.
  unfold Request_Scan in *. rewrite He in Hs. rewrite He2, Hst.
  cbn [notnil orb] in *.
  destruct (rq_state r) eqn:Est.
  - rewrite Hs2. cbn [bind negb]. unfold PacketScanner_Err. rewrite Hp2.
    eexists. split; reflexivity.
  - exfalso.
    destruct (PacketScanner_Scan (rq_scanner r)) as [[ok sc]|]; [|discriminate].
    cbn [bind] in Hs. destruct ok; cbn [negb] in Hs.
    + now apply Request_switch_false in Hs.
    + inversion Hs; subst r'. cbn in He'.
      destruct (PacketScanner_Err sc); discriminate.
  - exfalso.
    destruct (PacketScanner_Scan (rq_scanner r)) as [[ok sc]|]; [|discriminate].
    cbn [bind] in Hs. destruct ok; cbn [negb] in Hs.
    + now apply Request_switch_false in Hs.
    + inversion Hs; subst r'. cbn in He'.
      destruct (PacketScanner_Err sc); discriminate.
  - eexists. split; [reflexivity|assumption].
Qed.

(** The round trip of the request parser. *)
Lemma Request_round_trip
    (rd : Reader) (cs : list (option RequestChunk)) (r' : Request) :
  runs Request_Scan Request_Chunk (NewRequest rd) cs r' ->
  Request_Err r' = None ->
  Forall (fun oc => exists c, oc = Some c /\ request_wf c) cs ->
  forall (bs : bytes) (sched : list nat),
    encode_all RequestChunk_EncodeToPktLine cs = Ret bs ->
    exists r'',
      runs Request_Scan Request_Chunk (NewRequest (mkReader bs sched io_EOF)) cs r'' /\
      Request_Err r'' = None.
Proof.
  intros Hruns He' Hwf bs sched Henc.
  destruct (NewPacketScanner_framed (mkReader bs sched io_EOF)) as [Hfr Hpe].
  eapply (runs_round_trip Request_Scan rq_curr rq_err rq_state rq_scanner
            RequestChunk_EncodeToPktLine request_wf (fun _ => True)
            (fun _ _ _ _ _ => I)
            Request_step_round_trip Request_stop_round_trip
            _ cs r' Hruns eq_refl He' I Hwf bs _ Henc);
    try reflexivity; assumption.
Qed.

(** *** The upload-pack response *)

Lemma TrimSuffix_nl_app (w rest : bytes) :
  w <> [] -> last w space <> newline ->
  TrimSuffix_nl (w ++ rest) = w ++ TrimSuffix_nl rest.
Proof.
  induction w as [|c w IH]; intros Hw Hl; [contradiction|].
  destruct w as [|d w].
  - cbn [app]. destruct rest as [|x rest].
    + cbn in *. destruct (Ascii.eqb c newline) eqn:E; [|reflexivity].
      apply Ascii.eqb_eq in E. contradiction.
    + reflexivity.
  - change ((c :: d :: w) ++ rest) with (c :: ((d :: w) ++ rest)).
    change (TrimSuffix_nl (c :: (d :: w) ++ rest))
      with (c :: TrimSuffix_nl ((d :: w) ++ rest)).
    rewrite IH; [reflexivity|discriminate|exact Hl].
Qed.

Lemma SplitN2_shallow (rest : bytes) :
  SplitN (B "shallow " ++ rest) 2 = [B "shallow"; rest].
Proof. now rewrite SplitN_S. Qed.

Lemma SplitN2_unshallow (rest : bytes) :
  SplitN (B "unshallow " ++ rest) 2 = [B "unshallow"; rest].
Proof. now rewrite SplitN_S. Qed.

Lemma SplitN3_ACK (rest : bytes) :
  SplitN (B "ACK " ++ rest) 3 =
    B "ACK" :: match cut_space rest with
               | Some (a, b) => [a; b]
               | None => [rest]
               end.
Proof.
  rewrite SplitN_S. cbn. destruct (cut_space rest) as [[a b]|]; reflexivity.
Qed.

Definition upload_wf (c : UploadResponseChunk) : Prop :=
  frame_wf (UploadResponseChunk_EncodeToPktLine c).

(** The end of a run of the upload-pack response parser that can be read
    again: the packet scanner is still in framed mode and has met no
    error. *)
Definition upload_good (r : UploadResponse) : Prop :=
  packFileMode (ur_scanner r) = false /\ ps_err (ur_scanner r) = None.

(** A packet of the framed mode. *)
Definition framed_packet (pkt : option Packet) : Prop :=
  pkt <> Some PackFileIndicatorPacket /\
  (forall x, pkt <> Some (PackFilePacket x)) /\ delivered pkt.

Section UploadRoundTrip.
Variable sc : PacketScanner.
Variable st : UploadResponseState.
Variable curr : option UploadResponseChunk.
Variable pkt : option Packet.
Variable r1 : UploadResponse.
Variable c : UploadResponseChunk.
Hypothesis Hpkt : framed_packet pkt.
Hypothesis Hc : ur_curr r1 = Some c.
Hypothesis Hwf : upload_wf c.
Hypothesis Henc : exists enc, UploadResponseChunk_EncodeToPktLine c = Ret enc.

(** The pack section: the chunk is written as the packet it was read from. *)
Lemma UploadResponse_case_packs_round_trip :
  UploadResponse_case_packs sc st curr pkt = Ret (true, r1) ->
  ur_err r1 = None /\
  exists q,
    pkt = Some q /\ wire (UploadResponseChunk_EncodeToPktLine c) q /\
    forall sc' st' curr',
      UploadResponse_case_packs sc' st' curr' pkt =
        Ret (true, mkUploadResponse sc' (ur_state r1) None (Some c)).
Proof.
  destruct Hpkt as (Hind & Hpf & Hdel). destruct Henc as (enc & He).
  unfold UploadResponse_case_packs.
  destruct pkt as [[| |p| | |x]|]; try discriminate.
  - intros H; inversion H; subst r1. cbn in Hc. inversion Hc; subst c.
    split; [reflexivity|]. exists FlushPacket.
    split; [reflexivity|]. split; [reflexivity|]. intros; reflexivity.
  - intros H; inversion H; subst r1. cbn in Hc. inversion Hc; subst c.
    split; [reflexivity|]. exists (BytesPacket p).
    split; [reflexivity|].
    destruct p as [|y p]; [cbn in He; discriminate|].
    assert (E : UploadResponseChunk_EncodeToPktLine
                  (mkUploadResponseChunk [] [] false [] [] false (y :: p) None false)
                = BytesPacket_EncodeToPktLine (y :: p)) by reflexivity.
    unfold upload_wf in Hwf. rewrite E in *.
    assert (H4 : (4 <= length (y :: p))%nat)
      by (apply (frame_wf_Bytes _ enc Hwf He); discriminate).
    split; [|intros; reflexivity].
    cbn [wire]. split; [reflexivity|]. split; [assumption|].
    now apply (Hdel (y :: p) eq_refl).
  - contradiction.
  - exfalso. now apply (Hpf x).
Qed.
End UploadRoundTrip.

Section UploadRoundTrip2.
Variable sc : PacketScanner.
Variable st : UploadResponseState.
Variable curr : option UploadResponseChunk.
Variable pkt : option Packet.
Variable r1 : UploadResponse.
Variable c : UploadResponseChunk.
Hypothesis Hpkt : framed_packet pkt.
Hypothesis Hc : ur_curr r1 = Some c.
Hypothesis Hwf : upload_wf c.
Hypothesis Henc : exists enc, UploadResponseChunk_EncodeToPktLine c = Ret enc.

(** The acknowledgement section: the chunk is written as the packet it was
    read from, or as an "ACK " line. *)
Lemma UploadResponse_case_acks_round_trip :
  UploadResponse_case_acks sc st curr pkt = Ret (true, r1) ->
  ur_err r1 = None /\
  exists q,
    wire (UploadResponseChunk_EncodeToPktLine c) q /\
    (pkt = Some q \/ exists l, q = BytesPacket (B "ACK " ++ l)) /\
    forall sc' curr',
      UploadResponse_case_acks sc' st curr' (Some q) =
        Ret (true, mkUploadResponse sc' (ur_state r1) None (Some c)).
Proof.
  intros Hsw.
  assert (Hrest :
    match st with
    | UploadResponseBegin =>
        Ret (false, mkUploadResponse sc st
                      (Some (unexpected_packet (VPacket pkt))) curr)
    | _ => UploadResponse_case_packs sc st curr pkt
    end = Ret (true, r1) ->
    (forall sc' curr',
       UploadResponse_case_acks sc' st curr' pkt =
         match st with
         | UploadResponseBegin =>
             Ret (false, mkUploadResponse sc' st
                           (Some (unexpected_packet (VPacket pkt))) curr')
         | _ => UploadResponse_case_packs sc' st curr' pkt
         end) ->
    ur_err r1 = None /\
    exists q,
      wire (UploadResponseChunk_EncodeToPktLine c) q /\
      (pkt = Some q \/ exists l, q = BytesPacket (B "ACK " ++ l)) /\
      forall sc' curr',
        UploadResponse_case_acks sc' st curr' (Some q) =
          Ret (true, mkUploadResponse sc' (ur_state r1) None (Some c))).
  { intros H Hsame.
    assert (Hp : UploadResponse_case_packs sc st curr pkt = Ret (true, r1))
      by (destruct st; try discriminate; exact H).
    destruct (UploadResponse_case_packs_round_trip sc st curr pkt r1 c
                Hpkt Hc Hwf Henc Hp) as (He1 & q & Hq & Hw & Hacc).
    split; [assumption|]. exists q. split; [assumption|].
    split; [now left|].
    intros sc' curr'. rewrite <- Hq, Hsame.
    destruct st; try discriminate; apply Hacc. }
  destruct Henc as (enc & He).
  unfold UploadResponse_case_acks in Hsw.
  destruct pkt as [[| |bp| | |x]|] eqn:Epkt;
    try (apply Hrest; [exact Hsw|intros; reflexivity]).
  destruct (HasPrefix bp (B "ACK ")) eqn:Hack.
  - (* an ACK line *)
    clear Hrest.
    apply HasPrefix_split in Hack as [l Hl]. subst bp.
    rewrite TrimSuffix_nl_app, SplitN3_ACK in Hsw by discriminate.
    remember (TrimSuffix_nl l) as line eqn:Hline.
    destruct (cut_space line) as [[a b]|] eqn:Ecut.
    + cbn in Hsw. inversion Hsw; subst r1. cbn in Hc. inversion Hc; subst c.
      clear Hsw Hc. split; [reflexivity|].
      apply cut_space_Some in Ecut as [_ Hns].
      destruct a as [|x a]; [destruct b; cbn in He; discriminate|].
      destruct b as [|y b].
      * exists (BytesPacket (B "ACK " ++ (x :: a) ++ [newline])).
        split; [|split; [right; eexists; reflexivity|]].
        -- cbn [wire]. split; [reflexivity|].
           split; [rewrite !length_app; cbn; lia|discriminate].
        -- intros sc' curr'. unfold UploadResponse_case_acks.
           rewrite HasPrefix_app, app_assoc, TrimSuffix_nl_snoc, SplitN3_ACK.
           rewrite cut_space_nospace by assumption. reflexivity.
      * exists (BytesPacket (B "ACK " ++ ((x :: a) ++ space :: y :: b) ++ [newline])).
        split; [|split; [right; eexists; reflexivity|]].
        -- cbn [wire]. split.
           ++ unfold UploadResponseChunk_EncodeToPktLine. cbn.
              rewrite <- !app_assoc. reflexivity.
           ++ split; [rewrite !length_app; cbn; lia|discriminate].
        -- intros sc' curr'. unfold UploadResponse_case_acks.
           rewrite HasPrefix_app, app_assoc, TrimSuffix_nl_snoc, SplitN3_ACK.
           rewrite cut_space_app by assumption. reflexivity.
    + cbn in Hsw. inversion Hsw; subst r1. cbn in Hc. inversion Hc; subst c.
      clear Hsw Hc. split; [reflexivity|].
      apply cut_space_None in Ecut.
      destruct line as [|x line]; [cbn in He; discriminate|].
      exists (BytesPacket (B "ACK " ++ (x :: line) ++ [newline])).
      split; [|split; [right; eexists; reflexivity|]].
      * cbn [wire]. split; [reflexivity|].
        split; [rewrite !length_app; cbn; lia|discriminate].
      * intros sc' curr'. unfold UploadResponse_case_acks.
        rewrite HasPrefix_app, app_assoc, TrimSuffix_nl_snoc, SplitN3_ACK.
        rewrite cut_space_nospace by assumption. reflexivity.
  - destruct (bytes_eqb bp (B "NAK" ++ [newline])) eqn:Hnak.
    + (* NAK *)
      clear Hrest. apply bytes_eqb_eq in Hnak. subst bp.
      inversion Hsw; subst r1. cbn in Hc. inversion Hc; subst c.
      split; [reflexivity|].
      exists (BytesPacket (B "NAK" ++ [newline])).
      split; [|split; [now left|intros; reflexivity]].
      cbn [wire]. split; [reflexivity|]. split; [cbn; lia|discriminate].
    + apply Hrest; [exact Hsw|].
      intros sc' curr'. unfold UploadResponse_case_acks. now rewrite Hack, Hnak.
Qed.
End UploadRoundTrip2.

Section UploadRoundTrip3.
Variable sc : PacketScanner.
Variable st : UploadResponseState.
Variable curr : option UploadResponseChunk.
Variable pkt : option Packet.
Variable r1 : UploadResponse.
Variable c : UploadResponseChunk.
Hypothesis Hpkt : framed_packet pkt.
Hypothesis Hc : ur_curr r1 = Some c.
Hypothesis Hwf : upload_wf c.
Hypothesis Henc : exists enc, UploadResponseChunk_EncodeToPktLine c = Ret enc.

(** The unshallow section. *)
Lemma UploadResponse_case_unshallows_round_trip :
  UploadResponse_case_unshallows sc st curr pkt = Ret (true, r1) ->
  ur_err r1 = None /\
  exists q,
    wire (UploadResponseChunk_EncodeToPktLine c) q /\
    (pkt = Some q \/ (exists l, q = BytesPacket (B "ACK " ++ l)) \/
     exists l, q = BytesPacket (B "unshallow " ++ l)) /\
    forall sc' curr',
      UploadResponse_case_unshallows sc' st curr' (Some q) =
        Ret (true, mkUploadResponse sc' (ur_state r1) None (Some c)).
Proof.
  intros Hsw.
  assert (Hrest :
    UploadResponse_case_acks sc st curr pkt = Ret (true, r1) ->
    (forall sc' curr',
       UploadResponse_case_unshallows sc' st curr' pkt =
         UploadResponse_case_acks sc' st curr' pkt) ->
    ur_err r1 = None /\
    exists q,
      wire (UploadResponseChunk_EncodeToPktLine c) q /\
      (pkt = Some q \/ (exists l, q = BytesPacket (B "ACK " ++ l)) \/
       exists l, q = BytesPacket (B "unshallow " ++ l)) /\
      forall sc' curr',
        UploadResponse_case_unshallows sc' st curr' (Some q) =
          Ret (true, mkUploadResponse sc' (ur_state r1) None (Some c))).
  { intros H Hsame.
    destruct (UploadResponse_case_acks_round_trip sc st curr pkt r1 c
                Hpkt Hc Hwf Henc H) as (He1 & q & Hw & Hq & Hacc).
    split; [assumption|]. exists q. split; [assumption|].
    destruct Hq as [Hq|(l & Hq)].
    - split; [now left|]. intros sc' curr'. rewrite <- Hq, Hsame, Hq. apply Hacc.
    - split; [right; left; now exists l|].
      intros sc' curr'. rewrite <- (Hacc sc' curr'). subst q. reflexivity. }
  destruct Henc as (enc & He).
  unfold UploadResponse_case_unshallows in Hsw.
  destruct pkt as [[| |bp| | |x]|] eqn:Epkt;
    try (apply Hrest; [exact Hsw|intros; reflexivity]).
  - (* Flush *)
    clear Hrest. inversion Hsw; subst r1. cbn in Hc. inversion Hc; subst c.
    split; [reflexivity|]. exists FlushPacket.
    split; [reflexivity|]. split; [now left|]. intros; reflexivity.
  - destruct (HasPrefix bp (B "unshallow ")) eqn:Hun.
    + (* an unshallow line *)
      clear Hrest.
      apply HasPrefix_split in Hun as [l Hl]. subst bp.
      rewrite TrimSuffix_nl_app, SplitN2_unshallow in Hsw by discriminate.
      remember (TrimSuffix_nl l) as oid eqn:Hoid.
      cbn in Hsw. inversion Hsw; subst r1. cbn in Hc. inversion Hc; subst c.
      clear Hsw Hc. split; [reflexivity|].
      destruct oid as [|x oid]; [cbn in He; discriminate|].
      exists (BytesPacket (B "unshallow " ++ (x :: oid) ++ [newline])).
      split; [|split; [right; right; eexists; reflexivity|]].
      * cbn [wire]. split; [reflexivity|].
        split; [rewrite !length_app; cbn; lia|discriminate].
      * intros sc' curr'. unfold UploadResponse_case_unshallows.
        rewrite HasPrefix_app, app_assoc, TrimSuffix_nl_snoc, SplitN2_unshallow.
        reflexivity.
    + apply Hrest; [exact Hsw|].
      intros sc' curr'. unfold UploadResponse_case_unshallows. now rewrite Hun.
Qed.
End UploadRoundTrip3.

Section UploadRoundTrip4.
Variable sc : PacketScanner.
Variable st : UploadResponseState.
Variable curr : option UploadResponseChunk.
Variable pkt : option Packet.
Variable r1 : UploadResponse.
Variable c : UploadResponseChunk.
Hypothesis Hpkt : framed_packet pkt.
Hypothesis Hc : ur_curr r1 = Some c.
Hypothesis Hwf : upload_wf c.
Hypothesis Henc : exists enc, UploadResponseChunk_EncodeToPktLine c = Ret enc.

(** The shallow section. *)
Lemma UploadResponse_case_shallows_round_trip :
  UploadResponse_case_shallows sc st curr pkt = Ret (true, r1) ->
  ur_err r1 = None /\
  exists q,
    wire (UploadResponseChunk_EncodeToPktLine c) q /\
    forall sc' curr',
      UploadResponse_case_shallows sc' st curr' (Some q) =
        Ret (true, mkUploadResponse sc' (ur_state r1) None (Some c)).
Proof.
  intros Hsw.
  assert (Hrest :
    UploadResponse_case_unshallows sc st curr pkt = Ret (true, r1) ->
    (forall sc' curr',
       UploadResponse_case_shallows sc' st curr' pkt =
         UploadResponse_case_unshallows sc' st curr' pkt) ->
    ur_err r1 = None /\
    exists q,
      wire (UploadResponseChunk_EncodeToPktLine c) q /\
      forall sc' curr',
        UploadResponse_case_shallows sc' st curr' (Some q) =
          Ret (true, mkUploadResponse sc' (ur_state r1) None (Some c))).
  { intros H Hsame.
    destruct (UploadResponse_case_unshallows_round_trip sc st curr pkt r1 c
                Hpkt Hc Hwf Henc H) as (He1 & q & Hw & Hq & Hacc).
    split; [assumption|]. exists q. split; [assumption|].
    destruct Hq as [Hq|[(l & Hq)|(l & Hq)]].
    - intros sc' curr'. rewrite <- Hq, Hsame, Hq. apply Hacc.
    - intros sc' curr'. rewrite <- (Hacc sc' curr'). subst q. reflexivity.
    - intros sc' curr'. rewrite <- (Hacc sc' curr'). subst q. reflexivity. }
  destruct Henc as (enc & He).
  unfold UploadResponse_case_shallows in Hsw.
  destruct pkt as [[| |bp| | |x]|] eqn:Epkt;
    try (apply Hrest; [exact Hsw|intros; reflexivity]).
  destruct (HasPrefix bp (B "shallow ")) eqn:Hsh.
  - (* a shallow line *)
    clear Hrest.
    apply HasPrefix_split in Hsh as [l Hl]. subst bp.
    rewrite TrimSuffix_nl_app, SplitN2_shallow in Hsw by discriminate.
    remember (TrimSuffix_nl l) as oid eqn:Hoid.
    cbn in Hsw. inversion Hsw; subst r1. cbn in Hc. inversion Hc; subst c.
    clear Hsw Hc. split; [reflexivity|].
    destruct oid as [|x oid]; [cbn in He; discriminate|].
    exists (BytesPacket (B "shallow " ++ (x :: oid) ++ [newline])).
    split.
    + cbn [wire]. split; [reflexivity|].
      split; [rewrite !length_app; cbn; lia|discriminate].
    + intros sc' curr'. unfold UploadResponse_case_shallows.
      rewrite HasPrefix_app, app_assoc, TrimSuffix_nl_snoc, SplitN2_shallow.
      reflexivity.
  - apply Hrest; [exact Hsw|].
    intros sc' curr'. unfold UploadResponse_case_shallows. now rewrite Hsh.
Qed.

End UploadRoundTrip4.

Section UploadRoundTrip5.
Variable sc : PacketScanner.
Variable st : UploadResponseState.
Variable curr : option UploadResponseChunk.
Variable pkt : option Packet.
Variable r1 : UploadResponse.
Variable c : UploadResponseChunk.
Hypothesis Hpkt : framed_packet pkt.
Hypothesis Hc : ur_curr r1 = Some c.
Hypothesis Hwf : upload_wf c.
Hypothesis Henc : exists enc, UploadResponseChunk_EncodeToPktLine c = Ret enc.

(** The whole [switch]. *)
Lemma UploadResponse_switch_round_trip :
  UploadResponse_switch sc st curr pkt = Ret (true, r1) ->
  ur_err r1 = None /\
  exists q,
    wire (UploadResponseChunk_EncodeToPktLine c) q /\
    forall sc' curr',
      UploadResponse_switch sc' st curr' (Some q) =
        Ret (true, mkUploadResponse sc' (ur_state r1) None (Some c)).
Proof.
  intros Hsw. unfold UploadResponse_switch in *.
  destruct st; try discriminate.
  - now apply (UploadResponse_case_shallows_round_trip sc _ curr pkt).
  - now apply (UploadResponse_case_shallows_round_trip sc _ curr pkt).
  - destruct (UploadResponse_case_unshallows_round_trip sc _ curr pkt r1 c
                Hpkt Hc Hwf Henc Hsw) as (He1 & q & Hw & _ & Hacc).
    split; [assumption|]. now exists q.
  - destruct (UploadResponse_case_acks_round_trip sc _ curr pkt r1 c
                Hpkt Hc Hwf Henc Hsw) as (He1 & q & Hw & _ & Hacc).
    split; [assumption|]. now exists q.
  - destruct (UploadResponse_case_acks_round_trip sc _ curr pkt r1 c
                Hpkt Hc Hwf Henc Hsw) as (He1 & q & Hw & _ & Hacc).
    split; [assumption|]. now exists q.
  - destruct (UploadResponse_case_packs_round_trip sc UploadResponseScanPacks
                curr pkt r1 c Hpkt Hc Hwf Henc Hsw) as (He1 & q & Hq & Hw & Hacc).
    split; [assumption|]. exists q. split; [assumption|].
    intros sc' curr'. rewrite <- Hq. apply Hacc.
Qed.
End UploadRoundTrip5.

Lemma UploadResponse_switch_scanner
    (sc : PacketScanner) (s : UploadResponseState)
    (curr : option UploadResponseChunk) (pkt : option Packet)
    (b : bool) (r' : UploadResponse) :
  UploadResponse_switch sc s curr pkt = Ret (b, r') ->
  ur_scanner r' = sc /\ (b = false -> ur_err r' <> None).
Proof.
  unfold UploadResponse_switch, UploadResponse_case_shallows,
    UploadResponse_case_unshallows, UploadResponse_case_acks,
    UploadResponse_case_packs, index.
  destruct s; try discriminate;
    repeat match goal with
           | |- context [match ?x with _ => _ end] => destruct x
           end; cbn [bind]; intros H; inversion H;
    (split; [reflexivity|intros; discriminate]).
Qed.

Lemma UploadResponse_Scan_true (r r1 : UploadResponse) :
  UploadResponse_Scan r = Ret (true, r1) ->
  exists sc,
    PacketScanner_Scan (ur_scanner r) = Ret (true, sc) /\
    UploadResponse_switch sc (ur_state r) (ur_curr r) (ps_curr sc) = Ret (true, r1).
Proof.
  unfold UploadResponse_Scan.
  destruct (notnil (ur_err r) || _); [discriminate|].
  destruct (PacketScanner_Scan (ur_scanner r)) as [[ok sc]|]; [|discriminate].
  cbn [bind]. destruct ok; [|discriminate]. cbn [negb].
  intros H. now exists sc.
Qed.

Lemma UploadResponse_Scan_switch (r : UploadResponse) (sc : PacketScanner) :
  ur_err r = None -> ur_state r <> UploadResponseEnd ->
  PacketScanner_Scan (ur_scanner r) = Ret (true, sc) ->
  UploadResponse_Scan r =
    UploadResponse_switch sc (ur_state r) (ur_curr r) (ps_curr sc).
Proof.
  intros He Hs H. unfold UploadResponse_Scan. rewrite He, H.
  destruct (ur_state r); try contradiction; reflexivity.
Qed.

Lemma UploadResponse_good_back (r : UploadResponse) (b : bool) (r1 : UploadResponse) :
  UploadResponse_Scan r = Ret (b, r1) -> upload_good r1 -> upload_good r.
Proof.
  unfold UploadResponse_Scan, upload_good.
  destruct (notnil (ur_err r) || _).
  { intros H; inversion H; subst. tauto. }
  destruct (PacketScanner_Scan (ur_scanner r)) as [[ok sc]|] eqn:Hs; [|discriminate].
  cbn [bind]. intros H [Hm He].
  assert (Hsc : ur_scanner r1 = sc).
  { destruct ok; cbn [negb] in H.
    - now apply UploadResponse_switch_scanner in H.
    - inversion H; reflexivity. }
  rewrite Hsc in *.
  destruct (PacketScanner_Scan_framed_back _ _ _ Hs Hm He) as (H1 & H2 & _).
  now split.
Qed.

Lemma UploadResponse_step_round_trip
    (r r1 : UploadResponse) (c : UploadResponseChunk) :
  ur_err r = None -> UploadResponse_Scan r = Ret (true, r1) -> upload_good r1 ->
  ur_curr r1 = Some c -> upload_wf c ->
  (exists enc, UploadResponseChunk_EncodeToPktLine c = Ret enc) ->
  ur_err r1 = None /\
  exists q,
    wire (UploadResponseChunk_EncodeToPktLine c) q /\
    accepts UploadResponse_Scan ur_curr ur_err ur_state ur_scanner
      (ur_state r) q (ur_state r1) c.
Proof.
  intros He Hs [Hm Hpe] Hc Hwf Henc.
  destruct (UploadResponse_Scan_true r r1 Hs) as (sc & Hsc & Hsw).
  destruct (UploadResponse_switch_scanner _ _ _ _ _ _ Hsw) as [Hr1 _].
  rewrite Hr1 in *.
  destruct (PacketScanner_Scan_framed_back _ _ _ Hsc Hm Hpe) as (_ & _ & Hf).
  destruct (Hf eq_refl) as [Hind Hpf].
  assert (Hpkt : framed_packet (ps_curr sc)).
  { split; [assumption|]. split; [assumption|].
    intros b Hb. now apply (PacketScanner_Scan_not_ERR _ _ _ Hsc). }
  destruct (UploadResponse_switch_round_trip _ _ _ _ _ _ Hpkt Hc Hwf Henc Hsw)
    as (He1 & q & Hw & Hq).
  split; [assumption|]. exists q. split; [assumption|].
  intros r2 p2 Hst He2 Hs2 Hq2.
  assert (Hne : ur_state r <> UploadResponseEnd).
  { intros E. rewrite E in Hsw. discriminate. }
  rewrite <- Hst in Hne.
  rewrite (UploadResponse_Scan_switch r2 p2 He2 Hne Hs2), Hq2, Hst, Hq.
  eexists. split; [reflexivity|]. repeat split.
Qed.

Lemma UploadResponse_stop_round_trip (r r' : UploadResponse) :
  ur_err r = None -> UploadResponse_Scan r = Ret (false, r') ->
  ur_err r' = None -> upload_good r' ->
  halts UploadResponse_Scan ur_err ur_state ur_scanner (ur_state r).
Proof.
  intros He Hs He' [_ Hg] r2 p2 Hst He2 Hs2 Hp2.
  assert (Hclean : ur_state r = UploadResponseEnd \/
                   ur_state r = UploadResponseBeginAcknowledgements \/
                   ur_state r = UploadResponseScanPacks).
  { unfold UploadResponse_Scan in Hs. rewrite He in Hs. cbn [notnil orb] in Hs.
    destruct (ur_state r) eqn:Est; auto; exfalso;
      (destruct (PacketScanner_Scan (ur_scanner r)) as [[ok sc]|]; [|discriminate];
       cbn [bind] in Hs; destruct ok; cbn [negb] in Hs;
       [apply UploadResponse_switch_scanner in Hs as [_ Hs]; now apply Hs
       |inversion Hs; subst r'; cbn in Hg, He';
        unfold PacketScanner_Err in He'; rewrite Hg in He'; discriminate]). }
  unfold UploadResponse_Scan. rewrite He2, Hst. cbn [notnil orb].
  destruct Hclean as [E|[E|E]]; rewrite E.
  - eexists. split; [reflexivity|assumption].
  - rewrite Hs2. cbn [bind negb]. unfold PacketScanner_Err. rewrite Hp2.
    eexists. split; reflexivity.
  - rewrite Hs2. cbn [bind negb]. unfold PacketScanner_Err. rewrite Hp2.
    eexists. split; reflexivity.
Qed.

(** The round trip of the upload-pack response parser. *)
Lemma UploadResponse_round_trip
    (rd : Reader) (cs : list (option UploadResponseChunk)) (r' : UploadResponse) :
  runs UploadResponse_Scan UploadResponse_Chunk (NewUploadResponse rd) cs r' ->
  UploadResponse_Err r' = None -> upload_good r' ->
  Forall (fun oc => exists c, oc = Some c /\ upload_wf c) cs ->
  forall (bs : bytes) (sched : list nat),
    encode_all UploadResponseChunk_EncodeToPktLine cs = Ret bs ->
    exists r'',
      runs UploadResponse_Scan UploadResponse_Chunk
        (NewUploadResponse (mkReader bs sched io_EOF)) cs r'' /\
      UploadResponse_Err r'' = None.
Proof.
  intros Hruns He' Hg Hwf bs sched Henc.
  destruct (NewPacketScanner_framed (mkReader bs sched io_EOF)) as [Hfr Hpe].
  eapply (runs_round_trip UploadResponse_Scan ur_curr ur_err ur_state ur_scanner
            UploadResponseChunk_EncodeToPktLine upload_wf upload_good
            UploadResponse_good_back
            UploadResponse_step_round_trip UploadResponse_stop_round_trip
            _ cs r' Hruns eq_refl He' Hg Hwf bs _ Henc);
    try reflexivity; assumption.
Qed.

(** *** Runs, computed *)

Section RunFacts.
Context {R C : Type}.
Variable scan : R -> go (bool * R).
Variable chunk : R -> option C.

Lemma run_runs (fuel : nat) (r : R) (cs : list (option C)) (r' : R) :
  run scan chunk fuel r = Ret (Some (cs, r')) -> runs scan chunk r cs r'.
Proof.
  revert r cs r'; induction fuel as [|fuel IH]; intros r cs r' H;
    [discriminate|].
  cbn [run] in H.
  destruct (scan r) as [[ok r1]|] eqn:Es; [|discriminate].
  cbn [bind] in H. destruct ok.
  - destruct (run scan chunk fuel r1) as [[[cs1 r1']|]|] eqn:Er;
      cbn [bind] in H; try discriminate.
    inversion H; subst. apply runs_step; [assumption|now apply IH].
  - inversion H; subst. now apply runs_stop.
Qed.

Lemma runs_det (r : R) (cs1 cs2 : list (option C)) (r1 r2 : R) :
  runs scan chunk r cs1 r1 -> runs scan chunk r cs2 r2 -> cs1 = cs2 /\ r1 = r2.
Proof.
  intros H; revert cs2 r2.
  induction H as [r r' H|r ra cs r' H _ IH]; intros cs2 r2 H2;
    inversion H2 as [? ? H'|? rb ? ? H' Hr]; subst; rewrite H in H';
    inversion H'; subst.
  - now split.
  - destruct (IH _ _ Hr) as [-> ->]. now split.
Qed.
End RunFacts.

(** *** The claim, and where it fails *)

(** The round trip as claimed, for the receive-pack response parser on one
    input: the chunks of a run without error can be written, and reading
    these bytes again gives the same chunks. *)
Definition receive_round_trip_as_claimed (input : bytes) : Prop :=
  forall cs r',
    runs ReceiveResponse_Scan ReceiveResponse_Chunk
      (NewReceiveResponse (mkReader input [] io_EOF)) cs r' ->
    ReceiveResponse_Err r' = None ->
    exists bs r'',
      encode_all ReceiveResponseChunk_EncodeToPktLine cs = Ret bs /\
      runs ReceiveResponse_Scan ReceiveResponse_Chunk
        (NewReceiveResponse (mkReader bs [] io_EOF)) cs r''.

Definition ng_without_message : bytes :=
  B "000eunpack ok" ++ [newline] ++ B "000ang a " ++ [newline] ++ B "0000".

Definition ng_without_message_chunks : list (option ReceiveResponseChunk) :=
  [ Some (mkReceiveResponseChunk (B "ok") [] [] [] false);
    Some (mkReceiveResponseChunk [] (B "ng") (B "a") [] false);
    Some (mkReceiveResponseChunk [] [] [] [] true) ].

(** The line "ng a " (an empty message after the second space) is read as
    the chunk [("ng", "a", "")] ... *)
Lemma ng_without_message_run :
  exists r',
    run ReceiveResponse_Scan ReceiveResponse_Chunk 5
      (NewReceiveResponse (mkReader ng_without_message [] io_EOF))
    = Ret (Some (ng_without_message_chunks, r')) /\
    ReceiveResponse_Err r' = None.
Proof. eexists. split; vm_compute; reflexivity. Qed.

(** ... which is written as the line "ng a" ... *)
Lemma ng_without_message_encoded :
  encode_all ReceiveResponseChunk_EncodeToPktLine ng_without_message_chunks
  = Ret (B "000eunpack ok" ++ [newline] ++ B "0009ng a" ++ [newline] ++ B "0000").
Proof. vm_compute. reflexivity. Qed.

(** ... a line the parser refuses. *)
Lemma ng_without_message_again :
  exists r'',
    run ReceiveResponse_Scan ReceiveResponse_Chunk 5
      (NewReceiveResponse
         (mkReader (B "000eunpack ok" ++ [newline] ++ B "0009ng a" ++ [newline]
                      ++ B "0000") [] io_EOF))
    = Ret (Some ([Some (mkReceiveResponseChunk (B "ok") [] [] [] false)], r'')) /\
    ReceiveResponse_Err r'' =
      Some (SyntaxError (Text (B "cannot split into three: ng a"))).
Proof. eexists. split; vm_compute; reflexivity. Qed.

Lemma round_trip_counterexample :
  ~ receive_round_trip_as_claimed ng_without_message.
Proof.
  intros H.
  destruct ng_without_message_run as (r' & Hrun & He).
  apply run_runs in Hrun.
  destruct (H _ _ Hrun He) as (bs & r'' & Henc & Hruns2).
  rewrite ng_without_message_encoded in Henc.
  inversion Henc as [Hbs]. rewrite <- Hbs in Hruns2.
  destruct ng_without_message_again as (r2 & Hrun2 & _).
  apply run_runs in Hrun2.
  destruct (runs_det _ _ _ _ _ _ _ Hruns2 Hrun2) as [Hcs _].
  discriminate Hcs.
Qed.

(** *** The round trip that holds *)

(** C1, amended.  For each of the three parsers: take a run over any input,
    read in any way, that ends with [Err()] nil, and write each of its
    chunks in order with [EncodeToPktLine], none of which aborts.  Reading
    the bytes written, from a reader that hands them out in any way and then
    ends, gives the same chunks and ends with [Err()] nil, provided
    - receive-pack response: no "ng" chunk has an empty message;
    - request: every chunk is written as a packet of four bytes or as a
      frame of at least eight;
    - upload-pack response: the same, and the packet scanner of the run has
      ended in framed mode and without error. *)
Theorem round_trip :
  (forall rd cs r' bs sched,
     runs ReceiveResponse_Scan ReceiveResponse_Chunk (NewReceiveResponse rd) cs r' ->
     ReceiveResponse_Err r' = None ->
     Forall (fun oc => exists c, oc = Some c /\ receive_wf c) cs ->
     encode_all ReceiveResponseChunk_EncodeToPktLine cs = Ret bs ->
     exists r'',
       runs ReceiveResponse_Scan ReceiveResponse_Chunk
         (NewReceiveResponse (mkReader bs sched io_EOF)) cs r'' /\
       ReceiveResponse_Err r'' = None) /\
  (forall rd cs r' bs sched,
     runs Request_Scan Request_Chunk (NewRequest rd) cs r' ->
     Request_Err r' = None ->
     Forall (fun oc => exists c, oc = Some c /\ request_wf c) cs ->
     encode_all RequestChunk_EncodeToPktLine cs = Ret bs ->
     exists r'',
       runs Request_Scan Request_Chunk (NewRequest (mkReader bs sched io_EOF)) cs r'' /\
       Request_Err r'' = None) /\
  (forall rd cs r' bs sched,
     runs UploadResponse_Scan UploadResponse_Chunk (NewUploadResponse rd) cs r' ->
     UploadResponse_Err r' = None ->
     packFileMode (ur_scanner r') = false ->
     PacketScanner_Err (ur_scanner r') = None ->
     Forall (fun oc => exists c, oc = Some c /\ upload_wf c) cs ->
     encode_all UploadResponseChunk_EncodeToPktLine cs = Ret bs ->
     exists r'',
       runs UploadResponse_Scan UploadResponse_Chunk
         (NewUploadResponse (mkReader bs sched io_EOF)) cs r'' /\
       UploadResponse_Err r'' = None).
Proof.
  split; [|split].
  - intros rd cs r' bs sched Hruns He Hwf Henc.
    now apply (ReceiveResponse_round_trip rd cs r').
  - intros rd cs r' bs sched Hruns He Hwf Henc.
    now apply (Request_round_trip rd cs r').
  - intros rd cs r' bs sched Hruns He Hm Hpe Hwf Henc.
    apply (UploadResponse_round_trip rd cs r'); try assumption.
    now split.
Qed.

(** Three runs to try it on. *)
Definition receive_example : bytes :=
  B "000eunpack ok" ++ [newline] ++ B "0017ok refs/heads/main" ++ [newline]
    ++ B "0000".
Definition receive_example_chunks : list (option ReceiveResponseChunk) :=
  [ Some (mkReceiveResponseChunk (B "ok") [] [] [] false);
    Some (mkReceiveResponseChunk [] (B "ok") (B "refs/heads/main") [] false);
    Some (mkReceiveResponseChunk [] [] [] [] true) ].

Definition request_example : bytes :=
  B "0013command=ls-refs" ++ B "000bagent=x" ++ B "0001" ++ B "0009peel"
    ++ [newline] ++ B "0000" ++ B "0000".
Definition request_example_chunks : list (option RequestChunk) :=
  [ Some (mkRequestChunk (B "ls-refs") [] false [] false false);
    Some (mkRequestChunk [] (B "agent=x") false [] false false);
    Some (mkRequestChunk [] [] true [] false false);
    Some (mkRequestChunk [] [] false (B "peel" ++ [newline]) false false);
    Some (mkRequestChunk [] [] false [] true false);
    Some (mkRequestChunk [] [] false [] false true) ].
Definition request_example_encoded : bytes :=
  B "0014command=ls-refs" ++ [newline] ++ B "000cagent=x" ++ [newline]
    ++ B "0001" ++ B "0009peel" ++ [newline] ++ B "0000" ++ B "0000".

Definition upload_example : bytes :=
  B "000dshallow a" ++ B "0000" ++ B "000bACK a b" ++ B "0008NAK" ++ [newline]
    ++ B "0008pack" ++ B "0000".
Definition upload_example_chunks : list (option UploadResponseChunk) :=
  [ Some (mkUploadResponseChunk (B "a") [] false [] [] false [] None false);
    Some (mkUploadResponseChunk [] [] true [] [] false [] None false);
    Some (mkUploadResponseChunk [] [] false (B "a") (B "b") false [] None false);
    Some (mkUploadResponseChunk [] [] false [] [] true [] None false);
    Some (mkUploadResponseChunk [] [] false [] [] false (B "pack") None false);
    Some (mkUploadResponseChunk [] [] false [] [] false [] None true) ].
Definition upload_example_encoded : bytes :=
  B "000eshallow a" ++ [newline] ++ B "0000" ++ B "000cACK a b" ++ [newline]
    ++ B "0008NAK" ++ [newline] ++ B "0008pack" ++ B "0000".

Lemma receive_example_run :
  exists r',
    run ReceiveResponse_Scan ReceiveResponse_Chunk 5
      (NewReceiveResponse (mkReader receive_example [2; 0; 7]%nat io_EOF))
    = Ret (Some (receive_example_chunks, r')) /\
    ReceiveResponse_Err r' = None.
Proof. eexists. split; vm_compute; reflexivity. Qed.

Lemma request_example_run :
  exists r',
    run Request_Scan Request_Chunk 8
      (NewRequest (mkReader request_example [2; 0; 7]%nat io_EOF))
    = Ret (Some (request_example_chunks, r')) /\
    Request_Err r' = None.
Proof. eexists. split; vm_compute; reflexivity. Qed.

Lemma upload_example_run :
  exists r',
    run UploadResponse_Scan UploadResponse_Chunk 8
      (NewUploadResponse (mkReader upload_example [2; 0; 7]%nat io_EOF))
    = Ret (Some (upload_example_chunks, r')) /\
    UploadResponse_Err r' = None /\
    packFileMode (ur_scanner r') = false /\
    PacketScanner_Err (ur_scanner r') = None.
Proof.
  eexists. split; [vm_compute; reflexivity|].
  split; [reflexivity|]. split; reflexivity.
Qed.

Ltac frame_wf_by_computation :=
  let bs := fresh "bs" in
  let H := fresh "H" in
  intros bs H; vm_compute in H; inversion H;
  first [left; reflexivity | right; vm_compute; lia].

Lemma round_trip_witness :
  (exists r'',
     runs ReceiveResponse_Scan ReceiveResponse_Chunk
       (NewReceiveResponse (mkReader receive_example [0; 1]%nat io_EOF))
       receive_example_chunks r'' /\
     ReceiveResponse_Err r'' = None) /\
  (exists r'',
     runs Request_Scan Request_Chunk
       (NewRequest (mkReader request_example_encoded [0; 1]%nat io_EOF))
       request_example_chunks r'' /\
     Request_Err r'' = None) /\
  (exists r'',
     runs UploadResponse_Scan UploadResponse_Chunk
       (NewUploadResponse (mkReader upload_example_encoded [0; 1]%nat io_EOF))
       upload_example_chunks r'' /\
     UploadResponse_Err r'' = None).
Proof.
  split; [|split].
  - destruct receive_example_run as (r' & Hrun & He).
    refine (proj1 round_trip
              (mkReader receive_example [2; 0; 7]%nat io_EOF)
              receive_example_chunks r' receive_example [0; 1]%nat
              (run_runs _ _ _ _ _ _ Hrun) He _ _).
    + repeat constructor; eexists; (split; [reflexivity|]);
        intros H; discriminate H.
    + vm_compute. reflexivity.
  - destruct request_example_run as (r' & Hrun & He).
    refine (proj1 (proj2 round_trip)
              (mkReader request_example [2; 0; 7]%nat io_EOF)
              request_example_chunks r' request_example_encoded [0; 1]%nat
              (run_runs _ _ _ _ _ _ Hrun) He _ _).
    + repeat constructor; eexists; (split; [reflexivity|]);
        frame_wf_by_computation.
    + vm_compute. reflexivity.
  - destruct upload_example_run as (r' & Hrun & He & Hm & Hpe).
    refine (proj2 (proj2 round_trip)
              (mkReader upload_example [2; 0; 7]%nat io_EOF)
              upload_example_chunks r' upload_example_encoded [0; 1]%nat
              (run_runs _ _ _ _ _ _ Hrun) He Hm Hpe _ _).
    + repeat constructor; eexists; (split; [reflexivity|]);
        frame_wf_by_computation.
    + vm_compute. reflexivity.
Defined.

(** *** Why the conditions are there *)

(** Upload-pack response: after "PACK" the parser exposes the chunk before
    it once more, and what follows is read in pack-file mode; written and
    read again, the second [Nak] becomes pack data. *)
Example upload_PACK_round_trip :
  exists cs r' bs r'',
    run UploadResponse_Scan UploadResponse_Chunk 6
      (NewUploadResponse
         (mkReader (B "0008NAK" ++ [newline] ++ B "PACKabcd") [] io_EOF))
    = Ret (Some (cs, r')) /\
    UploadResponse_Err r' = None /\
    cs = [ Some (mkUploadResponseChunk [] [] false [] [] true [] None false);
           Some (mkUploadResponseChunk [] [] false [] [] true [] None false);
           Some (mkUploadResponseChunk [] [] false [] [] false (B "abcd") None false) ] /\
    encode_all UploadResponseChunk_EncodeToPktLine cs = Ret bs /\
    run UploadResponse_Scan UploadResponse_Chunk 6
      (NewUploadResponse (mkReader bs [] io_EOF))
    = Ret (Some
        ([ Some (mkUploadResponseChunk [] [] false [] [] true [] None false);
           Some (mkUploadResponseChunk [] [] false [] [] false
                   (B "NAK" ++ [newline]) None false);
           Some (mkUploadResponseChunk [] [] false [] [] false (B "abcd") None false) ],
         r'')).
Proof.
  eexists. eexists. eexists. eexists.
  split; [vm_compute; reflexivity|].
  split; [reflexivity|]. split; [reflexivity|].
  split; [vm_compute; reflexivity|].
  vm_compute; reflexivity.
Qed.

(** Upload-pack response: the parser does not report the error of the
    packet scanner (here on "zzzz"), so the run ends with [Err()] nil in
    the middle of the shallow section; read again, the same chunks end with
    "early EOF". *)
Example upload_hidden_error_round_trip :
  exists cs r' bs r'',
    run UploadResponse_Scan UploadResponse_Chunk 6
      (NewUploadResponse
         (mkReader (B "000eshallow a" ++ [newline] ++ B "zzzz") [] io_EOF))
    = Ret (Some (cs, r')) /\
    UploadResponse_Err r' = None /\
    PacketScanner_Err (ur_scanner r') =
      Some (strconv_NumError "ParseUint" (B "zzzz")) /\
    encode_all UploadResponseChunk_EncodeToPktLine cs = Ret bs /\
    run UploadResponse_Scan UploadResponse_Chunk 6
      (NewUploadResponse (mkReader bs [] io_EOF))
    = Ret (Some (cs, r'')) /\
    UploadResponse_Err r'' = Some (SyntaxError (Text (B "early EOF"))).
Proof.
  eexists. eexists. eexists. eexists.
  split; [vm_compute; reflexivity|].
  split; [reflexivity|]. split; [reflexivity|].
  split; [vm_compute; reflexivity|].
  split; [vm_compute; reflexivity|]. reflexivity.
Qed.

(** Request: an argument of one byte is written as the frame "0005a".  When
    this frame ends where the scanner's buffer ends, [bs[4:8]] is out of
    range and [Scan] aborts: here the frame occupies the bytes 4091 to 4096
    of the input, and a reader that fills the 4096 bytes of the first buffer
    at once puts it there, while a reader that first hands out 4091 bytes
    does not. *)
Definition short_argument_request : bytes :=
  B "000ecommand=x" ++ [newline] ++ B "0001"
    ++ B "0fe9" ++ repeat "x"%char (Z.to_nat 4069)
    ++ B "0005a" ++ B "0000" ++ B "0000".

Definition short_argument_chunks : list (option RequestChunk) :=
  [ Some (mkRequestChunk (B "x") [] false [] false false);
    Some (mkRequestChunk [] [] true [] false false);
    Some (mkRequestChunk [] [] false (repeat "x"%char (Z.to_nat 4069)) false false);
    Some (mkRequestChunk [] [] false (B "a") false false);
    Some (mkRequestChunk [] [] false [] true false);
    Some (mkRequestChunk [] [] false [] false true) ].

(** The chunks of a run and its [Err()]. *)
Definition outcome {R C : Type} (err : R -> option error)
    (res : go (option (list (option C) * R)))
  : go (option (list (option C) * option error)) :=
  match res with
  | Ret (Some (cs, r)) => Ret (Some (cs, err r))
  | Ret None => Ret None
  | Panic msg => Panic msg
  end.

Example request_short_frame_round_trip :
  outcome Request_Err
    (run Request_Scan Request_Chunk 8
       (NewRequest (mkReader short_argument_request [Z.to_nat 4090] io_EOF)))
  = Ret (Some (short_argument_chunks, None)) /\
  encode_all RequestChunk_EncodeToPktLine short_argument_chunks
  = Ret short_argument_request /\
  outcome Request_Err
    (run Request_Scan Request_Chunk 8
       (NewRequest (mkReader short_argument_request [] io_EOF)))
  = Panic "slice bounds out of range".
Proof. split; [|split]; vm_compute; reflexivity. Qed.

(** * Further properties of the code *)

(** ** The frame of a bytes packet *)

Lemma BytesPacket_EncodeToPktLine_Ret (b : bytes) :
  len b <= 65531 ->
  BytesPacket_EncodeToPktLine b = Ret (hex_fixed false 4 (len b + 4) ++ b).
Proof.
  intros H. unfold BytesPacket_EncodeToPktLine.
  replace (len b >? 65535 - 4) with false
    by (symmetry; rewrite Z.gtb_ltb; apply Z.ltb_ge; lia).
  pose proof (len_nonneg b).
  now rewrite Sprintf_04x_small by lia.
Qed.

Lemma ParseUint16_hex_fixed (upper : bool) (n : Z) :
  0 <= n < 65536 -> ParseUint16 (hex_fixed upper 4 n) = Some n.
Proof.
  intros H. rewrite <- Sprintf_04x_small by assumption.
  now apply ParseUint16_Sprintf.
Qed.

(** X1.  [BytesPacket(b).EncodeToPktLine()] aborts exactly when [b] is longer
    than 65531 bytes.  Otherwise it returns four lower-case hexadecimal
    digits followed by [b], and the four digits, read as [packetSplitFunc]
    reads a header, are the length of the whole result. *)
Theorem BytesPacket_encoding (b : bytes) :
  (BytesPacket_EncodeToPktLine b = Panic "content too large" <-> 65531 < len b) /\
  (forall enc, BytesPacket_EncodeToPktLine b = Ret enc ->
     len b <= 65531 /\
     length (firstn 4 enc) = 4%nat /\
     forallb is_lower_hex (firstn 4 enc) = true /\
     skipn 4 enc = b /\
     ParseUint16 (firstn 4 enc) = Some (len enc)).
Proof.
  pose proof (len_nonneg b) as H0.
  destruct (Z_le_gt_dec (len b) 65531) as [Hle|Hgt].
  - pose proof (BytesPacket_EncodeToPktLine_Ret b Hle) as E.
    pose proof (hex_fixed_length false 4 (len b + 4)) as Hhl.
    pose proof (hex_fixed_lower 4 (len b + 4)) as Hhx.
    pose proof (ParseUint16_hex_fixed false (len b + 4)) as Hhp.
    remember (hex_fixed false 4 (len b + 4)) as hd eqn:Ehd. clear Ehd.
    rewrite E. split.
    + split; [discriminate|lia].
    + intros enc H.
      assert (He : enc = hd ++ b) by congruence. subst enc. clear H.
      assert (Hf : firstn 4 (hd ++ b) = hd).
      { rewrite firstn_app_le by lia. apply firstn_all2. lia. }
      rewrite Hf.
      split; [assumption|]. split; [assumption|].
      split; [assumption|]. split.
      * rewrite skipn_app_le by lia. rewrite skipn_all2 by lia. reflexivity.
      * rewrite Hhp by lia. f_equal.
        rewrite len_app. unfold len at 2. rewrite Hhl. lia.
  - unfold BytesPacket_EncodeToPktLine.
    replace (len b >? 65535 - 4) with true
      by (symmetry; rewrite Z.gtb_ltb; apply Z.ltb_lt; lia).
    split; [split; [lia|reflexivity]|discriminate].
Qed.

Lemma BytesPacket_encoding_witness :
  BytesPacket_EncodeToPktLine (B "hello") = Ret (B "0009hello") /\
  ParseUint16 (firstn 4 (B "0009hello")) = Some (len (B "0009hello")) /\
  BytesPacket_EncodeToPktLine (repeat "x"%char (Z.to_nat 65532))
    = Panic "content too large".
Proof.
  split; [reflexivity|]. split.
  - exact (proj2 (proj2 (proj2 (proj2
      (proj2 (BytesPacket_encoding (B "hello")) (B "0009hello") eq_refl))))).
  - apply (proj1 (BytesPacket_encoding (repeat "x"%char (Z.to_nat 65532)))).
    unfold len. rewrite repeat_length. lia.
Defined.

(** ** Frames, with either kind of header *)

Lemma hex_digit_never_P (upper : bool) (d : Z) :
  0 <= d < 16 -> Ascii.eqb (hex_digit upper d) "P"%char = false.
Proof.
  intros H. destruct upper;
    decompose [or] (digit_cases d H); subst; reflexivity.
Qed.

(** A header of four digits, lower or upper case, followed by a payload of
    1 to 65531 bytes is one token of the split function. *)
Lemma next_frame_header (upper : bool) (b : bytes) :
  (1 <= length b)%nat -> len b <= 65531 ->
  next_frame (hex_fixed upper 4 (len b + 4) ++ b) = Token (4 + length b).
Proof.
  intros H1 Hle.
  set (n := len b + 4).
  assert (Hn : n = Z.of_nat (length b) + 4) by reflexivity.
  assert (Hl : length (hex_fixed upper 4 n ++ b) = (4 + length b)%nat)
    by (rewrite length_app, hex_fixed_length; reflexivity).
  assert (Hf : firstn 4 (hex_fixed upper 4 n ++ b) = hex_fixed upper 4 n).
  { rewrite firstn_app_le by (rewrite hex_fixed_length; lia).
    apply firstn_all2. rewrite hex_fixed_length. lia. }
  unfold next_frame. rewrite Hl, Hf.
  replace (4 + length b <? 4)%nat with false by (symmetry; apply Nat.ltb_ge; lia).
  replace (HasPrefix (hex_fixed upper 4 n ++ b) (B "PACK")) with false.
  2:{ rewrite hex_fixed_4. cbn [app HasPrefix B list_ascii_of_string].
      rewrite hex_digit_never_P by (apply Z.mod_pos_bound; lia). reflexivity. }
  unfold len in Hle.
  rewrite ParseUint16_hex_fixed by lia.
  replace ((n =? 0) || (n =? 1)) with false
    by (symmetry; apply orb_false_iff; split; apply Z.eqb_neq; lia).
  replace (Z.of_nat (4 + length b) <? n) with false
    by (symmetry; apply Z.ltb_ge; lia).
  f_equal. lia.
Qed.

Lemma frame_token (upper : bool) (b rest : bytes) :
  (1 <= length b)%nat -> len b <= 65531 ->
  next_frame ((hex_fixed upper 4 (len b + 4) ++ b) ++ rest) = Token (4 + length b) /\
  firstn (4 + length b) ((hex_fixed upper 4 (len b + 4) ++ b) ++ rest)
    = hex_fixed upper 4 (len b + 4) ++ b /\
  skipn (4 + length b) ((hex_fixed upper 4 (len b + 4) ++ b) ++ rest) = rest /\
  skipn 4 (hex_fixed upper 4 (len b + 4) ++ b) = b.
Proof.
  intros H1 Hle.
  pose proof (next_frame_header upper b H1 Hle) as Hnf.
  assert (Hl : length (hex_fixed upper 4 (len b + 4) ++ b) = (4 + length b)%nat)
    by (rewrite length_app, hex_fixed_length; reflexivity).
  split; [|split; [|split]].
  - rewrite next_frame_app; [assumption|rewrite Hnf; discriminate].
  - rewrite firstn_app_le by lia. apply firstn_all2. lia.
  - rewrite skipn_app_le by lia. rewrite skipn_all2 by lia. reflexivity.
  - rewrite skipn_app_le by (rewrite hex_fixed_length; lia).
    rewrite skipn_all2 by (rewrite hex_fixed_length; lia). reflexivity.
Qed.

(** X2.  Writing a bytes packet and reading it back: for a payload [b] of 4
    to 65531 bytes that does not start with "ERR ", a packet scanner in
    framed mode whose input ahead is [BytesPacket(b).EncodeToPktLine()]
    followed by anything returns [BytesPacket(b)] from its next [Scan], with
    no error, and is left in front of what followed; this holds however the
    reader hands the bytes out. *)
Theorem BytesPacket_encode_scan
    (p : PacketScanner) (b enc rest : bytes)
    (Hp : ps_framed p)
    (Henc : BytesPacket_EncodeToPktLine b = Ret enc)
    (H4 : (4 <= length b)%nat)
    (Herr : HasPrefix b (B "ERR ") = false)
    (Hpe : ps_pending p = enc ++ rest) :
  exists p',
    PacketScanner_Scan p = Ret (true, p') /\
    PacketScanner_Packet p' = Some (BytesPacket b) /\
    PacketScanner_Err p' = None /\
    ps_framed p' /\ ps_pending p' = rest.
Proof.
  destruct (PacketScanner_Scan_wire p (BytesPacket b) enc rest Hp) as (p' & H);
    [|assumption|].
  - cbn [wire]. split; [now symmetry|]. split; [assumption|].
    intros E. rewrite <- (firstn_skipn 4 b), E, HasPrefix_app in Herr. discriminate.
  - exists p'. destruct H as (Hs & Hc & Hf & Hpe' & _).
    split; [assumption|]. split; [assumption|].
    split; [apply Hf|]. split; assumption.
Qed.

Lemma BytesPacket_encode_scan_witness :
  exists p',
    PacketScanner_Scan
      (NewPacketScanner (mkReader (B "000bcommand0000") [0%nat; 2%nat] io_EOF))
      = Ret (true, p') /\
    PacketScanner_Packet p' = Some (BytesPacket (B "command")) /\
    PacketScanner_Err p' = None /\
    ps_framed p' /\ ps_pending p' = B "0000".
Proof.
  refine (BytesPacket_encode_scan
    (NewPacketScanner (mkReader (B "000bcommand0000") [0%nat; 2%nat] io_EOF))
    (B "command") (B "000bcommand") (B "0000") _ _ _ _ _).
  - apply NewPacketScanner_framed.
  - reflexivity.
  - cbn. lia.
  - reflexivity.
  - reflexivity.
Defined.

(** ** Writing an error packet and reading it back *)

Lemma ErrorPacket_EncodeToPktLine_Ret (m : bytes) :
  len m <= 65527 ->
  ErrorPacket_EncodeToPktLine m =
    Ret (hex_fixed true 4 (len (B "ERR " ++ m) + 4) ++ B "ERR " ++ m).
Proof.
  intros H. unfold ErrorPacket_EncodeToPktLine.
  assert (Hl : len (B "ERR " ++ m) = len m + 4)
    by (rewrite len_app; change (len (B "ERR ")) with 4; lia).
  pose proof (len_nonneg m).
  replace (len (B "ERR " ++ m) >? 65535) with false
    by (symmetry; rewrite Z.gtb_ltb; apply Z.ltb_ge; lia).
  now rewrite Sprintf_04x_small by lia.
Qed.

(** A frame, with a header in either case, whose payload starts with
    "ERR ": [Scan] stops, and [Err()] is the error packet of what follows
    these four bytes. *)
Lemma PacketScanner_Scan_ERR_frame
    (upper : bool) (p : PacketScanner) (m rest : bytes) :
  ps_framed p -> len m <= 65527 ->
  ps_pending p =
    (hex_fixed upper 4 (len (B "ERR " ++ m) + 4) ++ B "ERR " ++ m) ++ rest ->
  exists p',
    PacketScanner_Scan p = Ret (false, p') /\
    ps_err p' = Some (RemoteError m).
Proof.
  intros Hp Hlen Hpe.
  assert (Hl : len (B "ERR " ++ m) <= 65531)
    by (rewrite len_app; change (len (B "ERR ")) with 4; lia).
  assert (H1 : (1 <= length (B "ERR " ++ m))%nat) by (rewrite length_app; cbn; lia).
  assert (H8 : (8 <= 4 + length (B "ERR " ++ m))%nat) by (rewrite length_app; cbn; lia).
  assert (H48 : firstn 4 (B "ERR " ++ m) = B "ERR ") by reflexivity.
  assert (Hm : skipn 4 (B "ERR " ++ m) = m) by reflexivity.
  destruct (frame_token upper (B "ERR " ++ m) rest H1 Hl) as (Hnf & Htok & _ & Hpay).
  remember (B "ERR " ++ m) as bs eqn:Ebs. clear Ebs.
  remember (hex_fixed upper 4 (len bs + 4)) as hd eqn:Ehd. clear Ehd.
  rewrite <- Hpe in Hnf, Htok.
  destruct (PacketScanner_Scan_ERR p _ Hp Hnf) as (p' & Hs & He).
  - assumption.
  - rewrite Htok, Hpay. assumption.
  - exists p'. split; [assumption|].
    rewrite He, Htok.
    replace 8%nat with (4 + 4)%nat by reflexivity.
    rewrite <- skipn_skipn, Hpay, Hm. reflexivity.
Qed.

(** X3.  Writing an error packet and reading it back: for a message [m] of
    at most 65527 bytes, a packet scanner in framed mode whose input ahead is
    [ErrorPacket(m).EncodeToPktLine()] followed by anything stops at its next
    [Scan], and [Err()] is [ErrorPacket(m)]: the upper-case header the
    encoder writes is read like a lower-case one. *)
Theorem ErrorPacket_encode_scan
    (p : PacketScanner) (m enc rest : bytes)
    (Hp : ps_framed p)
    (Hlen : len m <= 65527)
    (Henc : ErrorPacket_EncodeToPktLine m = Ret enc)
    (Hpe : ps_pending p = enc ++ rest) :
  exists p',
    PacketScanner_Scan p = Ret (false, p') /\
    PacketScanner_Err p' = Some (RemoteError m).
Proof.
  pose proof (ErrorPacket_EncodeToPktLine_Ret m Hlen) as E.
  remember (hex_fixed true 4 (len (B "ERR " ++ m) + 4) ++ B "ERR " ++ m)
    as enc0 eqn:Eenc.
  assert (He : enc = enc0) by congruence. subst enc.
  rewrite Eenc in Hpe.
  exact (PacketScanner_Scan_ERR_frame true p m rest Hp Hlen Hpe).
Qed.

Lemma ErrorPacket_encode_scan_witness :
  exists p',
    PacketScanner_Scan
      (NewPacketScanner (mkReader (B "000FERR denied!0000") [1%nat] io_EOF))
      = Ret (false, p') /\
    PacketScanner_Err p' = Some (RemoteError (B "denied!")).
Proof.
  refine (ErrorPacket_encode_scan
    (NewPacketScanner (mkReader (B "000FERR denied!0000") [1%nat] io_EOF))
    (B "denied!") (B "000FERR denied!") (B "0000") _ _ _ _).
  - apply NewPacketScanner_framed.
  - cbn. lia.
  - reflexivity.
  - reflexivity.
Defined.

(** ** The special packets *)

(** "PACK" *)
Lemma PacketScanner_Scan_PACK (p : PacketScanner) (rest : bytes) :
  ps_framed p -> ps_pending p = B "PACK" ++ rest ->
  exists p', PacketScanner_Scan p = Ret (true, p') /\
    ps_curr p' = Some PackFileIndicatorPacket /\ ps_err p' = None /\
    packFileMode p' = true /\ sc_live (scanner p') /\
    sc_pending (scanner p') = rest /\
    rd_err (sc_r (scanner p')) = rd_err (sc_r (scanner p)).
Proof.
  intros Hp Hpe.
  assert (Hf : next_frame (ps_pending p) = Token 4)
    by (rewrite Hpe, next_frame_app; [reflexivity|discriminate]).
  destruct (PacketScanner_Scan_Token p 4 Hp Hf)
    as (sc & a & Hs & Hl & Hpe' & Hr & Htk & Hla & Ha).
  destruct Hp as (_ & Hm & _).
  rewrite Hs. unfold PacketScanner_Scan_bytes. rewrite Hm, Htk.
  unfold nbytes, slice_bytes; cbn [arr slen]. rewrite Ha, Hpe.
  cbn [firstn app B list_ascii_of_string bytes_eqb Ascii.eqb Bool.eqb andb].
  eexists. split; [reflexivity|]. cbn [ps_curr ps_err packFileMode scanner].
  repeat split; try assumption; try apply Hl.
  now rewrite Hpe', Hpe.
Qed.

(** X4.  Writing a special packet and reading it back: in framed mode, when
    the input ahead is the encoding of the flush packet ("0000"), of the
    delim packet ("0001") or of the pack-file indicator ("PACK") followed by
    anything, [Scan] returns true with that packet and no error, in front of
    what followed; the indicator, and only it, switches the scanner to
    pack-file mode. *)
Theorem special_packet_encode_scan
    (p : PacketScanner) (q : Packet) (enc rest : bytes)
    (Hp : ps_framed p)
    (Hq : q = FlushPacket \/ q = DelimPacket \/ q = PackFileIndicatorPacket)
    (Henc : Packet_EncodeToPktLine q = Ret enc)
    (Hpe : ps_pending p = enc ++ rest) :
  exists p',
    PacketScanner_Scan p = Ret (true, p') /\
    PacketScanner_Packet p' = Some q /\
    PacketScanner_Err p' = None /\
    packFileMode p' =
      match q with PackFileIndicatorPacket => true | _ => false end /\
    sc_pending (scanner p') = rest.
Proof.
  destruct Hq as [-> | [-> | ->]]; cbn in Henc; injection Henc as <-.
  - destruct (PacketScanner_Scan_wire p FlushPacket (B "0000") rest Hp eq_refl Hpe)
      as (p' & Hs & Hc & Hf & Hpe' & _).
    exists p'. split; [assumption|]. split; [assumption|].
    split; [apply Hf|]. split; [apply Hf|assumption].
  - destruct (PacketScanner_Scan_wire p DelimPacket (B "0001") rest Hp eq_refl Hpe)
      as (p' & Hs & Hc & Hf & Hpe' & _).
    exists p'. split; [assumption|]. split; [assumption|].
    split; [apply Hf|]. split; [apply Hf|assumption].
  - destruct (PacketScanner_Scan_PACK p rest Hp Hpe)
      as (p' & Hs & Hc & He & Hm & _ & Hpe' & _).
    exists p'. repeat split; assumption.
Qed.

Lemma special_packet_encode_scan_witness :
  exists p',
    PacketScanner_Scan (NewPacketScanner (stream "PACKabc")) = Ret (true, p') /\
    PacketScanner_Packet p' = Some PackFileIndicatorPacket /\
    PacketScanner_Err p' = None /\
    packFileMode p' = true /\
    sc_pending (scanner p') = B "abc".
Proof.
  refine (special_packet_encode_scan
    (NewPacketScanner (stream "PACKabc")) PackFileIndicatorPacket
    (B "PACK") (B "abc") _ _ _ _).
  - apply NewPacketScanner_framed.
  - right; right; reflexivity.
  - reflexivity.
  - reflexivity.
Defined.

(** ** The errors of the packet scanner *)

(** In framed mode the second half of [Scan] returns false in two places
    only, each with an error. *)
Lemma PacketScanner_Scan_bytes_false
    (p : PacketScanner) (sc : Scanner) (a : bytes) (n : nat) (p' : PacketScanner) :
  packFileMode p = false -> sc_token sc = Some (mkSlice a n) ->
  (n <= length a)%nat ->
  PacketScanner_Scan_bytes p sc = Ret (false, p') ->
  ps_curr p' = ps_curr p /\
  ((n = 4%nat /\
    ps_err p' = Some (SyntaxError (Text (B "unknown special packet: " ++ firstn n a))))
   \/
   ((8 <= n)%nat /\ firstn 4 (skipn 4 a) = B "ERR " /\
    ps_err p' = Some (RemoteError (skipn 8 (firstn n a))))).
Proof.
  intros Hm Htk Hla.
  unfold PacketScanner_Scan_bytes. rewrite Hm, Htk.
  unfold nbytes, nlen, slice_bytes; cbn [arr slen].
  destruct (bytes_eqb (firstn n a) (B "0000")); [discriminate|].
  destruct (bytes_eqb (firstn n a) (B "0001")); [discriminate|].
  destruct (bytes_eqb (firstn n a) (B "PACK")); [discriminate|].
  destruct (n =? 4)%nat eqn:E4.
  - apply Nat.eqb_eq in E4. intros H. injection H as <-.
    split; [reflexivity|]. left. split; [assumption|reflexivity].
  - unfold nslice_lo_hi, slice_lo_hi, slice_cap. cbn [arr slen].
    destruct ((4 <=? 8)%nat && (8 <=? length a)%nat) eqn:E8; [|discriminate].
    cbn [bind arr slen].
    replace (8 - 4)%nat with 4%nat by reflexivity.
    destruct (bytes_eqb (firstn 4 (skipn 4 a)) (B "ERR ")) eqn:Ee.
    + apply bytes_eqb_eq in Ee.
      unfold nslice_lo, slice_lo. cbn [arr slen].
      destruct (8 <=? n)%nat eqn:En; [|discriminate].
      apply Nat.leb_le in En.
      cbn [bind arr slen]. intros H. injection H as <-.
      split; [reflexivity|]. right. split; [assumption|]. split; [assumption|].
      cbn [ps_err]. do 2 f_equal.
      change (firstn (n - 8) (skipn 8 a) = skipn 8 (firstn n a)).
      rewrite firstn_skipn_swap. do 2 f_equal. lia.
    + unfold nslice_lo, slice_lo. cbn [arr slen].
      destruct (4 <=? n)%nat; cbn [bind]; discriminate.
Qed.

(** What stops a packet scanner in framed mode, by the input ahead. *)
Lemma PacketScanner_Scan_false (p p' : PacketScanner) :
  ps_framed p -> PacketScanner_Scan p = Ret (false, p') ->
  ps_curr p' = ps_curr p /\
  ((next_frame (ps_pending p) = NeedMore /\
    ps_err p' = match rd_err (sc_r (scanner p)) with
                | io_EOF => None
                | e => Some e
                end /\
    (rd_err (sc_r (scanner p)) = io_EOF -> ps_ended p'))
   \/
   (exists hd, next_frame (ps_pending p) = BadHeader hd /\
      ps_err p' = Some (strconv_NumError "ParseUint" hd))
   \/
   (next_frame (ps_pending p) = Token 4 /\
    ps_err p' =
      Some (SyntaxError
              (Text (B "unknown special packet: " ++ firstn 4 (ps_pending p)))))
   \/
   (exists n, next_frame (ps_pending p) = Token n /\ (8 <= n)%nat /\
      firstn 4 (skipn 4 (ps_pending p)) = B "ERR " /\
      ps_err p' = Some (RemoteError (skipn 8 (firstn n (ps_pending p)))))).
Proof.
  intros Hp Hs.
  destruct (next_frame (ps_pending p)) as [|hd|n] eqn:Hf.
  - destruct (PacketScanner_Scan_end p Hp Hf) as (q & Hq & Hc & He & Hend).
    rewrite Hq in Hs. injection Hs as <-.
    split; [assumption|]. left.
    split; [reflexivity|]. split; assumption.
  - destruct (PacketScanner_Scan_BadHeader p hd Hp Hf) as (q & Hq & He).
    assert (Hc : ps_curr q = ps_curr p).
    { destruct Hp as (He0 & Hm & Hl).
      pose proof (bufio_Scan_framed _ Hl) as H.
      unfold framed_result in H. unfold ps_pending in Hf. rewrite Hf in H.
      destruct H as (sc & Hsc & _).
      unfold PacketScanner_Scan in Hq. rewrite He0, Hm, Hsc in Hq.
      cbn [bind negb] in Hq. injection Hq as <-. reflexivity. }
    rewrite Hq in Hs. injection Hs as <-.
    split; [assumption|]. right; left. exists hd. split; [reflexivity|assumption].
  - destruct (PacketScanner_Scan_Token p n Hp Hf)
      as (sc & a & Hsb & Hl & Hpe & Hr & Htk & Hla & Ha).
    rewrite Hsb in Hs.
    destruct (PacketScanner_Scan_bytes_false p sc a n p' (proj1 (proj2 Hp)) Htk Hla Hs)
      as (Hc & [(Hn & He) | (Hn & H48 & He)]).
    + split; [assumption|]. right; right; left. subst n.
      split; [reflexivity|]. now rewrite He, Ha.
    + split; [assumption|]. right; right; right. exists n.
      split; [reflexivity|]. split; [assumption|]. split.
      * rewrite <- H48.
        rewrite !firstn_skipn_swap. f_equal.
        replace (4 + 4)%nat with (Nat.min 8 n) by lia.
        rewrite <- !firstn_firstn. now rewrite Ha.
      * now rewrite He, Ha.
Qed.

(** X5.  What [Err()] can be once [Scan] has returned false in framed mode:
    nil, when the reader ended with [io.EOF] in front of less than a frame;
    the reader's own error; the error of [strconv.ParseUint] for the four
    bytes ahead; [SyntaxError("unknown special packet: ...")] for a token of
    four bytes; or the [ErrorPacket] of a frame of at least 8 bytes.  So
    [bufio.ErrTooLong] and [bufio.ErrAdvanceTooFar] never come from the
    scanner itself: every frame a header can announce fits the buffer.  The
    packet of the last successful [Scan] stays as it was. *)
Theorem PacketScanner_Err_kinds
    (p p' : PacketScanner)
    (Hp : ps_framed p)
    (Hs : PacketScanner_Scan p = Ret (false, p')) :
  PacketScanner_Packet p' = PacketScanner_Packet p /\
  match PacketScanner_Err p' with
  | None =>
      rd_err (sc_r (scanner p)) = io_EOF /\ next_frame (ps_pending p) = NeedMore
  | Some e =>
      (e = rd_err (sc_r (scanner p)) /\ e <> io_EOF /\
       next_frame (ps_pending p) = NeedMore)
      \/ (e = strconv_NumError "ParseUint" (firstn 4 (ps_pending p)) /\
          (4 <= length (ps_pending p))%nat /\
          ParseUint16 (firstn 4 (ps_pending p)) = None)
      \/ (e = SyntaxError
                (Text (B "unknown special packet: " ++ firstn 4 (ps_pending p))) /\
          next_frame (ps_pending p) = Token 4)
      \/ (exists n,
            e = RemoteError (skipn 8 (firstn n (ps_pending p))) /\
            next_frame (ps_pending p) = Token n /\ (8 <= n)%nat /\
            firstn 4 (skipn 4 (ps_pending p)) = B "ERR ")
  end /\
  (PacketScanner_Err p' = Some bufio_ErrTooLong \/
   PacketScanner_Err p' = Some bufio_ErrAdvanceTooFar ->
   PacketScanner_Err p' = Some (rd_err (sc_r (scanner p)))).
Proof.
  destruct (PacketScanner_Scan_false p p' Hp Hs) as (Hc & H).
  split; [assumption|]. unfold PacketScanner_Err.
  destruct H as [(Hf & He & _) | [(hd & Hf & He) | [(Hf & He) | (n & Hf & H8 & H48 & He)]]].
  - rewrite He. destruct (rd_err (sc_r (scanner p))) eqn:Er;
      try (split; [left; repeat split; [discriminate|assumption]|intros _; reflexivity]).
    split; [split; [reflexivity|assumption]|]. intros [H|H]; discriminate H.
  - rewrite He. split; [|intros [H|H]; discriminate H].
    right; left.
    unfold next_frame in Hf.
    destruct (length (ps_pending p) <? 4)%nat eqn:E4; [discriminate|].
    apply Nat.ltb_ge in E4.
    destruct (HasPrefix (ps_pending p) (B "PACK")); [discriminate|].
    destruct (ParseUint16 (firstn 4 (ps_pending p))) as [sz|] eqn:Ep.
    + destruct ((sz =? 0) || (sz =? 1)); [discriminate|].
      destruct (Z.of_nat (length (ps_pending p)) <? sz); discriminate.
    + injection Hf as <-. repeat split; assumption.
  - rewrite He. split; [|intros [H|H]; discriminate H].
    right; right; left. split; [reflexivity|assumption].
  - rewrite He. split; [|intros [H|H]; discriminate H].
    right; right; right. exists n. repeat split; assumption.
Qed.

Lemma PacketScanner_Err_kinds_witness :
  exists p',
    PacketScanner_Scan (NewPacketScanner (stream "zzzz")) = Ret (false, p') /\
    PacketScanner_Err p' = Some (strconv_NumError "ParseUint" (B "zzzz")) /\
    (PacketScanner_Err p' = Some bufio_ErrTooLong \/
     PacketScanner_Err p' = Some bufio_ErrAdvanceTooFar ->
     PacketScanner_Err p' = Some io_EOF).
Proof.
  eexists. split; [vm_compute; reflexivity|].
  split; [reflexivity|].
  refine (proj2 (proj2 (PacketScanner_Err_kinds
    (NewPacketScanner (stream "zzzz")) _ _ _))).
  - apply NewPacketScanner_framed.
  - vm_compute. reflexivity.
Defined.

(** ** After [Scan] has returned false *)

(** A packet scanner that has stopped: with an error, or at the clean end
    of its input. *)
Definition ps_stopped (q : PacketScanner) : Prop :=
  ps_err q <> None \/ ps_ended q.

Lemma ps_stopped_Scan (q : PacketScanner) :
  ps_stopped q ->
  exists q', PacketScanner_Scan q = Ret (false, q') /\
    ps_err q' = ps_err q /\ ps_curr q' = ps_curr q /\ ps_stopped q'.
Proof.
  intros [He|Hend].
  - exists q. unfold PacketScanner_Scan.
    destruct (ps_err q) eqn:E; [|contradiction].
    repeat split; try reflexivity. left. rewrite E. discriminate.
  - destruct (PacketScanner_Scan_ended q Hend) as (q' & Hs & Hc & Hend').
    exists q'. split; [assumption|]. split.
    + destruct Hend as (E & _), Hend' as (E' & _). now rewrite E, E'.
    + split; [assumption|]. now right.
Qed.

Lemma ps_stopped_after (q : PacketScanner) (k : nat) :
  ps_stopped q ->
  ps_stopped (after PacketScanner_Scan k q) /\
  ps_err (after PacketScanner_Scan k q) = ps_err q /\
  ps_curr (after PacketScanner_Scan k q) = ps_curr q.
Proof.
  revert q; induction k as [|k IH]; intros q Hq; [repeat split; assumption|].
  destruct (ps_stopped_Scan q Hq) as (q' & Hs & He & Hc & Hq').
  cbn [after]. rewrite Hs.
  destruct (IH q' Hq') as (H1 & H2 & H3).
  split; [assumption|]. split; congruence.
Qed.

Lemma PacketScanner_Scan_false_stopped (p p' : PacketScanner) :
  ps_framed p -> PacketScanner_Scan p = Ret (false, p') -> ps_stopped p'.
Proof.
  intros Hp Hs.
  destruct (PacketScanner_Scan_false p p' Hp Hs) as (_ & H).
  destruct H as [(_ & He & Hend) | [(hd & _ & He) | [(_ & He) | (n & _ & _ & _ & He)]]];
    try (left; rewrite He; discriminate).
  destruct (rd_err (sc_r (scanner p))) eqn:Er;
    try (left; rewrite He; discriminate).
  right. now apply Hend.
Qed.

(** X6.  [PacketScanner.Scan] stops for good: once it has returned false in
    framed mode, whether for an error or at the end of the input, every
    later call returns false as well, and [Err()] and [Packet()] keep the
    values they had when it first returned false. *)
Theorem PacketScanner_Scan_false_is_final
    (p p' : PacketScanner)
    (Hp : ps_framed p)
    (Hs : PacketScanner_Scan p = Ret (false, p')) :
  forall k, exists p'',
    PacketScanner_Scan (after PacketScanner_Scan k p') = Ret (false, p'') /\
    PacketScanner_Err p'' = PacketScanner_Err p' /\
    PacketScanner_Packet p'' = PacketScanner_Packet p'.
Proof.
  intros k.
  pose proof (PacketScanner_Scan_false_stopped p p' Hp Hs) as Hst.
  destruct (ps_stopped_after p' k Hst) as (Hk & He & Hc).
  destruct (ps_stopped_Scan _ Hk) as (p'' & Hs' & He' & Hc' & _).
  exists p''. unfold PacketScanner_Err, PacketScanner_Packet.
  split; [assumption|]. split; congruence.
Qed.

Lemma PacketScanner_Scan_false_is_final_witness :
  exists p'',
    PacketScanner_Scan
      (after PacketScanner_Scan 7
         (after PacketScanner_Scan 1 (NewPacketScanner (stream "0004"))))
      = Ret (false, p'') /\
    PacketScanner_Err p'' =
      Some (SyntaxError (Text (B "unknown special packet: 0004"))) /\
    PacketScanner_Packet p'' = None.
Proof.
  refine (PacketScanner_Scan_false_is_final
    (NewPacketScanner (stream "0004"))
    (after PacketScanner_Scan 1 (NewPacketScanner (stream "0004"))) _ _ 7%nat).
  - apply NewPacketScanner_framed.
  - vm_compute. reflexivity.
Defined.

(** ** Input that stops inside a frame *)

(** Less than a header, or a header that announces more bytes than there
    are. *)
Definition truncated (d : bytes) : Prop :=
  (length d < 4)%nat \/
  exists sz, ParseUint16 (firstn 4 d) = Some sz /\ len d < sz.

Lemma HasPrefix_firstn_eq (d p : bytes) :
  HasPrefix d p = true -> firstn (length p) d = p.
Proof.
  intros H. apply HasPrefix_inv in H. rewrite H.
  rewrite firstn_app_le by lia. apply firstn_all.
Qed.

Lemma truncated_NeedMore (d : bytes) : truncated d -> next_frame d = NeedMore.
Proof.
  intros [H|(sz & Hp & Hsz)]; unfold next_frame.
  - now replace (length d <? 4)%nat with true by (symmetry; apply Nat.ltb_lt; lia).
  - destruct (length d <? 4)%nat eqn:E4; [reflexivity|].
    apply Nat.ltb_ge in E4.
    destruct (HasPrefix d (B "PACK")) eqn:EP.
    + apply HasPrefix_firstn_eq in EP. cbn [length B list_ascii_of_string] in EP.
      rewrite EP in Hp. discriminate.
    + rewrite Hp. unfold len in Hsz.
      replace ((sz =? 0) || (sz =? 1)) with false
        by (symmetry; apply orb_false_iff; split; apply Z.eqb_neq; lia).
      now replace (Z.of_nat (length d) <? sz) with true
        by (symmetry; apply Z.ltb_lt; lia).
Qed.

(** X7.  A frame cut short by the end of the input is not reported as such:
    [packetSplitFunc] does not look at [atEOF], so when the reader ends with
    [io.EOF] in front of less than a header, or of a header that announces
    more bytes than are left, [PacketScanner.Scan] returns false and [Err()]
    is nil.  The parsers see a plain end of the input: [Err()] is nil for
    the receive-pack and request parsers in their [Begin] state and for the
    upload-pack parser waiting for acknowledgements or reading pack data,
    and [SyntaxError("early EOF")] in the other states; the bytes of the
    cut frame are dropped and [Chunk()] stays as it was. *)
Theorem truncated_frame_at_end_of_input
    (p : PacketScanner)
    (Hp : ps_framed p)
    (Heof : rd_err (sc_r (scanner p)) = io_EOF)
    (Ht : truncated (ps_pending p)) :
  (exists p', PacketScanner_Scan p = Ret (false, p') /\
     PacketScanner_Err p' = None) /\
  (forall st curr, st <> ReceiveResponseEnd -> exists r',
     ReceiveResponse_Scan (mkReceiveResponse p st None curr) = Ret (false, r') /\
     ReceiveResponse_Err r' =
       match st with
       | ReceiveResponseBegin => None
       | _ => Some (SyntaxError (Text (B "early EOF")))
       end /\
     ReceiveResponse_Chunk r' = curr) /\
  (forall st curr, st <> RequestEnd -> exists r',
     Request_Scan (mkRequest p st None curr) = Ret (false, r') /\
     Request_Err r' =
       match st with
       | RequestBegin => None
       | _ => Some (SyntaxError (Text (B "early EOF")))
       end /\
     Request_Chunk r' = curr) /\
  (forall st curr, st <> UploadResponseEnd -> exists r',
     UploadResponse_Scan (mkUploadResponse p st None curr) = Ret (false, r') /\
     UploadResponse_Err r' =
       match st with
       | UploadResponseBeginAcknowledgements | UploadResponseScanPacks => None
       | _ => Some (SyntaxError (Text (B "early EOF")))
       end /\
     UploadResponse_Chunk r' = curr).
Proof.
  pose proof (truncated_NeedMore _ Ht) as Hf.
  destruct (PacketScanner_Scan_end p Hp Hf) as (p' & Hs & _ & He & _).
  rewrite Heof in He.
  split; [now exists p'|]. split; [|split].
  - intros st curr Hst.
    destruct st; try contradiction; eexists;
      unfold ReceiveResponse_Scan;
      cbn [rr_err rr_state rr_scanner rr_curr notnil orb];
      rewrite Hs; cbn [bind negb]; unfold PacketScanner_Err; rewrite He;
      cbn [notnil negb andb]; repeat split.
  - intros st curr Hst.
    destruct st; try contradiction; eexists;
      unfold Request_Scan;
      cbn [rq_err rq_state rq_scanner rq_curr notnil orb];
      rewrite Hs; cbn [bind negb]; unfold PacketScanner_Err; rewrite He;
      cbn [notnil negb andb]; repeat split.
  - intros st curr Hst.
    destruct st; try contradiction; eexists;
      unfold UploadResponse_Scan;
      cbn [ur_err ur_state ur_scanner ur_curr notnil orb];
      rewrite Hs; cbn [bind negb]; unfold PacketScanner_Err; rewrite He;
      cbn [notnil negb]; repeat split.
Qed.

Lemma truncated_frame_at_end_of_input_witness :
  exists r',
    ReceiveResponse_Scan (NewReceiveResponse (stream "0012unpack")) = Ret (false, r') /\
    ReceiveResponse_Err r' = None /\ ReceiveResponse_Chunk r' = None.
Proof.
  refine (proj1 (proj2 (truncated_frame_at_end_of_input
    (NewPacketScanner (stream "0012unpack")) _ _ _)) ReceiveResponseBegin None _).
  - apply NewPacketScanner_framed.
  - reflexivity.
  - right. exists 18. split; [reflexivity|]. vm_compute. reflexivity.
  - discriminate.
Defined.

(** X8.  An error of the reader other than [io.EOF], met in front of less
    than a whole frame, is what [PacketScanner.Err()] returns, and what the
    receive-pack and request parsers return from [Err()] in every state but
    [End]: it takes the place of "early EOF". *)
Theorem reader_error_is_reported
    (p : PacketScanner) (e : error)
    (Hp : ps_framed p)
    (He : rd_err (sc_r (scanner p)) = e)
    (Hne : e <> io_EOF)
    (Ht : truncated (ps_pending p)) :
  (exists p', PacketScanner_Scan p = Ret (false, p') /\
     PacketScanner_Err p' = Some e) /\
  (forall st curr, st <> ReceiveResponseEnd ->
     exists r',
       ReceiveResponse_Scan (mkReceiveResponse p st None curr) = Ret (false, r') /\
       ReceiveResponse_Err r' = Some e) /\
  (forall st curr, st <> RequestEnd ->
     exists r',
       Request_Scan (mkRequest p st None curr) = Ret (false, r') /\
       Request_Err r' = Some e).
Proof.
  pose proof (truncated_NeedMore _ Ht) as Hf.
  destruct (PacketScanner_Scan_end p Hp Hf) as (p' & Hs & _ & Hpe & _).
  rewrite He in Hpe.
  assert (Hpe' : ps_err p' = Some e) by (destruct e; congruence).
  clear Hpe.
  split; [now exists p'|]. split.
  - intros st curr Hst.
    destruct st; try contradiction; eexists;
      unfold ReceiveResponse_Scan;
      cbn [rr_err rr_state rr_scanner rr_curr notnil orb];
      rewrite Hs; cbn [bind negb]; unfold PacketScanner_Err; rewrite Hpe';
      cbn [notnil negb andb]; split; reflexivity.
  - intros st curr Hst. eexists.
    unfold Request_Scan. cbn [rq_err rq_state rq_scanner rq_curr notnil orb].
    destruct st; try contradiction; cbn [orb];
      rewrite Hs; cbn [bind negb]; unfold PacketScanner_Err; rewrite Hpe';
      cbn [notnil negb andb]; split; reflexivity.
Qed.

Lemma reader_error_is_reported_witness :
  exists r',
    Request_Scan
      (mkRequest
         (NewPacketScanner (mkReader (B "000") [] (io_Error "connection reset")))
         RequestScanArguments None None) = Ret (false, r') /\
    Request_Err r' = Some (io_Error "connection reset").
Proof.
  refine (proj2 (proj2 (reader_error_is_reported
    (NewPacketScanner (mkReader (B "000") [] (io_Error "connection reset")))
    (io_Error "connection reset") _ _ _ _)) RequestScanArguments None _).
  - apply NewPacketScanner_framed.
  - reflexivity.
  - discriminate.
  - left. cbn. lia.
  - discriminate.
Defined.

(** ** Pack-file mode *)

(** *** [bufio.Scanner.Scan] with the split function of pack-file mode *)

(** Bytes in the buffer: they are the token, all of them. *)
Lemma bufio_Scan_token_pack_data (s : Scanner) :
  sc_live s -> (sc_start s < sc_end s)%nat ->
  exists s',
    bufio_Scan_token (packetSplitFunc true) s = Ret (inl (true, s')) /\
    sc_r s' = sc_r s /\ sc_buf s' = sc_buf s /\
    sc_start s' = sc_end s /\ sc_end s' = sc_end s /\
    sc_err s' = None /\ sc_empties s' = O /\
    sc_token s' =
      Some (mkSlice (skipn (sc_start s) (sc_buf s)) (sc_end s - sc_start s)).
Proof.
  intros [[Hb Hm] He] Hlt.
  unfold bufio_Scan_token.
  replace (sc_start s <? sc_end s)%nat with true by (symmetry; apply Nat.ltb_lt; lia).
  cbn [orb]. unfold packetSplitFunc. cbn [bind].
  unfold sc_data.
  destruct (sc_buf s) as [|x buf] eqn:Eb; [cbn [length] in Hb; lia|].
  rewrite <- Eb. cbn [nlen slen].
  replace (sc_end s - sc_start s <? sc_end s - sc_start s)%nat with false
    by (symmetry; apply Nat.ltb_ge; lia).
  rewrite He. cbn [notnil negb orb].
  eexists. split; [reflexivity|].
  cbn [sc_r sc_buf sc_start sc_end sc_err sc_empties sc_token].
  repeat split. lia.
Qed.

(** Nothing in the buffer and no error yet: the first half of the iteration
    does not call the split function. *)
Lemma bufio_Scan_token_idle (split : SplitFunc) (s : Scanner) :
  sc_start s = sc_end s -> sc_err s = None ->
  bufio_Scan_token split s = Ret (inr s).
Proof.
  intros Hs He. unfold bufio_Scan_token. rewrite He, Hs.
  now rewrite Nat.ltb_irrefl.
Qed.

(** Nothing in the buffer and the reader has failed: the split function
    returns the empty rest of the buffer, a token that is not nil, and
    [Scan] returns true with it. *)
Lemma bufio_Scan_token_pack_eof (s : Scanner) (e : error) :
  sc_bounds s -> sc_start s = sc_end s -> sc_err s = Some e ->
  sc_buf s <> [] -> (sc_empties s < maxConsecutiveEmptyReads)%nat ->
  exists s',
    bufio_Scan_token (packetSplitFunc true) s = Ret (inl (true, s')) /\
    sc_token s' <> None /\ nlen (sc_token s') = O /\
    sc_r s' = sc_r s /\ sc_buf s' = sc_buf s /\
    sc_start s' = sc_start s /\ sc_end s' = sc_end s /\
    sc_err s' = Some e /\ sc_empties s' = S (sc_empties s).
Proof.
  intros [Hb Hm] Hs He Hbuf Hemp.
  unfold bufio_Scan_token. rewrite He. cbn [notnil orb].
  rewrite orb_true_r.
  unfold packetSplitFunc. cbn [bind].
  unfold sc_data.
  destruct (sc_buf s) as [|x buf] eqn:Eb; [contradiction|].
  rewrite <- Eb. cbn [nlen slen].
  rewrite Hs, Nat.sub_diag. cbn [Nat.ltb Nat.leb negb orb].
  unfold maxConsecutiveEmptyReads in *.
  replace (100 <=? sc_empties s)%nat with false
    by (symmetry; apply Nat.leb_gt; lia).
  eexists. split; [reflexivity|].
  cbn [sc_r sc_buf sc_start sc_end sc_err sc_empties sc_token nlen slen].
  repeat split; try lia. discriminate.
Qed.

Lemma setErr_empties (s : Scanner) (e : error) :
  sc_empties (setErr s e) = sc_empties s.
Proof. unfold setErr. destruct (sc_err s) as [[]|]; reflexivity. Qed.

Lemma setErr_buf (s : Scanner) (e : error) :
  sc_buf (setErr s e) = sc_buf s.
Proof. unfold setErr. destruct (sc_err s) as [[]|]; reflexivity. Qed.

(** Reading never raises the count of empty tokens. *)
Lemma read_loop_empties (k : nat) (s : Scanner) :
  (sc_empties (read_loop k s) <= sc_empties s)%nat.
Proof.
  revert s; induction k as [|k IH]; intros s; rewrite read_loop_eq;
    destruct (Reader_Read (sc_r s) (length (sc_buf s) - sc_end s)) as [[bs e] r'];
    cbv zeta; destruct e as [err|].
  - rewrite setErr_empties. cbn. lia.
  - destruct (0 <? length bs)%nat.
    + cbn. lia.
    + rewrite setErr_empties. cbn. lia.
  - rewrite setErr_empties. cbn. lia.
  - destruct (0 <? length bs)%nat.
    + cbn. lia.
    + etransitivity; [apply IH|]. cbn. lia.
Qed.

Lemma read_loop_eof_buf (k : nat) (s : Scanner) :
  rd_data (sc_r s) = [] -> sc_buf (read_loop k s) = sc_buf s.
Proof.
  intros Hd. rewrite read_loop_eq. unfold Reader_Read. rewrite Hd.
  cbn [length app]. rewrite Nat.add_0_r, firstn_skipn.
  now rewrite setErr_buf.
Qed.

Lemma inr_eq {A C : Type} (x y : C) : @inr A C x = inr y -> x = y.
Proof. intros H. now injection H. Qed.

Lemma bufio_Scan_more_empties (s s' : Scanner) :
  bufio_Scan_more s = inr s' -> (sc_empties s' <= sc_empties s)%nat.
Proof.
  unfold bufio_Scan_more.
  destruct (sc_err s); [discriminate|].
  set (sa := if (_ && _)%bool then _ else s).
  assert (Ha : sc_empties sa = sc_empties s)
    by (unfold sa; destruct (_ && _)%bool; reflexivity).
  clearbody sa.
  destruct (sc_end sa =? length (sc_buf sa))%nat.
  - destruct (MaxScanTokenSize <=? length (sc_buf sa))%nat; [discriminate|].
    intros H. apply inr_eq in H. rewrite <- H.
    etransitivity; [apply read_loop_empties|]. cbn [sc_empties]. lia.
  - intros H. apply inr_eq in H. rewrite <- H.
    etransitivity; [apply read_loop_empties|]. lia.
Qed.

Lemma sc_buffered_nil (s : Scanner) :
  sc_bounds s -> sc_buffered s = [] -> sc_start s = sc_end s.
Proof.
  intros Hb H. pose proof (sc_buffered_length s Hb) as Hl.
  rewrite H in Hl. cbn [length] in Hl. destruct Hb as [Hb _]. lia.
Qed.

Lemma sc_buffered_idle (s : Scanner) :
  sc_start s = sc_end s -> sc_buffered s = [].
Proof. intros H. unfold sc_buffered. now rewrite H, Nat.sub_diag. Qed.

(** Nothing in the buffer and the reader has more: the iteration reads at
    least one byte. *)
Lemma bufio_Scan_iter_pack_more (s : Scanner) :
  sc_live s -> sc_buffered s = [] -> rd_data (sc_r s) <> [] ->
  exists s2,
    bufio_Scan_iter (packetSplitFunc true) s = Ret (inr s2) /\
    sc_live s2 /\ sc_pending s2 = rd_data (sc_r s) /\
    (length (rd_data (sc_r s2)) < length (rd_data (sc_r s)))%nat /\
    rd_err (sc_r s2) = rd_err (sc_r s).
Proof.
  intros Hl Hbuf Hd. pose proof Hl as [Hb He].
  unfold bufio_Scan_iter.
  rewrite bufio_Scan_token_idle by (try apply sc_buffered_nil; assumption).
  cbn [bind].
  destruct (bufio_Scan_more_room s Hl)
    as (s1 & Hm & Hb1 & He1 & Hfree & Hd1 & Hr1); [now rewrite Hbuf|].
  rewrite Hm.
  destruct (read_loop_data maxConsecutiveEmptyReads s1 Hb1 He1 Hfree)
    as (Hl2 & Hp2 & Hlt & Hre); [now rewrite Hr1|].
  eexists. split; [reflexivity|].
  split; [assumption|].
  split; [rewrite Hp2; unfold sc_pending; now rewrite Hd1, Hr1, Hbuf|].
  split; [now rewrite Hr1 in Hlt|now rewrite Hre, Hr1].
Qed.

(** Nothing in the buffer and nothing left to read: the iteration records
    the reader's error, whatever it is. *)
Lemma bufio_Scan_iter_pack_last (s : Scanner) :
  sc_live s -> sc_buffered s = [] -> rd_data (sc_r s) = [] ->
  exists s2,
    bufio_Scan_iter (packetSplitFunc true) s = Ret (inr s2) /\
    sc_bounds s2 /\ sc_start s2 = sc_end s2 /\
    sc_err s2 = Some (rd_err (sc_r s)) /\ sc_buf s2 <> [] /\
    (sc_empties s2 <= sc_empties s)%nat /\ sc_r s2 = sc_r s.
Proof.
  intros Hl Hbuf Hd. pose proof Hl as [Hb He].
  unfold bufio_Scan_iter.
  rewrite bufio_Scan_token_idle by (try apply sc_buffered_nil; assumption).
  cbn [bind].
  destruct (bufio_Scan_more_room s Hl)
    as (s1 & Hm & Hb1 & He1 & Hfree & Hd1 & Hr1); [now rewrite Hbuf|].
  pose proof (bufio_Scan_more_empties s _ Hm) as Hemp.
  rewrite Hm.
  destruct (read_loop_eof maxConsecutiveEmptyReads s1 Hb1 He1)
    as (Hb2 & He2 & Hd2 & Hr2); [now rewrite Hr1|].
  pose proof (read_loop_eof_buf maxConsecutiveEmptyReads s1) as Hbuf2.
  rewrite Hr1 in Hbuf2. specialize (Hbuf2 Hd).
  eexists. split; [reflexivity|].
  split; [assumption|]. split.
  { apply sc_buffered_nil; [assumption|]. now rewrite Hd2, Hd1. }
  split; [now rewrite He2, Hr1|]. split.
  { rewrite Hbuf2. intros E. rewrite E in Hfree. cbn [length] in Hfree. lia. }
  split; [assumption|]. now rewrite Hr2.
Qed.

(** *** [PacketScanner.Scan] in pack-file mode *)

(** A packet scanner in pack-file mode that has met no error. *)
Definition ps_packing (p : PacketScanner) : Prop :=
  ps_err p = None /\ packFileMode p = true /\
  sc_live (scanner p) /\ sc_empties (scanner p) = O.

(** The buffered bytes are handed on as one packet. *)
Lemma PacketScanner_Scan_pack_buffered (p : PacketScanner) :
  ps_packing p -> sc_buffered (scanner p) <> [] ->
  exists p',
    PacketScanner_Scan p = Ret (true, p') /\
    ps_curr p' = Some (PackFilePacket (sc_buffered (scanner p))) /\
    ps_packing p' /\ sc_pending (scanner p') = rd_data (sc_r (scanner p)) /\
    rd_err (sc_r (scanner p')) = rd_err (sc_r (scanner p)).
Proof.
  intros (He & Hm & Hl & Hemp) Hbuf.
  assert (Hlt : (sc_start (scanner p) < sc_end (scanner p))%nat).
  { destruct (Nat.lt_ge_cases (sc_start (scanner p)) (sc_end (scanner p)))
      as [H|H]; [assumption|].
    exfalso. apply Hbuf. unfold sc_buffered.
    replace (sc_end (scanner p) - sc_start (scanner p))%nat with O by lia.
    reflexivity. }
  destruct (bufio_Scan_token_pack_data _ Hl Hlt)
    as (s' & Ht & Hr & Hb' & Hs' & He' & Herr' & Hemp' & Htok).
  unfold PacketScanner_Scan. rewrite He, Hm.
  unfold bufio_Scan, bufio_fuel. cbn [bufio_Scan_loop].
  unfold bufio_Scan_iter. rewrite Ht. cbn [bind negb].
  unfold PacketScanner_Scan_bytes. rewrite Hm, Htok.
  cbn [nlen slen nbytes slice_bytes arr].
  replace (sc_end (scanner p) - sc_start (scanner p) =? 0)%nat with false
    by (symmetry; apply Nat.eqb_neq; lia).
  eexists. split; [reflexivity|].
  cbn [ps_curr]. split; [reflexivity|].
  unfold ps_packing, sc_live, sc_bounds, sc_pending, sc_buffered.
  cbn [ps_err packFileMode scanner].
  rewrite Hb', Hs', He', Herr', Hemp', Hr, Nat.sub_diag.
  destruct Hl as [[Hb Hmax] _].
  repeat split; try lia; try assumption.
Qed.

(** With an empty buffer, what the next [Read] returns is handed on. *)
Lemma PacketScanner_Scan_pack_read (p : PacketScanner) :
  ps_packing p -> sc_buffered (scanner p) = [] ->
  rd_data (sc_r (scanner p)) <> [] ->
  exists p' c,
    PacketScanner_Scan p = Ret (true, p') /\
    ps_curr p' = Some (PackFilePacket c) /\ c <> [] /\
    ps_packing p' /\ rd_data (sc_r (scanner p)) = c ++ sc_pending (scanner p') /\
    rd_err (sc_r (scanner p')) = rd_err (sc_r (scanner p)).
Proof.
  intros (He & Hm & Hl & Hemp) Hbuf Hd.
  destruct (bufio_Scan_iter_pack_more _ Hl Hbuf Hd)
    as (s2 & Hi & Hl2 & Hp2 & Hlt & Hre).
  assert (Hbuf2 : sc_buffered s2 <> []).
  { intros E. unfold sc_pending in Hp2. rewrite E in Hp2. cbn [app] in Hp2.
    rewrite Hp2 in Hlt. lia. }
  assert (Hlt2 : (sc_start s2 < sc_end s2)%nat).
  { destruct (Nat.lt_ge_cases (sc_start s2) (sc_end s2)) as [H|H]; [assumption|].
    exfalso. apply Hbuf2. unfold sc_buffered.
    replace (sc_end s2 - sc_start s2)%nat with O by lia. reflexivity. }
  destruct (bufio_Scan_token_pack_data _ Hl2 Hlt2)
    as (s' & Ht & Hr & Hb' & Hs' & He' & Herr' & Hemp' & Htok).
  unfold PacketScanner_Scan. rewrite He, Hm.
  unfold bufio_Scan, bufio_fuel.
  destruct (rd_data (sc_r (scanner p))) as [|x data] eqn:Ed; [contradiction|].
  rewrite <- Ed in *. cbn [bufio_Scan_loop].
  rewrite Hi. cbn [bind].
  destruct (length (rd_data (sc_r (scanner p)))) as [|n] eqn:En; [lia|].
  cbn [bufio_Scan_loop].
  unfold bufio_Scan_iter. rewrite Ht. cbn [bind negb].
  unfold PacketScanner_Scan_bytes. rewrite Hm, Htok.
  cbn [nlen slen nbytes slice_bytes arr].
  replace (sc_end s2 - sc_start s2 =? 0)%nat with false
    by (symmetry; apply Nat.eqb_neq; lia).
  exists (mkPacketScanner None
            (Some (PackFilePacket
                     (firstn (sc_end s2 - sc_start s2) (skipn (sc_start s2) (sc_buf s2)))))
            true s'), (sc_buffered s2).
  split; [reflexivity|]. split; [reflexivity|]. split; [assumption|].
  unfold ps_packing, sc_live, sc_bounds, sc_pending.
  cbn [ps_err packFileMode scanner].
  assert (Hb0 : sc_buffered s' = [])
    by (apply sc_buffered_idle; now rewrite Hs', He').
  rewrite Hb0, Hb', Hs', He', Herr', Hemp', Hr.
  destruct Hl2 as [[Hb Hmax] _].
  repeat split; try lia; try assumption.
  rewrite <- Hp2. reflexivity.
Qed.

(** A packet scanner in pack-file mode past the end of its input: the
    reader has failed, the buffer is used up, and [bufio.Scanner] has
    returned [k] empty tokens in a row. *)
Definition ps_pack_over (k : nat) (p : PacketScanner) : Prop :=
  ps_err p = None /\ packFileMode p = true /\
  sc_bounds (scanner p) /\ sc_start (scanner p) = sc_end (scanner p) /\
  sc_err (scanner p) <> None /\ sc_buf (scanner p) <> [] /\
  sc_empties (scanner p) = k.

(** With an empty buffer at the end of the input, [Scan] returns false, and
    the reader's error is not kept. *)
Lemma PacketScanner_Scan_pack_end (p : PacketScanner) :
  ps_packing p -> sc_buffered (scanner p) = [] ->
  rd_data (sc_r (scanner p)) = [] ->
  exists p',
    PacketScanner_Scan p = Ret (false, p') /\
    ps_err p' = None /\ ps_curr p' = ps_curr p /\ ps_pack_over 1 p'.
Proof.
  intros (He & Hm & Hl & Hemp) Hbuf Hd.
  destruct (bufio_Scan_iter_pack_last _ Hl Hbuf Hd)
    as (s2 & Hi & Hb2 & Hs2 & He2 & Hbuf2 & Hemp2 & Hr2).
  destruct (bufio_Scan_token_pack_eof s2 _ Hb2 Hs2 He2 Hbuf2)
    as (s' & Ht & Htok & Hlen & Hr' & Hb' & Hst' & Hen' & Herr' & Hemp');
    [unfold maxConsecutiveEmptyReads; lia|].
  unfold PacketScanner_Scan. rewrite He, Hm.
  unfold bufio_Scan, bufio_fuel. rewrite Hd.
  cbn [length bufio_Scan_loop].
  rewrite Hi. cbn [bind].
  unfold bufio_Scan_iter. rewrite Ht. cbn [bind negb].
  unfold PacketScanner_Scan_bytes. rewrite Hm, Hlen.
  cbn [Nat.eqb].
  eexists. split; [reflexivity|]. split; [reflexivity|]. split; [reflexivity|].
  unfold ps_pack_over, sc_bounds. cbn [ps_err packFileMode scanner].
  rewrite Hb', Hst', Hen', Herr', Hemp'.
  destruct Hb2 as [Hb2 Hm2].
  repeat split; try assumption; try lia. discriminate.
Qed.

(** All the input ahead, cut as the reader hands it out. *)
Lemma PacketScanner_pack_run (n : nat) (p : PacketScanner) :
  (length (sc_pending (scanner p)) <= n)%nat -> ps_packing p ->
  exists chunks p',
    runs PacketScanner_Scan PacketScanner_Packet p
      (map (fun c => Some (PackFilePacket c)) chunks) p' /\
    concat chunks = sc_pending (scanner p) /\
    Forall (fun c => c <> []) chunks /\
    ps_err p' = None /\ ps_pack_over 1 p'.
Proof.
  revert p; induction n as [|n IH]; intros p Hn Hp.
  - assert (Hpe : sc_pending (scanner p) = [])
      by (destruct (sc_pending (scanner p)); [reflexivity|cbn in Hn; lia]).
    unfold sc_pending in Hpe. apply app_eq_nil in Hpe as [Hb Hd].
    destruct (PacketScanner_Scan_pack_end p Hp Hb Hd) as (p' & Hs & He & _ & Hm).
    exists [], p'. split; [now apply runs_stop|].
    unfold sc_pending. rewrite Hb, Hd.
    split; [reflexivity|]. split; [constructor|]. split; assumption.
  - destruct (sc_buffered (scanner p)) as [|x b] eqn:Hb.
    + destruct (rd_data (sc_r (scanner p))) as [|y d] eqn:Hd.
      * destruct (PacketScanner_Scan_pack_end p Hp Hb Hd) as (p' & Hs & He & _ & Hm).
        exists [], p'. split; [now apply runs_stop|].
        unfold sc_pending. rewrite Hb, Hd.
        split; [reflexivity|]. split; [constructor|]. split; assumption.
      * destruct (PacketScanner_Scan_pack_read p Hp Hb)
          as (p1 & c & Hs & Hc & Hne & Hp1 & Hsplit & _);
          [rewrite Hd; discriminate|].
        assert (Hn1 : (length (sc_pending (scanner p1)) <= n)%nat).
        { unfold sc_pending in Hn at 1. rewrite Hb, Hsplit in Hn.
          cbn [app] in Hn. rewrite length_app in Hn.
          destruct c; [contradiction|cbn [length] in Hn; lia]. }
        destruct (IH p1 Hn1 Hp1) as (chunks & p' & Hruns & Hcat & Hall & He & Hm).
        exists (c :: chunks), p'. split.
        { cbn [map]. eapply runs_cons; [exact Hs|exact Hc|exact Hruns]. }
        split.
        { cbn [concat]. rewrite Hcat. unfold sc_pending at 2.
          rewrite Hb, Hsplit. reflexivity. }
        split; [now constructor|]. split; assumption.
    + destruct (PacketScanner_Scan_pack_buffered p Hp)
        as (p1 & Hs & Hc & Hp1 & Hpe1 & _); [rewrite Hb; discriminate|].
      assert (Hn1 : (length (sc_pending (scanner p1)) <= n)%nat).
      { rewrite Hpe1. unfold sc_pending in Hn. rewrite Hb in Hn.
        cbn [app length] in Hn. rewrite length_app in Hn. cbn [length] in Hn. lia. }
      destruct (IH p1 Hn1 Hp1) as (chunks & p' & Hruns & Hcat & Hall & He & Hm).
      exists (sc_buffered (scanner p) :: chunks), p'. split.
      { cbn [map]. eapply runs_cons; [exact Hs|exact Hc|exact Hruns]. }
      split.
      { cbn [concat]. rewrite Hcat, Hpe1. reflexivity. }
      split; [|split; assumption].
      constructor; [rewrite Hb; discriminate|assumption].
Qed.

(** *** From the pack-file indicator on *)

Lemma Ret_eq {A : Type} (x y : A) : Ret x = Ret y -> x = y.
Proof. intros H. now injection H. Qed.

Lemma inl_eq {A C : Type} (x y : A) : @inl A C x = inl y -> x = y.
Proof. intros H. now injection H. Qed.

Lemma pair_eq {A C : Type} (a a' : A) (c c' : C) :
  (a, c) = (a', c') -> a = a' /\ c = c'.
Proof. intros H. now injection H. Qed.

(** A token returned while no error is recorded resets the count of empty
    tokens. *)
Lemma bufio_Scan_token_true_empties (split : SplitFunc) (s s' : Scanner) :
  bufio_Scan_token split s = Ret (inl (true, s')) ->
  sc_err s' = None -> sc_empties s' = O.
Proof.
  unfold bufio_Scan_token.
  destruct ((sc_start s <? sc_end s)%nat || notnil (sc_err s)); [|discriminate].
  destruct (split (sc_data s) (notnil (sc_err s))) as [[[adv tok] err]|];
    cbn [bind]; [|discriminate].
  destruct err as [e|].
  { intros H. apply Ret_eq, inl_eq, pair_eq in H as [H _]. discriminate H. }
  destruct (sc_end s - sc_start s <? adv)%nat.
  { intros H. apply Ret_eq, inl_eq, pair_eq in H as [H _]. discriminate H. }
  destruct tok as [tok|]; [|discriminate].
  destruct (negb (notnil (sc_err s)) || (0 <? adv)%nat) eqn:E.
  - intros H. apply Ret_eq, inl_eq, pair_eq in H as [_ H]. rewrite <- H.
    reflexivity.
  - destruct (maxConsecutiveEmptyReads <? S (sc_empties s))%nat; [discriminate|].
    intros H. apply Ret_eq, inl_eq, pair_eq in H as [_ H]. rewrite <- H.
    cbn [sc_err]. intros He. rewrite He in E. discriminate E.
Qed.

Lemma bufio_Scan_more_inl_false (s : Scanner) (b : bool) (s' : Scanner) :
  bufio_Scan_more s = inl (b, s') -> b = false.
Proof.
  unfold bufio_Scan_more.
  destruct (sc_err s).
  { intros H. apply inl_eq, pair_eq in H as [H _]. now symmetry. }
  set (sa := if (_ && _)%bool then _ else s). clearbody sa.
  destruct (sc_end sa =? length (sc_buf sa))%nat; [|discriminate].
  destruct (MaxScanTokenSize <=? length (sc_buf sa))%nat; [|discriminate].
  intros H. apply inl_eq, pair_eq in H as [H _]. now symmetry.
Qed.

Lemma bufio_Scan_loop_true_empties
    (fuel : nat) (split : SplitFunc) (s s' : Scanner) :
  bufio_Scan_loop fuel split s = Ret (true, s') ->
  sc_err s' = None -> sc_empties s' = O.
Proof.
  revert s; induction fuel as [|fuel IH]; intros s; [discriminate|].
  cbn [bufio_Scan_loop]. unfold bufio_Scan_iter.
  destruct (bufio_Scan_token split s) as [[[b s1]|s1]|] eqn:Et; cbn [bind];
    [| |discriminate].
  - intros H. apply Ret_eq, pair_eq in H as [Hb Hs]. subst b s1.
    now apply bufio_Scan_token_true_empties with split s.
  - destruct (bufio_Scan_more s1) as [[b s2]|s2] eqn:Em.
    + intros H. apply Ret_eq, pair_eq in H as [Hb Hs]. subst b.
      apply bufio_Scan_more_inl_false in Em. discriminate Em.
    + apply IH.
Qed.

(** The pack-file indicator takes the packet scanner from framed mode to
    pack-file mode. *)
Lemma PacketScanner_Scan_PACK_packing (p : PacketScanner) (rest : bytes) :
  ps_framed p -> ps_pending p = B "PACK" ++ rest ->
  exists p', PacketScanner_Scan p = Ret (true, p') /\
    ps_curr p' = Some PackFileIndicatorPacket /\ ps_packing p' /\
    sc_pending (scanner p') = rest /\
    rd_err (sc_r (scanner p')) = rd_err (sc_r (scanner p)).
Proof.
  intros Hp Hpe. pose proof Hp as (He & Hm & Hl).
  assert (Hf : next_frame (sc_pending (scanner p)) = Token 4).
  { fold (ps_pending p). rewrite Hpe, next_frame_app; [reflexivity|discriminate]. }
  pose proof (bufio_Scan_framed _ Hl) as H.
  unfold framed_result in H. rewrite Hf in H.
  destruct H as (sc & a & Hs & Hl' & Hpe' & Hr & Htk & Hla & Ha).
  pose proof (bufio_Scan_loop_true_empties _ _ _ _ Hs (proj2 Hl')) as Hemp.
  unfold PacketScanner_Scan. rewrite He, Hm, Hs. cbn [bind negb].
  unfold PacketScanner_Scan_bytes. rewrite Hm, Htk.
  unfold nbytes, slice_bytes; cbn [arr slen].
  fold (ps_pending p) in Ha, Hpe'. rewrite Ha, Hpe.
  cbn [firstn app B list_ascii_of_string bytes_eqb Ascii.eqb Bool.eqb andb].
  eexists. split; [reflexivity|]. cbn [ps_curr].
  split; [reflexivity|].
  unfold ps_packing. cbn [ps_err packFileMode scanner].
  repeat split; try assumption; try apply Hl'.
  now rewrite Hpe', Hpe.
Qed.

(** Writing pack-file packets joins their contents. *)
Lemma encode_all_PackFilePackets (chunks : list bytes) :
  encode_all Packet_EncodeToPktLine
    (map (fun c => Some (PackFilePacket c)) chunks) = Ret (concat chunks).
Proof.
  induction chunks as [|c chunks IH]; [reflexivity|].
  cbn [map encode_all Packet_EncodeToPktLine PackFilePacket_EncodeToPktLine bind concat].
  rewrite IH. reflexivity.
Qed.

(** X9.  Pack-file mode hands the bytes on unchanged.  When the input ahead
    of a packet scanner in framed mode is "PACK" followed by any bytes
    [rest], its [Scan] returns the pack-file indicator and then pack-file
    packets, none of them empty, whose contents joined in order are exactly
    [rest], however the reader cuts its reads; writing these packets with
    [EncodeToPktLine] gives the input back byte for byte.  Then [Scan]
    returns false and [Err()] is nil, whatever error the reader ended with:
    in this mode an error of the reader is not reported. *)
Theorem pack_file_mode_passes_bytes_through
    (p : PacketScanner) (rest : bytes)
    (Hp : ps_framed p)
    (Hpe : ps_pending p = B "PACK" ++ rest) :
  exists chunks p',
    runs PacketScanner_Scan PacketScanner_Packet p
      (Some PackFileIndicatorPacket
         :: map (fun c => Some (PackFilePacket c)) chunks) p' /\
    concat chunks = rest /\
    Forall (fun c => c <> []) chunks /\
    encode_all Packet_EncodeToPktLine
      (Some PackFileIndicatorPacket
         :: map (fun c => Some (PackFilePacket c)) chunks)
      = Ret (B "PACK" ++ rest) /\
    PacketScanner_Err p' = None.
Proof.
  destruct (PacketScanner_Scan_PACK_packing p rest Hp Hpe)
    as (p1 & Hs & Hc & Hp1 & Hpe1 & _).
  destruct (PacketScanner_pack_run _ p1 (Nat.le_refl _) Hp1)
    as (chunks & p' & Hruns & Hcat & Hall & He & _).
  exists chunks, p'. split.
  - eapply runs_cons; [exact Hs|exact Hc|exact Hruns].
  - rewrite Hpe1 in Hcat.
    split; [assumption|]. split; [assumption|]. split; [|assumption].
    cbn [encode_all Packet_EncodeToPktLine PackFileIndicatorPacket_EncodeToPktLine bind].
    rewrite encode_all_PackFilePackets, Hcat. reflexivity.
Qed.

Lemma pack_file_mode_passes_bytes_through_witness :
  exists chunks p',
    runs PacketScanner_Scan PacketScanner_Packet
      (NewPacketScanner
         (mkReader (B "PACKabcdef") [5%nat; 0%nat] (io_Error "connection reset")))
      (Some PackFileIndicatorPacket
         :: map (fun c => Some (PackFilePacket c)) chunks) p' /\
    concat chunks = B "abcdef" /\
    Forall (fun c => c <> []) chunks /\
    encode_all Packet_EncodeToPktLine
      (Some PackFileIndicatorPacket
         :: map (fun c => Some (PackFilePacket c)) chunks)
      = Ret (B "PACKabcdef") /\
    PacketScanner_Err p' = None.
Proof.
  refine (pack_file_mode_passes_bytes_through
    (NewPacketScanner
       (mkReader (B "PACKabcdef") [5%nat; 0%nat] (io_Error "connection reset")))
    (B "abcdef") _ _).
  - apply NewPacketScanner_framed.
  - reflexivity.
Defined.

(** What that run is, for the reader of the witness: the bytes come in three
    reads, and so in three packets. *)
Example pack_file_mode_example :
  exists p',
    run PacketScanner_Scan PacketScanner_Packet 10
      (NewPacketScanner
         (mkReader (B "PACKabcdef") [5%nat; 0%nat] (io_Error "connection reset")))
      = Ret (Some ([Some PackFileIndicatorPacket;
                    Some (PackFilePacket (B "ab"));
                    Some (PackFilePacket (B "c"));
                    Some (PackFilePacket (B "def"))], p')) /\
    PacketScanner_Err p' = None.
Proof. eexists. split; [vm_compute; reflexivity|reflexivity]. Qed.

(** *** The upload-pack response parser over a pack file *)

Definition PackStream_chunk (c : bytes) : UploadResponseChunk :=
  mkUploadResponseChunk [] [] false [] [] false c None false.

(** In the state [ScanPacks] the parser turns a run of pack-file packets
    into the same run of [PackStream] chunks. *)
Lemma UploadResponse_pack_run (chunks : list bytes) :
  forall (p p' : PacketScanner) (curr : option UploadResponseChunk),
    ps_err p' = None ->
    runs PacketScanner_Scan PacketScanner_Packet p
      (map (fun c => Some (PackFilePacket c)) chunks) p' ->
    exists r',
      runs UploadResponse_Scan UploadResponse_Chunk
        (mkUploadResponse p UploadResponseScanPacks None curr)
        (map (fun c => Some (PackStream_chunk c)) chunks) r' /\
      UploadResponse_Err r' = None /\ ur_state r' = UploadResponseScanPacks.
Proof.
  induction chunks as [|c chunks IH]; intros p p' curr He Hruns.
  - inversion Hruns as [r0 r0' Hs|]; subst.
    eexists. split.
    + apply runs_stop. unfold UploadResponse_Scan.
      cbn [ur_err ur_state ur_scanner ur_curr notnil orb].
      rewrite Hs. cbn [bind negb]. unfold PacketScanner_Err. rewrite He.
      cbn [notnil negb]. reflexivity.
    + split; reflexivity.
  - cbn [map] in Hruns.
    inversion Hruns as [|r0 p1 cs r0' Hs Hruns' E0 [Hc Hcs] E2]; subst.
    destruct (IH p1 p' (Some (PackStream_chunk c)) He Hruns') as (r' & Hr & Hresult).
    exists r'. split; [|assumption].
    cbn [map].
    apply runs_cons with
      (r1 := mkUploadResponse p1 UploadResponseScanPacks None
               (Some (PackStream_chunk c)));
      [|reflexivity|exact Hr].
    unfold UploadResponse_Scan.
    cbn [ur_err ur_state ur_scanner ur_curr notnil orb].
    rewrite Hs. cbn [bind negb]. unfold PacketScanner_Packet in *. rewrite Hc.
    reflexivity.
Qed.

(** X10.  The upload-pack response parser over a pack file: in any state
    after the first packet and before the end, when the input ahead is
    "PACK" followed by any bytes [rest], [Scan] returns true for the
    indicator, with the chunk of the call before it still current, and then
    yields [PackStream] chunks, none empty, whose contents joined in order
    are exactly [rest]; the end of the input then ends the response with a
    nil [Err()], in the state [ScanPacks] and without an [EndOfRequest]
    chunk. *)
Theorem upload_pack_file_stream
    (r : UploadResponse) (rest : bytes)
    (Herr : ur_err r = None)
    (Hst : ur_state r <> UploadResponseBegin /\ ur_state r <> UploadResponseEnd)
    (Hp : ps_framed (ur_scanner r))
    (Hpe : ps_pending (ur_scanner r) = B "PACK" ++ rest) :
  exists chunks r',
    runs UploadResponse_Scan UploadResponse_Chunk r
      (UploadResponse_Chunk r
         :: map (fun c => Some (PackStream_chunk c)) chunks) r' /\
    concat chunks = rest /\
    Forall (fun c => c <> []) chunks /\
    UploadResponse_Err r' = None /\
    ur_state r' = UploadResponseScanPacks.
Proof.
  destruct (PacketScanner_Scan_PACK_packing _ rest Hp Hpe)
    as (p1 & Hs & Hc & Hp1 & Hpe1 & _).
  destruct (PacketScanner_pack_run _ p1 (Nat.le_refl _) Hp1)
    as (chunks & p' & Hruns & Hcat & Hall & He & _).
  destruct (UploadResponse_pack_run chunks p1 p' (ur_curr r) He Hruns)
    as (r' & Hr & He' & Hst').
  exists chunks, r'. split.
  - apply runs_cons with
      (r1 := mkUploadResponse p1 UploadResponseScanPacks None (ur_curr r));
      [|reflexivity|exact Hr].
    unfold UploadResponse_Scan. rewrite Herr, Hs. cbn [notnil bind negb orb].
    unfold PacketScanner_Packet. rewrite Hc.
    destruct Hst as [Hb Hend].
    destruct (ur_state r); try contradiction; reflexivity.
  - rewrite Hcat, Hpe1. repeat split; assumption.
Qed.

Lemma upload_pack_file_stream_witness :
  exists chunks r',
    runs UploadResponse_Scan UploadResponse_Chunk
      (mkUploadResponse (NewPacketScanner (mkReader (B "PACKabcdef") [5%nat] io_EOF))
         UploadResponseScanPacks None None)
      (None :: map (fun c => Some (PackStream_chunk c)) chunks) r' /\
    concat chunks = B "abcdef" /\
    Forall (fun c => c <> []) chunks /\
    UploadResponse_Err r' = None /\
    ur_state r' = UploadResponseScanPacks.
Proof.
  refine (upload_pack_file_stream
    (mkUploadResponse (NewPacketScanner (mkReader (B "PACKabcdef") [5%nat] io_EOF))
       UploadResponseScanPacks None None)
    (B "abcdef") _ _ _ _).
  - reflexivity.
  - split; discriminate.
  - apply NewPacketScanner_framed.
  - reflexivity.
Defined.

(** ** The shape of a receive-pack response *)

Definition unpack_chunk (status : bytes) : ReceiveResponseChunk :=
  mkReceiveResponseChunk status [] [] [] false.
Definition ok_chunk (name : bytes) : ReceiveResponseChunk :=
  mkReceiveResponseChunk [] (B "ok") name [] false.
Definition ng_chunk (name msg : bytes) : ReceiveResponseChunk :=
  mkReceiveResponseChunk [] (B "ng") name msg false.
Definition end_of_response : ReceiveResponseChunk :=
  mkReceiveResponseChunk [] [] [] [] true.

(** A chunk for one ref: "ok" with the rest of the line as name, or "ng"
    with a name that holds no space and the rest of the line as message. *)
Definition ref_update (c : ReceiveResponseChunk) : Prop :=
  (exists name, c = ok_chunk name) \/
  (exists name msg, c = ng_chunk name msg /\ ~ In space name).

(** The chunk and the state a successful [switch] leaves. *)
Lemma ReceiveResponse_switch_true
    (sc : PacketScanner) (st : ReceiveResponseState)
    (curr : option ReceiveResponseChunk) (pkt : option Packet)
    (r1 : ReceiveResponse) :
  ReceiveResponse_switch sc st curr pkt = Ret (true, r1) ->
  rr_err r1 = None /\ rr_scanner r1 = sc /\
  ((st = ReceiveResponseBegin /\ rr_state r1 = ReceiveResponseScanResult /\
    exists status, rr_curr r1 = Some (unpack_chunk status))
   \/
   (st = ReceiveResponseScanResult /\ rr_state r1 = ReceiveResponseScanResult /\
    exists c, rr_curr r1 = Some c /\ ref_update c)
   \/
   (st = ReceiveResponseScanResult /\ rr_state r1 = ReceiveResponseEnd /\
    rr_curr r1 = Some end_of_response)).
Proof.
  unfold ReceiveResponse_switch.
  destruct st; [| |discriminate].
  - destruct pkt as [[| |bp| | |]|]; try discriminate.
    remember (TrimSuffix_nl bp) as s eqn:Es. clear Es.
    destruct (HasPrefix s (B "unpack ")) eqn:Eh; cbn [negb]; [|discriminate].
    apply HasPrefix_split in Eh as [rest ->].
    rewrite SplitN2_unpack. cbn [index nth_error bind].
    intros H. apply Ret_eq, pair_eq in H as [_ <-].
    cbn [rr_err rr_scanner rr_state rr_curr].
    split; [reflexivity|]. split; [reflexivity|]. left.
    repeat split. now exists rest.
  - destruct pkt as [[| |p| | |]|]; try discriminate.
    + intros H. apply Ret_eq, pair_eq in H as [_ <-].
      cbn [rr_err rr_scanner rr_state rr_curr].
      split; [reflexivity|]. split; [reflexivity|]. right; right.
      repeat split.
    + remember (TrimSuffix_nl p) as s eqn:Es. clear Es.
      destruct (HasPrefix s (B "ok ")) eqn:Eok.
      * apply HasPrefix_split in Eok as [rest ->].
        rewrite SplitN2_ok. cbn [index nth_error bind].
        intros H. apply Ret_eq, pair_eq in H as [_ <-].
        cbn [rr_err rr_scanner rr_state rr_curr].
        split; [reflexivity|]. split; [reflexivity|]. right; left.
        repeat split. eexists. split; [reflexivity|]. left. now exists rest.
      * destruct (HasPrefix s (B "ng ")) eqn:Eng; [|discriminate].
        apply HasPrefix_split in Eng as [rest ->].
        rewrite SplitN3_ng.
        destruct (cut_space rest) as [[a b]|] eqn:Ec;
          cbn [length Nat.eqb negb index nth_error bind]; [|discriminate].
        apply cut_space_Some in Ec as [_ Hn].
        intros H. apply Ret_eq, pair_eq in H as [_ <-].
        cbn [rr_err rr_scanner rr_state rr_curr].
        split; [reflexivity|]. split; [reflexivity|]. right; left.
        repeat split. eexists. split; [reflexivity|]. right.
        exists a, b. split; [reflexivity|assumption].
Qed.

(** A run that starts after the end of the response has no chunk. *)
Lemma ReceiveResponse_runs_End
    (r : ReceiveResponse) (cs : list (option ReceiveResponseChunk))
    (r' : ReceiveResponse) :
  runs ReceiveResponse_Scan ReceiveResponse_Chunk r cs r' ->
  rr_state r = ReceiveResponseEnd -> cs = [] /\ r' = r.
Proof.
  intros H Hst.
  assert (Hs : ReceiveResponse_Scan r = Ret (false, r)).
  { unfold ReceiveResponse_Scan. rewrite Hst. now rewrite orb_true_r. }
  inversion H as [r0 r0' Hs'|r0 r1 cs' r0' Hs']; subst; rewrite Hs in Hs'.
  - apply Ret_eq, pair_eq in Hs' as [_ <-]. now split.
  - apply Ret_eq, pair_eq in Hs' as [Hb _]. discriminate Hb.
Qed.

(** Where [Scan] can return false without an error. *)
Lemma ReceiveResponse_Scan_false_clean (r r' : ReceiveResponse) :
  ReceiveResponse_Scan r = Ret (false, r') ->
  rr_err r = None -> rr_err r' = None ->
  rr_state r = ReceiveResponseBegin \/ rr_state r = ReceiveResponseEnd.
Proof.
  intros Hs He He'.
  unfold ReceiveResponse_Scan in Hs. rewrite He in Hs. cbn [notnil orb] in Hs.
  destruct (rr_state r) eqn:Est; [now left| |now right].
  exfalso.
  destruct (PacketScanner_Scan (rr_scanner r)) as [[ok sc]|]; [|discriminate].
  cbn [bind] in Hs. destruct ok; cbn [negb] in Hs.
  - now apply ReceiveResponse_switch_false in Hs.
  - apply Ret_eq, pair_eq in Hs as [_ <-]. cbn in He'.
    destruct (PacketScanner_Err sc); discriminate.
Qed.

(** From the state [ScanResult]: ref updates, then the end of the
    response. *)
Lemma ReceiveResponse_runs_ScanResult
    (r : ReceiveResponse) (cs : list (option ReceiveResponseChunk))
    (r' : ReceiveResponse) :
  runs ReceiveResponse_Scan ReceiveResponse_Chunk r cs r' ->
  rr_err r = None -> rr_err r' = None ->
  rr_state r = ReceiveResponseScanResult ->
  exists updates,
    cs = map Some updates ++ [Some end_of_response] /\
    Forall ref_update updates /\ rr_state r' = ReceiveResponseEnd.
Proof.
  induction 1 as [r r' Hs|r r1 cs r' Hs Hruns IH]; intros He He' Hst.
  - destruct (ReceiveResponse_Scan_false_clean r r' Hs He He') as [E|E];
      rewrite Hst in E; discriminate E.
  - destruct (ReceiveResponse_Scan_true r r1 Hs) as (sc & _ & Hsw).
    destruct (ReceiveResponse_switch_true _ _ _ _ _ Hsw)
      as (He1 & _ & [(E & _) | [(_ & Hst1 & c & Hc & Hu) | (_ & Hst1 & Hc)]]).
    + rewrite Hst in E. discriminate E.
    + destruct (IH He1 He' Hst1) as (updates & -> & Hall & Hend).
      exists (c :: updates). unfold ReceiveResponse_Chunk. rewrite Hc.
      split; [reflexivity|]. split; [now constructor|assumption].
    + destruct (ReceiveResponse_runs_End _ _ _ Hruns Hst1) as [-> ->].
      exists []. unfold ReceiveResponse_Chunk. rewrite Hc.
      split; [reflexivity|]. split; [constructor|assumption].
Qed.

(** X11.  The shape of a receive-pack response that was read without error.
    When the loop [for r.Scan()] over a parser in its [Begin] state ends
    with a nil [Err()], it has produced either no chunk at all, or exactly:
    one chunk with the unpack status; then chunks for refs, each with status
    "ok" and no message or with status "ng", a name without a space and a
    message; then the chunk [EndOfResponse], after which the parser is in
    its [End] state.  A response that stops before its flush packet is
    never read without error. *)
Theorem ReceiveResponse_shape
    (r : ReceiveResponse) (cs : list (option ReceiveResponseChunk))
    (r' : ReceiveResponse)
    (Hruns : runs ReceiveResponse_Scan ReceiveResponse_Chunk r cs r')
    (Hst : rr_state r = ReceiveResponseBegin)
    (He : ReceiveResponse_Err r = None)
    (He' : ReceiveResponse_Err r' = None) :
  (cs = [] /\ rr_state r' = ReceiveResponseBegin) \/
  (exists status updates,
     cs = Some (unpack_chunk status) :: map Some updates ++ [Some end_of_response] /\
     Forall ref_update updates /\
     rr_state r' = ReceiveResponseEnd).
Proof.
  unfold ReceiveResponse_Err in *.
  inversion Hruns as [r0 r0' Hs|r0 r1 cs' r0' Hs Hruns']; subst.
  - left. split; [reflexivity|].
    unfold ReceiveResponse_Scan in Hs. rewrite He, Hst in Hs.
    cbn [notnil orb] in Hs.
    destruct (PacketScanner_Scan (rr_scanner r)) as [[ok sc]|]; [|discriminate].
    cbn [bind] in Hs. destruct ok; cbn [negb] in Hs.
    + now apply ReceiveResponse_switch_false in Hs.
    + apply Ret_eq, pair_eq in Hs as [_ <-]. reflexivity.
  - right.
    destruct (ReceiveResponse_Scan_true r r1 Hs) as (sc & _ & Hsw).
    destruct (ReceiveResponse_switch_true _ _ _ _ _ Hsw)
      as (He1 & _ & [(_ & Hst1 & status & Hc) | [(E & _) | (E & _)]]);
      try (rewrite Hst in E; discriminate E).
    destruct (ReceiveResponse_runs_ScanResult _ _ _ Hruns' He1 He' Hst1)
      as (updates & -> & Hall & Hend).
    exists status, updates. unfold ReceiveResponse_Chunk. rewrite Hc.
    split; [reflexivity|]. split; assumption.
Qed.

Lemma ReceiveResponse_shape_witness :
  (receive_example_chunks = [] /\
   rr_state (after ReceiveResponse_Scan 4
               (NewReceiveResponse (mkReader receive_example [2; 0; 7]%nat io_EOF)))
     = ReceiveResponseBegin) \/
  (exists status updates,
     receive_example_chunks =
       Some (unpack_chunk status) :: map Some updates ++ [Some end_of_response] /\
     Forall ref_update updates /\
     rr_state (after ReceiveResponse_Scan 4
                 (NewReceiveResponse (mkReader receive_example [2; 0; 7]%nat io_EOF)))
       = ReceiveResponseEnd).
Proof.
  refine (ReceiveResponse_shape
    (NewReceiveResponse (mkReader receive_example [2; 0; 7]%nat io_EOF))
    receive_example_chunks
    (after ReceiveResponse_Scan 4
       (NewReceiveResponse (mkReader receive_example [2; 0; 7]%nat io_EOF)))
    _ _ _ _).
  - apply run_runs with 5%nat. vm_compute. reflexivity.
  - reflexivity.
  - reflexivity.
  - vm_compute. reflexivity.
Defined.

(** ** The shape of a stream of requests *)

Definition command_chunk (c : bytes) : RequestChunk :=
  mkRequestChunk c [] false [] false false.
Definition capability_chunk (cap : bytes) : RequestChunk :=
  mkRequestChunk [] cap false [] false false.
Definition end_of_capabilities : RequestChunk :=
  mkRequestChunk [] [] true [] false false.
Definition argument_chunk (a : bytes) : RequestChunk :=
  mkRequestChunk [] [] false a false false.
Definition end_of_arguments : RequestChunk :=
  mkRequestChunk [] [] false [] true false.
Definition end_of_request : RequestChunk :=
  mkRequestChunk [] [] false [] false true.

(** The chunks of one command: its name, its capabilities, the delimiter,
    its arguments, the flush. *)
Definition command_chunks (cmd : bytes * list bytes * list bytes)
  : list (option RequestChunk) :=
  let '(name, caps, args) := cmd in
  Some (command_chunk name)
    :: (map (fun c => Some (capability_chunk c)) caps
          ++ Some end_of_capabilities
          :: (map (fun a => Some (argument_chunk a)) args
                ++ [Some end_of_arguments])).

(** How a stream that was read without error ends: between two commands,
    or with the flush packet that ends the requests. *)
Definition request_tail (fin : RequestState) (tail : list (option RequestChunk))
  : Prop :=
  (tail = [] /\ fin = RequestBegin) \/
  (tail = [Some end_of_request] /\ fin = RequestEnd).

(** What is still to come from each state. *)
Definition request_shape (st fin : RequestState)
    (cs : list (option RequestChunk)) : Prop :=
  match st with
  | RequestBegin =>
      exists cmds tail,
        cs = flat_map command_chunks cmds ++ tail /\ request_tail fin tail
  | RequestScanCapabilities =>
      exists caps args cmds tail,
        cs = map (fun c => Some (capability_chunk c)) caps
               ++ Some end_of_capabilities
               :: map (fun a => Some (argument_chunk a)) args
               ++ Some end_of_arguments
               :: flat_map command_chunks cmds ++ tail /\
        request_tail fin tail
  | RequestScanArguments =>
      exists args cmds tail,
        cs = map (fun a => Some (argument_chunk a)) args
               ++ Some end_of_arguments
               :: flat_map command_chunks cmds ++ tail /\
        request_tail fin tail
  | RequestEnd => cs = [] /\ fin = RequestEnd
  end.

(** The chunk and the state a successful [switch] leaves. *)
Lemma Request_switch_true
    (sc : PacketScanner) (st : RequestState) (curr : option RequestChunk)
    (pkt : option Packet) (r1 : Request) :
  Request_switch sc st curr pkt = Ret (true, r1) ->
  rq_err r1 = None /\
  ((st = RequestBegin /\ rq_state r1 = RequestEnd /\
    rq_curr r1 = Some end_of_request)
   \/ (st = RequestBegin /\ rq_state r1 = RequestScanCapabilities /\
       exists c, rq_curr r1 = Some (command_chunk c))
   \/ (st = RequestScanCapabilities /\ rq_state r1 = RequestScanArguments /\
       rq_curr r1 = Some end_of_capabilities)
   \/ (st = RequestScanCapabilities /\ rq_state r1 = RequestScanCapabilities /\
       exists cap, rq_curr r1 = Some (capability_chunk cap))
   \/ (st = RequestScanArguments /\ rq_state r1 = RequestBegin /\
       rq_curr r1 = Some end_of_arguments)
   \/ (st = RequestScanArguments /\ rq_state r1 = RequestScanArguments /\
       exists a, rq_curr r1 = Some (argument_chunk a))).
Proof.
  unfold Request_switch.
  destruct st; [| | |discriminate];
    destruct pkt as [[| |p| | |]|]; try discriminate.
  - intros H. apply Ret_eq, pair_eq in H as [_ <-].
    split; [reflexivity|]. left. repeat split.
  - destruct (HasPrefix p (B "command=")); cbn [negb]; [|discriminate].
    intros H. apply Ret_eq, pair_eq in H as [_ <-].
    split; [reflexivity|]. right; left. repeat split. eexists. reflexivity.
  - intros H. apply Ret_eq, pair_eq in H as [_ <-].
    split; [reflexivity|]. right; right; left. repeat split.
  - intros H. apply Ret_eq, pair_eq in H as [_ <-].
    split; [reflexivity|]. right; right; right; left. repeat split.
    eexists. reflexivity.
  - intros H. apply Ret_eq, pair_eq in H as [_ <-].
    split; [reflexivity|]. right; right; right; right; left. repeat split.
  - intros H. apply Ret_eq, pair_eq in H as [_ <-].
    split; [reflexivity|]. right; right; right; right; right. repeat split.
    eexists. reflexivity.
Qed.

(** Where [Scan] can return false without an error. *)
Lemma Request_Scan_false_clean (r r' : Request) :
  Request_Scan r = Ret (false, r') ->
  rq_err r = None -> rq_err r' = None ->
  rq_state r' = rq_state r /\
  (rq_state r = RequestBegin \/ rq_state r = RequestEnd).
Proof.
  intros Hs He He'.
  unfold Request_Scan in Hs. rewrite He in Hs. cbn [notnil orb] in Hs.
  destruct (rq_state r) eqn:Est.
  - split; [|now left].
    destruct (PacketScanner_Scan (rq_scanner r)) as [[ok sc]|]; [|discriminate].
    cbn [bind] in Hs. destruct ok; cbn [negb] in Hs.
    + now apply Request_switch_false in Hs.
    + apply Ret_eq, pair_eq in Hs as [_ <-]. reflexivity.
  - exfalso.
    destruct (PacketScanner_Scan (rq_scanner r)) as [[ok sc]|]; [|discriminate].
    cbn [bind] in Hs. destruct ok; cbn [negb] in Hs.
    + now apply Request_switch_false in Hs.
    + apply Ret_eq, pair_eq in Hs as [_ <-]. cbn in He'.
      destruct (PacketScanner_Err sc); discriminate.
  - exfalso.
    destruct (PacketScanner_Scan (rq_scanner r)) as [[ok sc]|]; [|discriminate].
    cbn [bind] in Hs. destruct ok; cbn [negb] in Hs.
    + now apply Request_switch_false in Hs.
    + apply Ret_eq, pair_eq in Hs as [_ <-]. cbn in He'.
      destruct (PacketScanner_Err sc); discriminate.
  - apply Ret_eq, pair_eq in Hs as [_ <-]. split; [assumption|now right].
Qed.

Lemma Request_runs_shape
    (r : Request) (cs : list (option RequestChunk)) (r' : Request) :
  runs Request_Scan Request_Chunk r cs r' ->
  rq_err r = None -> rq_err r' = None ->
  request_shape (rq_state r) (rq_state r') cs.
Proof.
  induction 1 as [r r' Hs|r r1 cs r' Hs Hruns IH]; intros He He'.
  - destruct (Request_Scan_false_clean r r' Hs He He') as (Hst & [E|E]);
      rewrite Hst, E; cbn [request_shape].
    + exists [], []. split; [reflexivity|]. left. now split.
    + now split.
  - destruct (Request_Scan_true r r1 Hs) as (sc & _ & Hsw).
    destruct (Request_switch_true _ _ _ _ _ Hsw) as (He1 & Hcase).
    specialize (IH He1 He'). unfold Request_Chunk.
    destruct Hcase as
      [(Hst & Hst1 & Hc) | [(Hst & Hst1 & c & Hc) | [(Hst & Hst1 & Hc) |
      [(Hst & Hst1 & cap & Hc) | [(Hst & Hst1 & Hc) | (Hst & Hst1 & a & Hc)]]]]];
      rewrite Hst, Hc; rewrite Hst1 in IH; cbn [request_shape] in *.
    + destruct IH as [-> Hfin].
      exists [], [Some end_of_request]. split; [reflexivity|]. right. now split.
    + destruct IH as (caps & args & cmds & tail & -> & Ht).
      exists ((c, caps, args) :: cmds), tail. split; [|assumption].
      cbn [flat_map command_chunks].
      rewrite <- !app_comm_cons, <- !app_assoc, <- !app_comm_cons, <- !app_assoc.
      reflexivity.
    + destruct IH as (args & cmds & tail & -> & Ht).
      exists [], args, cmds, tail. split; [reflexivity|assumption].
    + destruct IH as (caps & args & cmds & tail & -> & Ht).
      exists (cap :: caps), args, cmds, tail. split; [reflexivity|assumption].
    + destruct IH as (cmds & tail & -> & Ht).
      exists [], cmds, tail. split; [reflexivity|assumption].
    + destruct IH as (args & cmds & tail & -> & Ht).
      exists (a :: args), cmds, tail. split; [reflexivity|assumption].
Qed.

(** X12.  The shape of a stream of protocol-v2 requests that was read
    without error.  When the loop [for r.Scan()] over a parser in its
    [Begin] state ends with a nil [Err()], the chunks it has produced are
    those of zero or more whole commands, each a command chunk, capability
    chunks, [EndCapability], argument chunks and [EndArgument], followed
    either by nothing, the input having ended between two commands, or by
    the one chunk [EndRequest] of a flush packet in the place of a command.
    A command that stops before its final flush is never read without
    error. *)
Theorem Request_shape
    (r : Request) (cs : list (option RequestChunk)) (r' : Request)
    (Hruns : runs Request_Scan Request_Chunk r cs r')
    (Hst : rq_state r = RequestBegin)
    (He : Request_Err r = None)
    (He' : Request_Err r' = None) :
  exists cmds tail,
    cs = flat_map command_chunks cmds ++ tail /\
    ((tail = [] /\ rq_state r' = RequestBegin) \/
     (tail = [Some end_of_request] /\ rq_state r' = RequestEnd)).
Proof.
  pose proof (Request_runs_shape r cs r' Hruns He He') as H.
  rewrite Hst in H. exact H.
Qed.

Lemma Request_shape_witness :
  exists cmds tail,
    request_example_chunks = flat_map command_chunks cmds ++ tail /\
    ((tail = [] /\
      rq_state (after Request_Scan 7
                  (NewRequest (mkReader request_example [2; 0; 7]%nat io_EOF)))
        = RequestBegin) \/
     (tail = [Some end_of_request] /\
      rq_state (after Request_Scan 7
                  (NewRequest (mkReader request_example [2; 0; 7]%nat io_EOF)))
        = RequestEnd)).
Proof.
  refine (Request_shape
    (NewRequest (mkReader request_example [2; 0; 7]%nat io_EOF))
    request_example_chunks
    (after Request_Scan 7
       (NewRequest (mkReader request_example [2; 0; 7]%nat io_EOF)))
    _ _ _ _).
  - apply run_runs with 8%nat. vm_compute. reflexivity.
  - reflexivity.
  - reflexivity.
  - vm_compute. reflexivity.
Defined.

(** ** The sections of an upload-pack response *)

(** The states in the order of the response. *)
Definition upload_rank (st : UploadResponseState) : nat :=
  match st with
  | UploadResponseBegin => 0
  | UploadResponseScanShallows => 1
  | UploadResponseScanUnshallows => 2
  | UploadResponseBeginAcknowledgements => 3
  | UploadResponseScanAcknowledgements => 4
  | UploadResponseScanPacks => 5
  | UploadResponseEnd => 6
  end.

Definition shallow_chunk (id : bytes) : UploadResponseChunk :=
  mkUploadResponseChunk id [] false [] [] false [] None false.
Definition unshallow_chunk (id : bytes) : UploadResponseChunk :=
  mkUploadResponseChunk [] id false [] [] false [] None false.
Definition end_of_shallows : UploadResponseChunk :=
  mkUploadResponseChunk [] [] true [] [] false [] None false.
Definition ack_chunk (id detail : bytes) : UploadResponseChunk :=
  mkUploadResponseChunk [] [] false id detail false [] None false.
Definition nak_chunk : UploadResponseChunk :=
  mkUploadResponseChunk [] [] false [] [] true [] None false.
Definition end_of_upload : UploadResponseChunk :=
  mkUploadResponseChunk [] [] false [] [] false [] None true.

(** The chunk that goes with the state a successful [Scan] leaves: [before]
    is the chunk of the call before. *)
Definition upload_chunk_of (st : UploadResponseState)
    (before now : option UploadResponseChunk) : Prop :=
  match st with
  | UploadResponseBegin => False
  | UploadResponseScanShallows => exists id, now = Some (shallow_chunk id)
  | UploadResponseScanUnshallows => exists id, now = Some (unshallow_chunk id)
  | UploadResponseBeginAcknowledgements => now = Some end_of_shallows
  | UploadResponseScanAcknowledgements =>
      exists id detail, now = Some (ack_chunk id detail)
  | UploadResponseScanPacks =>
      now = Some nak_chunk \/ (exists p, now = Some (PackStream_chunk p)) \/
      now = before
  | UploadResponseEnd => now = Some end_of_upload
  end.

(** The same, with the packet: only the pack-file indicator leaves the
    chunk of the call before. *)
Definition upload_chunk_from (st : UploadResponseState) (pkt : option Packet)
    (before now : option UploadResponseChunk) : Prop :=
  upload_chunk_of st before now /\
  (pkt <> Some PackFileIndicatorPacket ->
   match st with
   | UploadResponseScanPacks =>
       now = Some nak_chunk \/ exists p, now = Some (PackStream_chunk p)
   | _ => True
   end).

Definition upload_step (st : UploadResponseState)
    (curr : option UploadResponseChunk) (pkt : option Packet)
    (r1 : UploadResponse) : Prop :=
  (upload_rank st <= upload_rank (ur_state r1))%nat /\
  ur_err r1 = None /\
  upload_chunk_from (ur_state r1) pkt curr (ur_curr r1).

Ltac upload_step_done :=
  unfold upload_step, upload_chunk_from;
  cbn [ur_state ur_err ur_curr upload_rank upload_chunk_of];
  split; [lia|split; [reflexivity|split; [|intros _]]].

Lemma UploadResponse_case_packs_true
    (sc : PacketScanner) (st : UploadResponseState)
    (curr : option UploadResponseChunk) (pkt : option Packet)
    (r1 : UploadResponse) :
  UploadResponse_case_packs sc st curr pkt = Ret (true, r1) ->
  (upload_rank st <= 5)%nat -> upload_step st curr pkt r1.
Proof.
  unfold UploadResponse_case_packs.
  destruct pkt as [[| |p| | |p]|]; try discriminate;
    intros H Hr; apply Ret_eq, pair_eq in H as [_ <-].
  - upload_step_done; [reflexivity|exact I].
  - upload_step_done; [right; left|right]; now exists p.
  - unfold upload_step, upload_chunk_from.
    cbn [ur_state ur_err ur_curr upload_rank upload_chunk_of].
    split; [lia|]. split; [reflexivity|]. split; [now right; right|].
    intros H. now contradiction H.
  - upload_step_done; [right; left|right]; now exists p.
Qed.

Lemma UploadResponse_case_acks_true
    (sc : PacketScanner) (st : UploadResponseState)
    (curr : option UploadResponseChunk) (pkt : option Packet)
    (r1 : UploadResponse) :
  UploadResponse_case_acks sc st curr pkt = Ret (true, r1) ->
  (upload_rank st <= 4)%nat -> upload_step st curr pkt r1.
Proof.
  unfold UploadResponse_case_acks. intros H Hr.
  assert (Hrest :
    match st with
    | UploadResponseBegin =>
        Ret (false, mkUploadResponse sc st (Some (unexpected_packet (VPacket pkt))) curr)
    | _ => UploadResponse_case_packs sc st curr pkt
    end = Ret (true, r1) -> upload_step st curr pkt r1).
  { clear H. destruct st; try discriminate;
      intros H'; apply UploadResponse_case_packs_true with sc; try assumption;
      cbn [upload_rank] in *; lia. }
  destruct pkt as [[| |bp| | |p]|]; try (now apply Hrest).
  destruct (HasPrefix bp (B "ACK ")).
  - destruct (length (SplitN (TrimSuffix_nl bp) 3) <? 2)%nat; [discriminate|].
    destruct (if (length (SplitN (TrimSuffix_nl bp) 3) =? 3)%nat
              then index (SplitN (TrimSuffix_nl bp) 3) 2 else Ret [])
      as [detail|]; cbn [bind] in H; [|discriminate].
    destruct (index (SplitN (TrimSuffix_nl bp) 3) 1) as [id|];
      cbn [bind] in H; [|discriminate].
    apply Ret_eq, pair_eq in H as [_ <-].
    upload_step_done; [now exists id, detail|exact I].
  - destruct (bytes_eqb bp (B "NAK" ++ [newline])); [|now apply Hrest].
    apply Ret_eq, pair_eq in H as [_ <-].
    upload_step_done; now left.
Qed.

Lemma UploadResponse_case_unshallows_true
    (sc : PacketScanner) (st : UploadResponseState)
    (curr : option UploadResponseChunk) (pkt : option Packet)
    (r1 : UploadResponse) :
  UploadResponse_case_unshallows sc st curr pkt = Ret (true, r1) ->
  (upload_rank st <= 2)%nat -> upload_step st curr pkt r1.
Proof.
  unfold UploadResponse_case_unshallows. intros H Hr.
  assert (Hrest :
    match pkt with
    | Some FlushPacket =>
        Ret (true, mkUploadResponse sc UploadResponseBeginAcknowledgements None
                     (Some (mkUploadResponseChunk [] [] true [] [] false [] None false)))
    | _ => UploadResponse_case_acks sc st curr pkt
    end = Ret (true, r1) -> upload_step st curr pkt r1).
  { clear H. destruct pkt as [[| |bp| | |p]|];
      try (intros H'; eapply UploadResponse_case_acks_true; [eassumption|lia]).
    intros H'. apply Ret_eq, pair_eq in H' as [_ <-].
    upload_step_done; [reflexivity|exact I]. }
  destruct pkt as [[| |bp| | |p]|]; try (now apply Hrest).
  destruct (HasPrefix bp (B "unshallow ")); [|now apply Hrest].
  destruct (length (SplitN (TrimSuffix_nl bp) 2) <? 2)%nat; [discriminate|].
  destruct (index (SplitN (TrimSuffix_nl bp) 2) 1) as [id|];
    cbn [bind] in H; [|discriminate].
  apply Ret_eq, pair_eq in H as [_ <-].
  upload_step_done; [now exists id|exact I].
Qed.

Lemma UploadResponse_case_shallows_true
    (sc : PacketScanner) (st : UploadResponseState)
    (curr : option UploadResponseChunk) (pkt : option Packet)
    (r1 : UploadResponse) :
  UploadResponse_case_shallows sc st curr pkt = Ret (true, r1) ->
  (upload_rank st <= 1)%nat -> upload_step st curr pkt r1.
Proof.
  unfold UploadResponse_case_shallows. intros H Hr.
  assert (Hrest : UploadResponse_case_unshallows sc st curr pkt = Ret (true, r1) ->
                  upload_step st curr pkt r1)
    by (intros H'; apply UploadResponse_case_unshallows_true with sc; [assumption|lia]).
  destruct pkt as [[| |bp| | |p]|]; try (now apply Hrest).
  destruct (HasPrefix bp (B "shallow ")); [|now apply Hrest].
  destruct (length (SplitN (TrimSuffix_nl bp) 2) <? 2)%nat; [discriminate|].
  destruct (index (SplitN (TrimSuffix_nl bp) 2) 1) as [id|];
    cbn [bind] in H; [|discriminate].
  apply Ret_eq, pair_eq in H as [_ <-].
  upload_step_done; [now exists id|exact I].
Qed.

Lemma UploadResponse_switch_true
    (sc : PacketScanner) (st : UploadResponseState)
    (curr : option UploadResponseChunk) (pkt : option Packet)
    (r1 : UploadResponse) :
  UploadResponse_switch sc st curr pkt = Ret (true, r1) ->
  upload_step st curr pkt r1.
Proof.
  unfold UploadResponse_switch.
  destruct st; try discriminate; intros H.
  - apply UploadResponse_case_shallows_true with sc; [assumption|cbn; lia].
  - apply UploadResponse_case_shallows_true with sc; [assumption|cbn; lia].
  - apply UploadResponse_case_unshallows_true with sc; [assumption|cbn; lia].
  - apply UploadResponse_case_acks_true with sc; [assumption|cbn; lia].
  - apply UploadResponse_case_acks_true with sc; [assumption|cbn; lia].
  - apply UploadResponse_case_packs_true with sc; [assumption|cbn; lia].
Qed.

(** X13.  The sections of an upload-pack response come in order.  Every
    [Scan] that returns true leaves the parser in the same or a later state
    of the sequence Begin, ScanShallows, ScanUnshallows,
    BeginAcknowledgements, ScanAcknowledgements, ScanPacks, End, never in
    [Begin], with a nil [Err()]; and that state tells the chunk: a shallow
    id, an unshallow id, [EndOfShallows], an acknowledgement, in ScanPacks
    [Nak], pack data or (for the pack-file indicator) the chunk of the call
    before, and [EndOfRequest].  So once pack data has begun no line is read
    as an acknowledgement or a shallow line any more. *)
Theorem UploadResponse_sections_in_order
    (r r1 : UploadResponse)
    (Hs : UploadResponse_Scan r = Ret (true, r1)) :
  (upload_rank (ur_state r) <= upload_rank (ur_state r1))%nat /\
  UploadResponse_Err r1 = None /\
  upload_chunk_of (ur_state r1) (UploadResponse_Chunk r) (UploadResponse_Chunk r1).
Proof.
  destruct (UploadResponse_Scan_true r r1 Hs) as (sc & _ & Hsw).
  destruct (UploadResponse_switch_true _ _ _ _ _ Hsw) as (Hr & He & Hc & _).
  split; [assumption|]. split; assumption.
Qed.

Lemma UploadResponse_sections_in_order_witness :
  (upload_rank UploadResponseBegin <= upload_rank UploadResponseScanPacks)%nat /\
  UploadResponse_Err
    (after UploadResponse_Scan 1 (NewUploadResponse (stream "0008NAK
0009ACK a"))) = None /\
  upload_chunk_of UploadResponseScanPacks None (Some nak_chunk).
Proof.
  exact (UploadResponse_sections_in_order
    (NewUploadResponse (stream "0008NAK
0009ACK a"))
    (after UploadResponse_Scan 1 (NewUploadResponse (stream "0008NAK
0009ACK a")))
    eq_refl).
Defined.

(** After "NAK", a line "ACK a" is pack data. *)
Example ACK_after_NAK_is_pack_data :
  UploadResponse_Chunk
    (after UploadResponse_Scan 2 (NewUploadResponse (stream "0008NAK
0009ACK a")))
  = Some (PackStream_chunk (B "ACK a")).
Proof. vm_compute. reflexivity. Qed.

(** ** After a parser's [Scan] has returned false *)

(** What a successful [Scan] of the packet scanner leaves in framed mode:
    framed mode again, or pack-file mode after the indicator. *)
Lemma PacketScanner_Scan_true_framed (p p' : PacketScanner) :
  ps_framed p -> PacketScanner_Scan p = Ret (true, p') ->
  ps_framed p' \/ ps_curr p' = Some PackFileIndicatorPacket.
Proof.
  intros Hp Hs.
  destruct (next_frame (ps_pending p)) as [|hd|n] eqn:Hf.
  - destruct (PacketScanner_Scan_end p Hp Hf) as (q & Hq & _).
    rewrite Hq in Hs. apply Ret_eq, pair_eq in Hs as [Hb _]. discriminate Hb.
  - destruct (PacketScanner_Scan_BadHeader p hd Hp Hf) as (q & Hq & _).
    rewrite Hq in Hs. apply Ret_eq, pair_eq in Hs as [Hb _]. discriminate Hb.
  - destruct (PacketScanner_Scan_Token p n Hp Hf)
      as (sc & a & Hsb & Hl & _ & _ & Htk & _).
    rewrite Hsb in Hs. clear Hsb.
    destruct Hp as (_ & Hm & _).
    unfold PacketScanner_Scan_bytes in Hs. rewrite Hm in Hs.
    destruct (bytes_eqb (nbytes (sc_token sc)) (B "0000")).
    { apply Ret_eq, pair_eq in Hs as [_ <-]. left. repeat split; apply Hl. }
    destruct (bytes_eqb (nbytes (sc_token sc)) (B "0001")).
    { apply Ret_eq, pair_eq in Hs as [_ <-]. left. repeat split; apply Hl. }
    destruct (bytes_eqb (nbytes (sc_token sc)) (B "PACK")).
    { apply Ret_eq, pair_eq in Hs as [_ <-]. now right. }
    destruct (nlen (sc_token sc) =? 4)%nat.
    { apply Ret_eq, pair_eq in Hs as [Hb _]. discriminate Hb. }
    destruct (nslice_lo_hi (sc_token sc) 4 8) as [b48|]; [|discriminate].
    cbn [bind] in Hs.
    destruct (bytes_eqb (slice_bytes b48) (B "ERR ")).
    + destruct (nslice_lo (sc_token sc) 8) as [b8|]; [|discriminate].
      cbn [bind] in Hs. apply Ret_eq, pair_eq in Hs as [Hb _]. discriminate Hb.
    + destruct (nslice_lo (sc_token sc) 4) as [b4|]; [|discriminate].
      cbn [bind] in Hs. apply Ret_eq, pair_eq in Hs as [_ <-].
      left. repeat split; apply Hl.
Qed.

(** *** The receive-pack response parser *)

(** A parser that has stopped: with an error, at the end of the response,
    or at the clean end of the input before any response. *)
Definition rr_settled (r : ReceiveResponse) : Prop :=
  rr_err r <> None \/ rr_state r = ReceiveResponseEnd \/
  (rr_state r = ReceiveResponseBegin /\ ps_ended (rr_scanner r)).

Definition rr_ok (r : ReceiveResponse) : Prop :=
  rr_settled r \/ ps_framed (rr_scanner r).

Lemma rr_settled_Scan (r : ReceiveResponse) :
  rr_settled r ->
  exists r', ReceiveResponse_Scan r = Ret (false, r') /\
    rr_err r' = rr_err r /\ rr_curr r' = rr_curr r /\ rr_settled r'.
Proof.
  intros H. unfold ReceiveResponse_Scan.
  destruct (rr_err r) as [e|] eqn:He.
  { exists r. cbn [notnil orb]. repeat split; assumption. }
  destruct H as [H|[H|(Hst & Hend)]]; [contradiction| |].
  - exists r. rewrite H. cbn [notnil orb]. repeat split; try assumption.
    right; now left.
  - rewrite Hst. cbn [notnil orb].
    destruct (PacketScanner_Scan_ended _ Hend) as (q & Hq & _ & Hend').
    rewrite Hq. cbn [bind negb]. unfold PacketScanner_Err.
    destruct Hend' as (Heq & Hrest). rewrite Heq. cbn [notnil negb andb].
    eexists. split; [reflexivity|]. cbn [rr_err rr_curr].
    repeat split. right; right. cbn [rr_state rr_scanner].
    split; [reflexivity|]. split; assumption.
Qed.

Lemma ReceiveResponse_switch_PACK
    (sc : PacketScanner) (st : ReceiveResponseState)
    (curr : option ReceiveResponseChunk) (r1 : ReceiveResponse) :
  ReceiveResponse_switch sc st curr (Some PackFileIndicatorPacket) <> Ret (true, r1).
Proof. destruct st; discriminate. Qed.

Lemma rr_ok_Scan (r : ReceiveResponse) (b : bool) (r' : ReceiveResponse) :
  rr_ok r -> ReceiveResponse_Scan r = Ret (b, r') ->
  rr_ok r' /\ (b = false -> rr_settled r').
Proof.
  intros [H|Hp] Hs.
  { destruct (rr_settled_Scan r H) as (q & Hq & _ & _ & Hq').
    rewrite Hq in Hs. apply Ret_eq, pair_eq in Hs as [_ <-].
    split; [now left|now intros _]. }
  destruct (rr_err r) as [e|] eqn:He.
  { assert (H : rr_settled r) by (left; rewrite He; discriminate).
    destruct (rr_settled_Scan r H) as (q & Hq & _ & _ & Hq').
    rewrite Hq in Hs. apply Ret_eq, pair_eq in Hs as [_ <-].
    split; [now left|now intros _]. }
  destruct (rr_state r) eqn:Hst;
    [| |assert (H : rr_settled r) by (right; now left);
        destruct (rr_settled_Scan r H) as (q & Hq & _ & _ & Hq');
        rewrite Hq in Hs; apply Ret_eq, pair_eq in Hs as [_ <-];
        split; [now left|now intros _]].
  - unfold ReceiveResponse_Scan in Hs. rewrite He, Hst in Hs.
    cbn [notnil orb] in Hs.
    destruct (PacketScanner_Scan (rr_scanner r)) as [[ok sc]|] eqn:Hsc;
      [|discriminate].
    cbn [bind] in Hs. destruct ok; cbn [negb] in Hs.
    + destruct b.
      * destruct (ReceiveResponse_switch_true _ _ _ _ _ Hs) as (_ & Hsc' & _).
        split; [|discriminate]. right. rewrite Hsc'.
        destruct (PacketScanner_Scan_true_framed _ _ Hp Hsc) as [Hf|Hpk];
          [assumption|].
        unfold PacketScanner_Packet in Hs. rewrite Hpk in Hs.
        now apply ReceiveResponse_switch_PACK in Hs.
      * apply ReceiveResponse_switch_false in Hs.
        split; [left|intros _]; now left.
    + apply Ret_eq, pair_eq in Hs as [<- <-].
      assert (Hset : rr_settled
                (mkReceiveResponse sc ReceiveResponseBegin
                   (if negb (notnil (PacketScanner_Err sc)) && negb true
                    then Some early_EOF else PacketScanner_Err sc) (rr_curr r))).
      { rewrite andb_false_r. unfold PacketScanner_Err.
        destruct (PacketScanner_Scan_false_stopped _ _ Hp Hsc) as [Hne|Hend].
        - now left.
        - right; right. now split. }
      split; [now left|now intros _].
  - unfold ReceiveResponse_Scan in Hs. rewrite He, Hst in Hs.
    cbn [notnil orb] in Hs.
    destruct (PacketScanner_Scan (rr_scanner r)) as [[ok sc]|] eqn:Hsc;
      [|discriminate].
    cbn [bind] in Hs. destruct ok; cbn [negb] in Hs.
    + destruct b.
      * destruct (ReceiveResponse_switch_true _ _ _ _ _ Hs) as (_ & Hsc' & _).
        split; [|discriminate]. right. rewrite Hsc'.
        destruct (PacketScanner_Scan_true_framed _ _ Hp Hsc) as [Hf|Hpk];
          [assumption|].
        unfold PacketScanner_Packet in Hs. rewrite Hpk in Hs.
        now apply ReceiveResponse_switch_PACK in Hs.
      * apply ReceiveResponse_switch_false in Hs.
        split; [left|intros _]; now left.
    + apply Ret_eq, pair_eq in Hs as [<- <-].
      assert (Hset : rr_settled
                (mkReceiveResponse sc ReceiveResponseScanResult
                   (if negb (notnil (PacketScanner_Err sc)) && negb false
                    then Some early_EOF else PacketScanner_Err sc) (rr_curr r))).
      { left. cbn [rr_err]. destruct (PacketScanner_Err sc); discriminate. }
      split; [now left|now intros _].
Qed.

Lemma rr_ok_after (k : nat) (r : ReceiveResponse) :
  rr_ok r -> rr_ok (after ReceiveResponse_Scan k r).
Proof.
  revert r; induction k as [|k IH]; intros r H; [assumption|].
  cbn [after].
  destruct (ReceiveResponse_Scan r) as [[b r1]|] eqn:Hs; [|assumption].
  apply IH. now apply (rr_ok_Scan r b r1).
Qed.

Lemma rr_settled_after (n : nat) (r : ReceiveResponse) :
  rr_settled r ->
  rr_settled (after ReceiveResponse_Scan n r) /\
  rr_err (after ReceiveResponse_Scan n r) = rr_err r /\
  rr_curr (after ReceiveResponse_Scan n r) = rr_curr r.
Proof.
  revert r; induction n as [|n IH]; intros r H; [repeat split; assumption|].
  destruct (rr_settled_Scan r H) as (q & Hq & He & Hc & Hq').
  cbn [after]. rewrite Hq.
  destruct (IH q Hq') as (H1 & H2 & H3).
  split; [assumption|]. split; congruence.
Qed.

Lemma NewReceiveResponse_ok (rd : Reader) : rr_ok (NewReceiveResponse rd).
Proof. right. apply NewPacketScanner_framed. Qed.

(** *** The request parser *)

Definition rq_settled (r : Request) : Prop :=
  rq_err r <> None \/ rq_state r = RequestEnd \/
  (rq_state r = RequestBegin /\ ps_ended (rq_scanner r)).

Definition rq_ok (r : Request) : Prop :=
  rq_settled r \/ ps_framed (rq_scanner r).

Lemma rq_settled_Scan (r : Request) :
  rq_settled r ->
  exists r', Request_Scan r = Ret (false, r') /\
    rq_err r' = rq_err r /\ rq_curr r' = rq_curr r /\ rq_settled r'.
Proof.
  intros H. unfold Request_Scan.
  destruct (rq_err r) as [e|] eqn:He.
  { exists r. cbn [notnil orb]. repeat split; assumption. }
  destruct H as [H|[H|(Hst & Hend)]]; [contradiction| |].
  - exists r. rewrite H. cbn [notnil orb]. repeat split; try assumption.
    right; now left.
  - rewrite Hst. cbn [notnil orb].
    destruct (PacketScanner_Scan_ended _ Hend) as (q & Hq & _ & Hend').
    rewrite Hq. cbn [bind negb]. unfold PacketScanner_Err.
    destruct Hend' as (Heq & Hrest). rewrite Heq. cbn [notnil negb andb].
    eexists. split; [reflexivity|]. cbn [rq_err rq_curr].
    repeat split. right; right. cbn [rq_state rq_scanner].
    split; [reflexivity|]. split; assumption.
Qed.

Lemma Request_switch_scanner
    (sc : PacketScanner) (st : RequestState) (curr : option RequestChunk)
    (pkt : option Packet) (b : bool) (r1 : Request) :
  Request_switch sc st curr pkt = Ret (b, r1) -> rq_scanner r1 = sc.
Proof.
  unfold Request_switch.
  destruct st; [| | |discriminate];
    destruct pkt as [[| |p| | |]|];
    try (intros H; apply Ret_eq, pair_eq in H as [_ <-]; reflexivity).
  destruct (negb (HasPrefix p (B "command=")));
    intros H; apply Ret_eq, pair_eq in H as [_ <-]; reflexivity.
Qed.

Lemma Request_switch_PACK
    (sc : PacketScanner) (st : RequestState) (curr : option RequestChunk)
    (r1 : Request) :
  Request_switch sc st curr (Some PackFileIndicatorPacket) <> Ret (true, r1).
Proof. destruct st; discriminate. Qed.

Lemma rq_ok_Scan (r : Request) (b : bool) (r' : Request) :
  rq_ok r -> Request_Scan r = Ret (b, r') ->
  rq_ok r' /\ (b = false -> rq_settled r').
Proof.
  intros [H|Hp] Hs.
  { destruct (rq_settled_Scan r H) as (q & Hq & _ & _ & Hq').
    rewrite Hq in Hs. apply Ret_eq, pair_eq in Hs as [_ <-].
    split; [now left|now intros _]. }
  destruct (rq_err r) as [e|] eqn:He.
  { assert (H : rq_settled r) by (left; rewrite He; discriminate).
    destruct (rq_settled_Scan r H) as (q & Hq & _ & _ & Hq').
    rewrite Hq in Hs. apply Ret_eq, pair_eq in Hs as [_ <-].
    split; [now left|now intros _]. }
  destruct (Bool.bool_dec
              (match rq_state r with RequestEnd => true | _ => false end) true)
    as [Hend|Hend].
  { assert (H : rq_settled r)
      by (right; left; destruct (rq_state r); try discriminate; reflexivity).
    destruct (rq_settled_Scan r H) as (q & Hq & _ & _ & Hq').
    rewrite Hq in Hs. apply Ret_eq, pair_eq in Hs as [_ <-].
    split; [now left|now intros _]. }
  apply not_true_is_false in Hend.
  unfold Request_Scan in Hs. rewrite He, Hend in Hs. cbn [notnil orb] in Hs.
  destruct (PacketScanner_Scan (rq_scanner r)) as [[ok sc]|] eqn:Hsc;
    [|discriminate].
  cbn [bind] in Hs. destruct ok; cbn [negb] in Hs.
  - destruct b.
    + pose proof (Request_switch_scanner _ _ _ _ _ _ Hs) as Hsc'.
      split; [|discriminate]. right. rewrite Hsc'.
      destruct (PacketScanner_Scan_true_framed _ _ Hp Hsc) as [Hf|Hpk];
        [assumption|].
      unfold PacketScanner_Packet in Hs. rewrite Hpk in Hs.
      now apply Request_switch_PACK in Hs.
    + apply Request_switch_false in Hs.
      split; [left|intros _]; now left.
  - apply Ret_eq, pair_eq in Hs as [<- <-].
    match goal with
    | |- rq_ok ?x /\ _ => assert (Hset : rq_settled x)
    end.
    { unfold PacketScanner_Err.
      destruct (PacketScanner_Scan_false_stopped _ _ Hp Hsc) as [Hne|Hended].
      - left. cbn [rq_err]. destruct (ps_err sc); [|contradiction].
        cbn [notnil negb andb]. discriminate.
      - destruct (rq_state r) eqn:Hst.
        + right; right. cbn [rq_state rq_scanner]. now split.
        + left. cbn [rq_err]. destruct Hended as (E & _). rewrite E.
          discriminate.
        + left. cbn [rq_err]. destruct Hended as (E & _). rewrite E.
          discriminate.
        + discriminate Hend. }
    split; [now left|now intros _].
Qed.

Lemma rq_ok_after (k : nat) (r : Request) :
  rq_ok r -> rq_ok (after Request_Scan k r).
Proof.
  revert r; induction k as [|k IH]; intros r H; [assumption|].
  cbn [after].
  destruct (Request_Scan r) as [[b r1]|] eqn:Hs; [|assumption].
  apply IH. now apply (rq_ok_Scan r b r1).
Qed.

Lemma rq_settled_after (n : nat) (r : Request) :
  rq_settled r ->
  rq_settled (after Request_Scan n r) /\
  rq_err (after Request_Scan n r) = rq_err r /\
  rq_curr (after Request_Scan n r) = rq_curr r.
Proof.
  revert r; induction n as [|n IH]; intros r H; [repeat split; assumption|].
  destruct (rq_settled_Scan r H) as (q & Hq & He & Hc & Hq').
  cbn [after]. rewrite Hq.
  destruct (IH q Hq') as (H1 & H2 & H3).
  split; [assumption|]. split; congruence.
Qed.

Lemma NewRequest_ok (rd : Reader) : rq_ok (NewRequest rd).
Proof. right. apply NewPacketScanner_framed. Qed.

(** X14.  [ReceiveResponse.Scan] and [Request.Scan] stop for good.  For any
    reader and after any number of calls: once [Scan] has returned false,
    for an error, at the end of the response or at the end of the input,
    every later call returns false as well, and [Err()] and [Chunk()] keep
    the values they had when it first returned false. *)
Theorem parser_Scan_false_is_final (rd : Reader) (k : nat) :
  (forall r',
     ReceiveResponse_Scan (after ReceiveResponse_Scan k (NewReceiveResponse rd))
       = Ret (false, r') ->
     forall n, exists r'',
       ReceiveResponse_Scan (after ReceiveResponse_Scan n r') = Ret (false, r'') /\
       ReceiveResponse_Err r'' = ReceiveResponse_Err r' /\
       ReceiveResponse_Chunk r'' = ReceiveResponse_Chunk r') /\
  (forall r',
     Request_Scan (after Request_Scan k (NewRequest rd)) = Ret (false, r') ->
     forall n, exists r'',
       Request_Scan (after Request_Scan n r') = Ret (false, r'') /\
       Request_Err r'' = Request_Err r' /\
       Request_Chunk r'' = Request_Chunk r').
Proof.
  split.
  - intros r' Hs n.
    pose proof (rr_ok_after k _ (NewReceiveResponse_ok rd)) as Hok.
    destruct (rr_ok_Scan _ _ _ Hok Hs) as [_ Hset]. specialize (Hset eq_refl).
    destruct (rr_settled_after n r' Hset) as (Hn & He & Hc).
    destruct (rr_settled_Scan _ Hn) as (r'' & Hs'' & He'' & Hc'' & _).
    exists r''. unfold ReceiveResponse_Err, ReceiveResponse_Chunk.
    split; [assumption|]. split; congruence.
  - intros r' Hs n.
    pose proof (rq_ok_after k _ (NewRequest_ok rd)) as Hok.
    destruct (rq_ok_Scan _ _ _ Hok Hs) as [_ Hset]. specialize (Hset eq_refl).
    destruct (rq_settled_after n r' Hset) as (Hn & He & Hc).
    destruct (rq_settled_Scan _ Hn) as (r'' & Hs'' & He'' & Hc'' & _).
    exists r''. unfold Request_Err, Request_Chunk.
    split; [assumption|]. split; congruence.
Qed.

Lemma parser_Scan_false_is_final_witness :
  exists r'',
    ReceiveResponse_Scan
      (after ReceiveResponse_Scan 3
         (after ReceiveResponse_Scan 2
            (NewReceiveResponse (stream "000dunpack ok0008oops"))))
      = Ret (false, r'') /\
    ReceiveResponse_Err r'' =
      Some (unexpected_packet (VPacket (Some (BytesPacket (B "oops"))))) /\
    ReceiveResponse_Chunk r'' = Some (unpack_chunk (B "ok")).
Proof.
  refine (proj1 (parser_Scan_false_is_final
                   (stream "000dunpack ok0008oops") 1)
            (after ReceiveResponse_Scan 2
               (NewReceiveResponse (stream "000dunpack ok0008oops"))) _ 3%nat).
  vm_compute. reflexivity.
Defined.

(** ** Writing a chunk and reading it back *)

(** *** The receive-pack response *)

(** The chunks a writer can send in each state, with the state the reader
    is in afterwards: an unpack status that is not empty; "ok" with any
    name; "ng" with a name that holds no space and a message that is not
    empty; the end of the response. *)
Inductive receive_writes
  : ReceiveResponseState -> ReceiveResponseChunk -> ReceiveResponseState -> Prop :=
| writes_unpack status :
    status <> [] ->
    receive_writes ReceiveResponseBegin (unpack_chunk status)
      ReceiveResponseScanResult
| writes_ok name :
    receive_writes ReceiveResponseScanResult (ok_chunk name)
      ReceiveResponseScanResult
| writes_ng name msg :
    ~ In space name -> msg <> [] ->
    receive_writes ReceiveResponseScanResult (ng_chunk name msg)
      ReceiveResponseScanResult
| writes_end_of_response :
    receive_writes ReceiveResponseScanResult end_of_response ReceiveResponseEnd.

(** The packet such a chunk is written as, and what the [switch] makes of
    it. *)
Lemma receive_writes_switch
    (st st' : ReceiveResponseState) (c : ReceiveResponseChunk) :
  receive_writes st c st' ->
  forall enc, ReceiveResponseChunk_EncodeToPktLine c = Ret enc ->
  exists q,
    wire (Ret enc) q /\
    forall sc curr,
      ReceiveResponse_switch sc st curr (Some q) =
        Ret (true, mkReceiveResponse sc st' None (Some c)).
Proof.
  intros [status Hs|name|name msg Hn Hm|] enc Henc.
  - destruct status as [|x status]; [contradiction|].
    exists (BytesPacket (B "unpack " ++ (x :: status) ++ [newline])). split.
    + cbn [wire]. split; [now rewrite <- Henc|].
      split; [rewrite !length_app; cbn; lia|discriminate].
    + intros sc curr. cbn [ReceiveResponse_switch].
      rewrite app_assoc, TrimSuffix_nl_snoc, HasPrefix_app. cbn [negb].
      rewrite SplitN2_unpack. reflexivity.
  - exists (BytesPacket (B "ok " ++ name ++ [newline])). split.
    + cbn [wire]. split; [now rewrite <- Henc|].
      split; [rewrite !length_app; cbn; lia|discriminate].
    + intros sc curr. cbn [ReceiveResponse_switch].
      rewrite app_assoc, TrimSuffix_nl_snoc, HasPrefix_app.
      rewrite SplitN2_ok. reflexivity.
  - destruct msg as [|y msg]; [contradiction|].
    exists (BytesPacket (B "ng " ++ (name ++ space :: y :: msg) ++ [newline])).
    split.
    + cbn [wire]. split.
      * rewrite <- Henc. unfold ReceiveResponseChunk_EncodeToPktLine. cbn.
        rewrite <- !app_assoc. reflexivity.
      * split; [rewrite !length_app; cbn; lia|discriminate].
    + intros sc curr. cbn [ReceiveResponse_switch].
      rewrite app_assoc, TrimSuffix_nl_snoc.
      replace (HasPrefix (B "ng " ++ name ++ space :: y :: msg) (B "ok "))
        with false by reflexivity.
      rewrite HasPrefix_app, SplitN3_ng, cut_space_app by assumption.
      reflexivity.
  - exists FlushPacket. split.
    + cbn [wire]. now rewrite <- Henc.
    + intros; reflexivity.
Qed.

(** X15.  Writing a chunk of a receive-pack response and reading it back.
    For a chunk a writer can send in the reader's state (an unpack status
    that is not empty; "ok" with any name; "ng" with a name that holds no
    space and a message that is not empty; the end of the response): when
    the input ahead is the chunk's [EncodeToPktLine()] followed by
    anything, [Scan] returns true, [Chunk()] is the chunk that was written,
    [Err()] is nil, and the parser stands in front of what followed. *)
Theorem ReceiveResponseChunk_encode_scan
    (st st' : ReceiveResponseState) (c : ReceiveResponseChunk)
    (p : PacketScanner) (enc rest : bytes)
    (curr : option ReceiveResponseChunk)
    (Hc : receive_writes st c st')
    (Hp : ps_framed p)
    (Henc : ReceiveResponseChunk_EncodeToPktLine c = Ret enc)
    (Hpe : ps_pending p = enc ++ rest) :
  exists r1,
    ReceiveResponse_Scan (mkReceiveResponse p st None curr) = Ret (true, r1) /\
    ReceiveResponse_Chunk r1 = Some c /\
    ReceiveResponse_Err r1 = None /\
    rr_state r1 = st' /\
    ps_framed (rr_scanner r1) /\ ps_pending (rr_scanner r1) = rest.
Proof.
  destruct (receive_writes_switch st st' c Hc enc Henc) as (q & Hw & Hsw).
  destruct (PacketScanner_Scan_wire p q enc rest Hp Hw Hpe)
    as (p' & Hs & Hq & Hf & Hpe' & _).
  exists (mkReceiveResponse p' st' None (Some c)).
  split;
    [|split; [reflexivity|split; [reflexivity|split; [reflexivity|split; assumption]]]].
  rewrite ReceiveResponse_Scan_switch with (sc := p');
    [|reflexivity|destruct Hc; discriminate|exact Hs].
  cbn [rr_state rr_curr]. rewrite Hq. apply Hsw.
Qed.

Lemma ReceiveResponseChunk_encode_scan_witness :
  exists r1,
    ReceiveResponse_Scan
      (mkReceiveResponse
         (NewPacketScanner
            (mkReader (B "001ang refs/x not allowed" ++ [newline] ++ B "0000")
               [3%nat] io_EOF))
         ReceiveResponseScanResult None None) = Ret (true, r1) /\
    ReceiveResponse_Chunk r1 = Some (ng_chunk (B "refs/x") (B "not allowed")) /\
    ReceiveResponse_Err r1 = None /\
    rr_state r1 = ReceiveResponseScanResult /\
    ps_framed (rr_scanner r1) /\ ps_pending (rr_scanner r1) = B "0000".
Proof.
  refine (ReceiveResponseChunk_encode_scan
    ReceiveResponseScanResult ReceiveResponseScanResult
    (ng_chunk (B "refs/x") (B "not allowed"))
    (NewPacketScanner
       (mkReader (B "001ang refs/x not allowed" ++ [newline] ++ B "0000")
          [3%nat] io_EOF))
    (B "001ang refs/x not allowed" ++ [newline]) (B "0000") None _ _ _ _).
  - apply writes_ng; [|discriminate].
    cbn. intros H. repeat (destruct H as [H|H]; [discriminate H|]). exact H.
  - apply NewPacketScanner_framed.
  - vm_compute. reflexivity.
  - reflexivity.
Defined.

(** *** The request *)

Lemma not_ERR_firstn (b : bytes) :
  HasPrefix b (B "ERR ") = false -> firstn 4 b <> B "ERR ".
Proof.
  intros H E. rewrite <- (firstn_skipn 4 b), E, HasPrefix_app in H. discriminate.
Qed.

Lemma not_ERR_line (cap : bytes) :
  (3 <= length cap)%nat -> HasPrefix cap (B "ERR ") = false ->
  firstn 4 (cap ++ [newline]) <> B "ERR ".
Proof.
  intros Hl H.
  destruct cap as [|a [|b [|c [|d cap]]]]; cbn [length] in Hl; try lia.
  - cbn. intros E. injection E as _ _ _ E. discriminate E.
  - change (firstn 4 ((a :: b :: c :: d :: cap) ++ [newline]))
      with (firstn 4 (a :: b :: c :: d :: cap)).
    now apply not_ERR_firstn.
Qed.

(** The chunks a writer can send in each state: a command name that is not
    empty; a capability of at least three bytes (its line then has the
    four bytes [Scan] reads) that does not start with "ERR "; an argument
    of at least four bytes that does not start with "ERR "; and the three
    marks. *)
Inductive request_writes : RequestState -> RequestChunk -> RequestState -> Prop :=
| writes_command name :
    name <> [] ->
    request_writes RequestBegin (command_chunk name) RequestScanCapabilities
| writes_capability cap :
    (3 <= length cap)%nat -> HasPrefix cap (B "ERR ") = false ->
    request_writes RequestScanCapabilities (capability_chunk cap)
      RequestScanCapabilities
| writes_end_of_capabilities :
    request_writes RequestScanCapabilities end_of_capabilities RequestScanArguments
| writes_argument a :
    (4 <= length a)%nat -> HasPrefix a (B "ERR ") = false ->
    request_writes RequestScanArguments (argument_chunk a) RequestScanArguments
| writes_end_of_arguments :
    request_writes RequestScanArguments end_of_arguments RequestBegin
| writes_end_of_request :
    request_writes RequestBegin end_of_request RequestEnd.

Lemma request_writes_switch (st st' : RequestState) (c : RequestChunk) :
  request_writes st c st' ->
  forall enc, RequestChunk_EncodeToPktLine c = Ret enc ->
  exists q,
    wire (Ret enc) q /\
    forall sc curr,
      Request_switch sc st curr (Some q) =
        Ret (true, mkRequest sc st' None (Some c)).
Proof.
  intros [name Hn|cap Hl He| |a Hl He| |] enc Henc.
  - destruct name as [|x name]; [contradiction|].
    exists (BytesPacket (B "command=" ++ (x :: name) ++ [newline])). split.
    + cbn [wire]. split; [now rewrite <- Henc|].
      split; [rewrite !length_app; cbn; lia|discriminate].
    + intros sc curr. cbn [Request_switch].
      rewrite HasPrefix_app. cbn [negb]. unfold TrimPrefix.
      rewrite HasPrefix_app.
      change (skipn (length (B "command="))
                (B "command=" ++ (x :: name) ++ [newline]))
        with ((x :: name) ++ [newline]).
      rewrite TrimSuffix_nl_snoc. reflexivity.
  - destruct cap as [|x cap]; [cbn in Hl; lia|].
    exists (BytesPacket ((x :: cap) ++ [newline])). split.
    + cbn [wire]. split; [now rewrite <- Henc|].
      split; [rewrite !length_app; cbn [length] in *; lia|].
      now apply not_ERR_line.
    + intros sc curr. cbn [Request_switch].
      rewrite TrimSuffix_nl_snoc. reflexivity.
  - exists DelimPacket. split; [cbn [wire]; now rewrite <- Henc|].
    intros; reflexivity.
  - destruct a as [|x a]; [cbn in Hl; lia|].
    exists (BytesPacket (x :: a)). split.
    + cbn [wire]. split; [now rewrite <- Henc|].
      split; [assumption|now apply not_ERR_firstn].
    + intros; reflexivity.
  - exists FlushPacket. split; [cbn [wire]; now rewrite <- Henc|].
    intros; reflexivity.
  - exists FlushPacket. split; [cbn [wire]; now rewrite <- Henc|].
    intros; reflexivity.
Qed.

(** X16.  Writing a chunk of a request and reading it back.  For a chunk a
    writer can send in the reader's state (a command name that is not
    empty; a capability of at least three bytes, or an argument of at least
    four, that does not start with "ERR "; [EndCapability]; [EndArgument];
    [EndRequest]): when the input ahead is the chunk's [EncodeToPktLine()]
    followed by anything, [Scan] returns true, [Chunk()] is the chunk that
    was written, [Err()] is nil, and the parser stands in front of what
    followed. *)
Theorem RequestChunk_encode_scan
    (st st' : RequestState) (c : RequestChunk)
    (p : PacketScanner) (enc rest : bytes) (curr : option RequestChunk)
    (Hc : request_writes st c st')
    (Hp : ps_framed p)
    (Henc : RequestChunk_EncodeToPktLine c = Ret enc)
    (Hpe : ps_pending p = enc ++ rest) :
  exists r1,
    Request_Scan (mkRequest p st None curr) = Ret (true, r1) /\
    Request_Chunk r1 = Some c /\
    Request_Err r1 = None /\
    rq_state r1 = st' /\
    ps_framed (rq_scanner r1) /\ ps_pending (rq_scanner r1) = rest.
Proof.
  destruct (request_writes_switch st st' c Hc enc Henc) as (q & Hw & Hsw).
  destruct (PacketScanner_Scan_wire p q enc rest Hp Hw Hpe)
    as (p' & Hs & Hq & Hf & Hpe' & _).
  exists (mkRequest p' st' None (Some c)).
  split;
    [|split; [reflexivity|split; [reflexivity|split; [reflexivity|split; assumption]]]].
  rewrite Request_Scan_switch with (sc := p');
    [|reflexivity|destruct Hc; discriminate|exact Hs].
  cbn [rq_state rq_curr]. rewrite Hq. apply Hsw.
Qed.

Lemma RequestChunk_encode_scan_witness :
  exists r1,
    Request_Scan
      (mkRequest
         (NewPacketScanner
            (mkReader (B "000cagent=x" ++ [newline] ++ B "0001") [0%nat] io_EOF))
         RequestScanCapabilities None None) = Ret (true, r1) /\
    Request_Chunk r1 = Some (capability_chunk (B "agent=x")) /\
    Request_Err r1 = None /\
    rq_state r1 = RequestScanCapabilities /\
    ps_framed (rq_scanner r1) /\ ps_pending (rq_scanner r1) = B "0001".
Proof.
  refine (RequestChunk_encode_scan
    RequestScanCapabilities RequestScanCapabilities
    (capability_chunk (B "agent=x"))
    (NewPacketScanner
       (mkReader (B "000cagent=x" ++ [newline] ++ B "0001") [0%nat] io_EOF))
    (B "000cagent=x" ++ [newline]) (B "0001") None _ _ _ _).
  - apply writes_capability; [cbn; lia|reflexivity].
  - apply NewPacketScanner_framed.
  - vm_compute. reflexivity.
  - reflexivity.
Defined.

(** *** The upload-pack response *)

(** The chunks a writer can send, each from the states in which the reader
    takes it for what it is.  Ids are not empty, the id of an
    acknowledgement holds no space; pack data has at least four bytes and
    does not start with "ERR ". *)
Inductive upload_writes
  : UploadResponseState -> UploadResponseChunk -> UploadResponseState -> Prop :=
| writes_shallow st id :
    id <> [] -> (upload_rank st <= 1)%nat ->
    upload_writes st (shallow_chunk id) UploadResponseScanShallows
| writes_unshallow st id :
    id <> [] -> (upload_rank st <= 2)%nat ->
    upload_writes st (unshallow_chunk id) UploadResponseScanUnshallows
| writes_end_of_shallows st :
    (upload_rank st <= 2)%nat ->
    upload_writes st end_of_shallows UploadResponseBeginAcknowledgements
| writes_ack st id detail :
    id <> [] -> ~ In space id -> (upload_rank st <= 4)%nat ->
    upload_writes st (ack_chunk id detail) UploadResponseScanAcknowledgements
| writes_nak st :
    (upload_rank st <= 4)%nat ->
    upload_writes st nak_chunk UploadResponseScanPacks
| writes_pack p :
    (4 <= length p)%nat -> HasPrefix p (B "ERR ") = false ->
    upload_writes UploadResponseScanPacks (PackStream_chunk p)
      UploadResponseScanPacks
| writes_end_of_upload st :
    (3 <= upload_rank st <= 5)%nat ->
    upload_writes st end_of_upload UploadResponseEnd.

(** A packet of bytes that is no shallow line falls through the first
    [case], one that is no unshallow line through the second. *)
Lemma UploadResponse_case_shallows_skip
    (sc : PacketScanner) (st : UploadResponseState)
    (curr : option UploadResponseChunk) (bp : bytes) :
  HasPrefix bp (B "shallow ") = false ->
  UploadResponse_case_shallows sc st curr (Some (BytesPacket bp)) =
    UploadResponse_case_unshallows sc st curr (Some (BytesPacket bp)).
Proof. intros H. unfold UploadResponse_case_shallows. now rewrite H. Qed.

Lemma UploadResponse_case_unshallows_skip
    (sc : PacketScanner) (st : UploadResponseState)
    (curr : option UploadResponseChunk) (bp : bytes) :
  HasPrefix bp (B "unshallow ") = false ->
  UploadResponse_case_unshallows sc st curr (Some (BytesPacket bp)) =
    UploadResponse_case_acks sc st curr (Some (BytesPacket bp)).
Proof. intros H. unfold UploadResponse_case_unshallows. now rewrite H. Qed.

(** A packet of bytes that is neither kind of line reaches the third
    [case] from every state before the pack data. *)
Lemma UploadResponse_switch_to_acks
    (sc : PacketScanner) (st : UploadResponseState)
    (curr : option UploadResponseChunk) (bp : bytes) :
  (upload_rank st <= 4)%nat ->
  HasPrefix bp (B "shallow ") = false ->
  HasPrefix bp (B "unshallow ") = false ->
  UploadResponse_switch sc st curr (Some (BytesPacket bp)) =
    UploadResponse_case_acks sc st curr (Some (BytesPacket bp)).
Proof.
  intros Hr H1 H2.
  destruct st; cbn [upload_rank] in Hr; try lia; cbn [UploadResponse_switch];
    rewrite ?UploadResponse_case_shallows_skip by assumption;
    rewrite ?UploadResponse_case_unshallows_skip by assumption;
    reflexivity.
Qed.

Lemma upload_writes_switch
    (st st' : UploadResponseState) (c : UploadResponseChunk) :
  upload_writes st c st' ->
  forall enc, UploadResponseChunk_EncodeToPktLine c = Ret enc ->
  exists q,
    wire (Ret enc) q /\
    forall sc curr,
      UploadResponse_switch sc st curr (Some q) =
        Ret (true, mkUploadResponse sc st' None (Some c)).
Proof.
  intros [st0 id Hid Hr|st0 id Hid Hr|st0 Hr|st0 id detail Hid Hsp Hr|st0 Hr
          |p Hl He|st0 Hr] enc Henc.
  - (* shallow *)
    destruct id as [|x id]; [contradiction|].
    exists (BytesPacket (B "shallow " ++ (x :: id) ++ [newline])). split.
    + cbn [wire]. split; [now rewrite <- Henc|].
      split; [rewrite !length_app; cbn; lia|discriminate].
    + intros sc curr.
      assert (E : UploadResponse_case_shallows sc st0 curr
                    (Some (BytesPacket (B "shallow " ++ (x :: id) ++ [newline])))
                  = Ret (true, mkUploadResponse sc UploadResponseScanShallows None
                                 (Some (shallow_chunk (x :: id))))).
      { unfold UploadResponse_case_shallows.
        rewrite HasPrefix_app, app_assoc, TrimSuffix_nl_snoc, SplitN2_shallow.
        reflexivity. }
      destruct st0; cbn [upload_rank] in Hr; try lia; exact E.
  - (* unshallow *)
    destruct id as [|x id]; [contradiction|].
    exists (BytesPacket (B "unshallow " ++ (x :: id) ++ [newline])). split.
    + cbn [wire]. split; [now rewrite <- Henc|].
      split; [rewrite !length_app; cbn; lia|discriminate].
    + intros sc curr.
      assert (E : UploadResponse_case_unshallows sc st0 curr
                    (Some (BytesPacket (B "unshallow " ++ (x :: id) ++ [newline])))
                  = Ret (true, mkUploadResponse sc UploadResponseScanUnshallows None
                                 (Some (unshallow_chunk (x :: id))))).
      { unfold UploadResponse_case_unshallows.
        rewrite HasPrefix_app, app_assoc, TrimSuffix_nl_snoc, SplitN2_unshallow.
        reflexivity. }
      destruct st0; cbn [upload_rank] in Hr; try lia; cbn [UploadResponse_switch];
        rewrite ?UploadResponse_case_shallows_skip by reflexivity; exact E.
  - (* the end of the shallow section *)
    exists FlushPacket. split; [cbn [wire]; now rewrite <- Henc|].
    intros sc curr.
    destruct st0; cbn [upload_rank] in Hr; try lia; reflexivity.
  - (* ACK *)
    destruct id as [|x id]; [contradiction|].
    destruct detail as [|y detail].
    + exists (BytesPacket (B "ACK " ++ (x :: id) ++ [newline])). split.
      * cbn [wire]. split; [now rewrite <- Henc|].
        split; [rewrite !length_app; cbn; lia|discriminate].
      * intros sc curr.
        rewrite UploadResponse_switch_to_acks by (assumption || reflexivity).
        unfold UploadResponse_case_acks.
        rewrite HasPrefix_app, app_assoc, TrimSuffix_nl_snoc, SplitN3_ACK.
        rewrite cut_space_nospace by assumption. reflexivity.
    + exists (BytesPacket
                (B "ACK " ++ ((x :: id) ++ space :: y :: detail) ++ [newline])).
      split.
      * cbn [wire]. split.
        -- rewrite <- Henc. unfold UploadResponseChunk_EncodeToPktLine. cbn.
           rewrite <- !app_assoc. reflexivity.
        -- split; [rewrite !length_app; cbn; lia|discriminate].
      * intros sc curr.
        rewrite UploadResponse_switch_to_acks by (assumption || reflexivity).
        unfold UploadResponse_case_acks.
        rewrite HasPrefix_app, app_assoc, TrimSuffix_nl_snoc, SplitN3_ACK.
        rewrite cut_space_app by assumption. reflexivity.
  - (* NAK *)
    exists (BytesPacket (B "NAK" ++ [newline])). split.
    + cbn [wire]. split; [now rewrite <- Henc|].
      split; [cbn; lia|discriminate].
    + intros sc curr.
      rewrite UploadResponse_switch_to_acks by (assumption || reflexivity).
      reflexivity.
  - (* pack data *)
    destruct p as [|x p]; [cbn in Hl; lia|].
    exists (BytesPacket (x :: p)). split.
    + cbn [wire]. split; [now rewrite <- Henc|].
      split; [assumption|now apply not_ERR_firstn].
    + intros; reflexivity.
  - (* the end of the response *)
    exists FlushPacket. split; [cbn [wire]; now rewrite <- Henc|].
    intros sc curr.
    destruct st0; cbn [upload_rank] in Hr; try lia; reflexivity.
Qed.

(** X17.  Writing a chunk of an upload-pack response and reading it back.
    For a chunk a writer can send in the reader's state (a shallow or
    unshallow id before the acknowledgements; [EndOfShallows]; an
    acknowledgement, with or without detail, or [Nak] before the pack data;
    pack data of at least four bytes that does not start with "ERR "; the
    final flush once the shallow section is over): when the input ahead is
    the chunk's [EncodeToPktLine()] followed by anything, [Scan] returns
    true, [Chunk()] is the chunk that was written, [Err()] is nil, and the
    parser stands in front of what followed. *)
Theorem UploadResponseChunk_encode_scan
    (st st' : UploadResponseState) (c : UploadResponseChunk)
    (p : PacketScanner) (enc rest : bytes) (curr : option UploadResponseChunk)
    (Hc : upload_writes st c st')
    (Hp : ps_framed p)
    (Henc : UploadResponseChunk_EncodeToPktLine c = Ret enc)
    (Hpe : ps_pending p = enc ++ rest) :
  exists r1,
    UploadResponse_Scan (mkUploadResponse p st None curr) = Ret (true, r1) /\
    UploadResponse_Chunk r1 = Some c /\
    UploadResponse_Err r1 = None /\
    ur_state r1 = st' /\
    ps_framed (ur_scanner r1) /\ ps_pending (ur_scanner r1) = rest.
Proof.
  destruct (upload_writes_switch st st' c Hc enc Henc) as (q & Hw & Hsw).
  destruct (PacketScanner_Scan_wire p q enc rest Hp Hw Hpe)
    as (p' & Hs & Hq & Hf & Hpe' & _).
  exists (mkUploadResponse p' st' None (Some c)).
  split;
    [|split; [reflexivity|split; [reflexivity|split; [reflexivity|split; assumption]]]].
  rewrite UploadResponse_Scan_switch with (sc := p');
    [|reflexivity| |exact Hs].
  - cbn [ur_state ur_curr]. unfold PacketScanner_Packet. rewrite Hq. apply Hsw.
  - cbn [ur_state]. destruct Hc; try discriminate;
      intros E; subst; cbn [upload_rank] in *; lia.
Qed.

Lemma UploadResponseChunk_encode_scan_witness :
  exists r1,
    UploadResponse_Scan
      (mkUploadResponse
         (NewPacketScanner
            (mkReader (B "0014ACK 1a2b common" ++ [newline] ++ B "0008NAK")
               [4%nat] io_EOF))
         UploadResponseBegin None None) = Ret (true, r1) /\
    UploadResponse_Chunk r1 = Some (ack_chunk (B "1a2b") (B "common")) /\
    UploadResponse_Err r1 = None /\
    ur_state r1 = UploadResponseScanAcknowledgements /\
    ps_framed (ur_scanner r1) /\ ps_pending (ur_scanner r1) = B "0008NAK".
Proof.
  refine (UploadResponseChunk_encode_scan
    UploadResponseBegin UploadResponseScanAcknowledgements
    (ack_chunk (B "1a2b") (B "common"))
    (NewPacketScanner
       (mkReader (B "0014ACK 1a2b common" ++ [newline] ++ B "0008NAK")
          [4%nat] io_EOF))
    (B "0014ACK 1a2b common" ++ [newline]) (B "0008NAK") None _ _ _ _).
  - apply writes_ack; [discriminate| |cbn; lia].
    cbn. intros H. repeat (destruct H as [H|H]; [discriminate H|]). exact H.
  - apply NewPacketScanner_framed.
  - vm_compute. reflexivity.
  - reflexivity.
Defined.

(** ** Reading a frame *)

(** A header that [strconv.ParseUint] accepts, of a frame that is all
    there. *)
Lemma next_frame_parsed (d : bytes) (n : nat) :
  ParseUint16 (firstn 4 d) = Some (Z.of_nat n) ->
  (2 <= n <= length d)%nat -> (4 <= length d)%nat ->
  next_frame d = Token n.
Proof.
  intros Hp Hn H4. unfold next_frame.
  replace (length d <? 4)%nat with false by (symmetry; apply Nat.ltb_ge; lia).
  destruct (HasPrefix d (B "PACK")) eqn:EP.
  - apply HasPrefix_firstn_eq in EP. cbn [length B list_ascii_of_string] in EP.
    rewrite EP in Hp. discriminate.
  - rewrite Hp.
    replace ((Z.of_nat n =? 0) || (Z.of_nat n =? 1)) with false
      by (symmetry; apply orb_false_iff; split; apply Z.eqb_neq; lia).
    replace (Z.of_nat (length d) <? Z.of_nat n) with false
      by (symmetry; apply Z.ltb_ge; lia).
    now rewrite Nat2Z.id.
Qed.

(** X18.  Reading a frame.  In framed mode, when the four bytes ahead are
    hexadecimal digits, in either case, with a value [n] of at least 8, at
    least [n] bytes are ahead and the bytes after the header do not start
    with "ERR ", [Scan] returns true with the bytes packet of the [n - 4]
    bytes after the header, no error, and the scanner stands [n] bytes
    further: a frame is as long as its header says, header included,
    however the reader hands the bytes out. *)
Theorem PacketScanner_Scan_frame
    (p : PacketScanner) (n : nat)
    (Hp : ps_framed p)
    (Hhd : ParseUint16 (firstn 4 (ps_pending p)) = Some (Z.of_nat n))
    (H8 : (8 <= n)%nat)
    (Hlen : (n <= length (ps_pending p))%nat)
    (Herr : HasPrefix (skipn 4 (ps_pending p)) (B "ERR ") = false) :
  exists p',
    PacketScanner_Scan p = Ret (true, p') /\
    PacketScanner_Packet p' =
      Some (BytesPacket (firstn (n - 4) (skipn 4 (ps_pending p)))) /\
    PacketScanner_Err p' = None /\
    ps_framed p' /\ ps_pending p' = skipn n (ps_pending p).
Proof.
  assert (Hf : next_frame (ps_pending p) = Token n)
    by (apply next_frame_parsed; [assumption|lia|lia]).
  assert (Hpay : skipn 4 (firstn n (ps_pending p))
                 = firstn (n - 4) (skipn 4 (ps_pending p))).
  { rewrite firstn_skipn_swap. do 2 f_equal. lia. }
  destruct (PacketScanner_Scan_Bytes p n Hp Hf H8) as (p' & Hs & Hc & Hf' & Hpe & _).
  - rewrite Hpay, firstn_firstn.
    replace (Nat.min 4 (n - 4)) with 4%nat by lia.
    now apply not_ERR_firstn.
  - exists p'. rewrite Hpay in Hc.
    split; [assumption|]. split; [assumption|]. split; [apply Hf'|].
    split; assumption.
Qed.

Lemma PacketScanner_Scan_frame_witness :
  exists p',
    PacketScanner_Scan
      (NewPacketScanner (mkReader (B "000Aabcdef0000") [0%nat; 0%nat] io_EOF))
      = Ret (true, p') /\
    PacketScanner_Packet p' = Some (BytesPacket (B "abcdef")) /\
    PacketScanner_Err p' = None /\
    ps_framed p' /\ ps_pending p' = B "0000".
Proof.
  refine (PacketScanner_Scan_frame
    (NewPacketScanner (mkReader (B "000Aabcdef0000") [0%nat; 0%nat] io_EOF))
    10 _ _ _ _ _).
  - apply NewPacketScanner_framed.
  - reflexivity.
  - lia.
  - cbn. lia.
  - reflexivity.
Defined.

(** ** A payload that starts with "ERR " *)

(** X19.  A bytes packet whose payload starts with "ERR " cannot be sent:
    [BytesPacket("ERR " + m).EncodeToPktLine()] is read, like the encoding of
    [ErrorPacket(m)], as the error packet; [Scan] returns false and [Err()]
    is [ErrorPacket(m)]. *)
Theorem BytesPacket_ERR_is_read_as_error
    (p : PacketScanner) (m enc rest : bytes)
    (Hp : ps_framed p)
    (Henc : BytesPacket_EncodeToPktLine (B "ERR " ++ m) = Ret enc)
    (Hpe : ps_pending p = enc ++ rest) :
  exists p',
    PacketScanner_Scan p = Ret (false, p') /\
    PacketScanner_Err p' = Some (RemoteError m).
Proof.
  assert (Hlen : len m <= 65527).
  { unfold BytesPacket_EncodeToPktLine in Henc.
    destruct (len (B "ERR " ++ m) >? 65535 - 4) eqn:E; [discriminate|].
    rewrite Z.gtb_ltb in E. apply Z.ltb_ge in E.
    rewrite len_app in E. change (len (B "ERR ")) with 4 in E. lia. }
  assert (Hl : len (B "ERR " ++ m) <= 65531)
    by (rewrite len_app; change (len (B "ERR ")) with 4; lia).
  pose proof (BytesPacket_EncodeToPktLine_Ret _ Hl) as E.
  remember (hex_fixed false 4 (len (B "ERR " ++ m) + 4) ++ B "ERR " ++ m)
    as enc0 eqn:Eenc.
  assert (He : enc = enc0) by congruence. subst enc.
  rewrite Eenc in Hpe.
  exact (PacketScanner_Scan_ERR_frame false p m rest Hp Hlen Hpe).
Qed.

Lemma BytesPacket_ERR_is_read_as_error_witness :
  exists p',
    PacketScanner_Scan (NewPacketScanner (stream "000bERR out")) = Ret (false, p') /\
    PacketScanner_Err p' = Some (RemoteError (B "out")).
Proof.
  refine (BytesPacket_ERR_is_read_as_error
    (NewPacketScanner (stream "000bERR out")) (B "out") (B "000bERR out") []
    _ _ _).
  - apply NewPacketScanner_framed.
  - reflexivity.
  - reflexivity.
Defined.

(** ** Chunks that cannot be written *)

Lemma BytesPacket_EncodeToPktLine_possible (b : bytes) :
  BytesPacket_EncodeToPktLine b <> Panic "impossible chunk".
Proof.
  unfold BytesPacket_EncodeToPktLine.
  destruct (len b >? 65535 - 4); discriminate.
Qed.

Lemma ReceiveResponseChunk_impossible (c : ReceiveResponseChunk) :
  (exists status, c = unpack_chunk status) \/ ref_update c \/ c = end_of_response ->
  ReceiveResponseChunk_EncodeToPktLine c = Panic "impossible chunk" <->
  c = unpack_chunk [].
Proof.
  intros [(status & ->)|[[(name & ->)|(name & msg & -> & _)]| ->]];
    unfold ReceiveResponseChunk_EncodeToPktLine.
  - destruct status as [|x status]; cbn.
    + split; reflexivity.
    + split; [intros H; first [discriminate H|now apply BytesPacket_EncodeToPktLine_possible in H]
             |discriminate].
  - cbn. split; [|discriminate].
    intros H; first [discriminate H|now apply BytesPacket_EncodeToPktLine_possible in H].
  - cbn. split; [|discriminate].
    destruct (negb (nonempty msg));
      intros H; first [discriminate H|now apply BytesPacket_EncodeToPktLine_possible in H].
  - cbn. split; discriminate.
Qed.

Lemma RequestChunk_impossible (c : RequestChunk) :
  (exists v, c = command_chunk v \/ c = capability_chunk v \/ c = argument_chunk v)
  \/ c = end_of_capabilities \/ c = end_of_arguments \/ c = end_of_request ->
  RequestChunk_EncodeToPktLine c = Panic "impossible chunk" <->
  c = command_chunk [].
Proof.
  intros [(v & [-> | [-> | ->]])|[-> | [-> | ->]]];
    unfold RequestChunk_EncodeToPktLine;
    try (cbn; split; discriminate);
    destruct v as [|x v]; cbn;
    try (split; reflexivity);
    (split; [intros H; first [discriminate H|now apply BytesPacket_EncodeToPktLine_possible in H]
            |discriminate]).
Qed.

Lemma UploadResponseChunk_impossible (c : UploadResponseChunk) :
  (exists v, c = shallow_chunk v \/ c = unshallow_chunk v \/ c = PackStream_chunk v)
  \/ (exists id detail, c = ack_chunk id detail)
  \/ c = end_of_shallows \/ c = nak_chunk \/ c = end_of_upload ->
  UploadResponseChunk_EncodeToPktLine c = Panic "impossible chunk" <->
  exists detail, c = ack_chunk [] detail.
Proof.
  intros [(v & [-> | [-> | ->]])|[(id & detail & ->)|[-> | [-> | ->]]]];
    unfold UploadResponseChunk_EncodeToPktLine.
  - destruct v as [|x v]; cbn.
    + split; [intros _; now exists []|reflexivity].
    + split; [intros H; first [discriminate H|now apply BytesPacket_EncodeToPktLine_possible in H]
             |intros (d & H); discriminate H].
  - destruct v as [|x v]; cbn.
    + split; [intros _; now exists []|reflexivity].
    + split; [intros H; first [discriminate H|now apply BytesPacket_EncodeToPktLine_possible in H]
             |intros (d & H); discriminate H].
  - destruct v as [|x v]; cbn.
    + split; [intros _; now exists []|reflexivity].
    + split; [intros H; first [discriminate H|now apply BytesPacket_EncodeToPktLine_possible in H]
             |intros (d & H); discriminate H].
  - destruct id as [|x id]; cbn.
    + split; [intros _; now exists detail|reflexivity].
    + split; [|intros (d & H); discriminate H].
      destruct (nonempty detail);
        intros H; first [discriminate H|now apply BytesPacket_EncodeToPktLine_possible in H].
  - cbn. split; [discriminate|intros (d & H); discriminate H].
  - cbn. split; [|intros (d & H); discriminate H].
    intros H; first [discriminate H|now apply BytesPacket_EncodeToPktLine_possible in H].
  - cbn. split; [discriminate|intros (d & H); discriminate H].
Qed.

(** X20.  The chunks that [Scan] produces and [EncodeToPktLine] refuses.
    A line with an empty value ("unpack ", "command=", "shallow ", "ACK " and
    the like) is read without error, as a chunk whose value is empty; of all
    the chunks that [Scan] produces, these are the ones on which
    [EncodeToPktLine] panics with "impossible chunk": the chunk with an
    empty unpack status for the receive-pack response, the chunk with an
    empty command, capability or argument for the request, and for the
    upload-pack response the chunks with an empty id, whatever the detail of
    the acknowledgement.  (For the pack-file indicator [Scan] produces no
    chunk of its own.) *)
Theorem chunks_that_cannot_be_written :
  (forall r r1 c,
     ReceiveResponse_Scan r = Ret (true, r1) ->
     ReceiveResponse_Chunk r1 = Some c ->
     (ReceiveResponseChunk_EncodeToPktLine c = Panic "impossible chunk" <->
      c = unpack_chunk [])) /\
  (forall r r1 c,
     Request_Scan r = Ret (true, r1) ->
     Request_Chunk r1 = Some c ->
     (RequestChunk_EncodeToPktLine c = Panic "impossible chunk" <->
      c = command_chunk [])) /\
  (forall r sc r1 c,
     PacketScanner_Scan (ur_scanner r) = Ret (true, sc) ->
     PacketScanner_Packet sc <> Some PackFileIndicatorPacket ->
     UploadResponse_Scan r = Ret (true, r1) ->
     UploadResponse_Chunk r1 = Some c ->
     (UploadResponseChunk_EncodeToPktLine c = Panic "impossible chunk" <->
      exists detail, c = ack_chunk [] detail)).
Proof.
  split; [|split].
  - intros r r1 c Hs Hc.
    destruct (ReceiveResponse_Scan_true r r1 Hs) as (sc & _ & Hsw).
    unfold ReceiveResponse_Chunk in Hc.
    apply ReceiveResponseChunk_impossible.
    destruct (ReceiveResponse_switch_true _ _ _ _ _ Hsw)
      as (_ & _ & [(_ & _ & status & H) | [(_ & _ & c' & H & Hu) | (_ & _ & H)]]);
      rewrite H in Hc; injection Hc as <-.
    + left. now exists status.
    + right; now left.
    + right; now right.
  - intros r r1 c Hs Hc.
    destruct (Request_Scan_true r r1 Hs) as (sc & _ & Hsw).
    unfold Request_Chunk in Hc.
    apply RequestChunk_impossible.
    destruct (Request_switch_true _ _ _ _ _ Hsw) as (_ & Hcase).
    destruct Hcase as
      [(_ & _ & H) | [(_ & _ & v & H) | [(_ & _ & H) |
      [(_ & _ & v & H) | [(_ & _ & H) | (_ & _ & v & H)]]]]];
      rewrite H in Hc; injection Hc as <-.
    + right; right; now right.
    + left. exists v. now left.
    + right; now left.
    + left. exists v. right; now left.
    + right; right; now left.
    + left. exists v. right; now right.
  - intros r sc r1 c Hsc Hpk Hs Hc.
    destruct (UploadResponse_Scan_true r r1 Hs) as (sc' & Hsc' & Hsw).
    rewrite Hsc in Hsc'. apply Ret_eq, pair_eq in Hsc' as [_ <-].
    unfold UploadResponse_Chunk in Hc. unfold PacketScanner_Packet in Hpk.
    apply UploadResponseChunk_impossible.
    destruct (UploadResponse_switch_true _ _ _ _ _ Hsw) as (_ & _ & Hof & Hfrom).
    specialize (Hfrom Hpk). rewrite Hc in Hof, Hfrom.
    destruct (ur_state r1); cbn [upload_chunk_of] in Hof.
    + contradiction.
    + destruct Hof as (id & H). injection H as ->. left. exists id. now left.
    + destruct Hof as (id & H). injection H as ->. left. exists id. right; now left.
    + injection Hof as ->. right; right; now left.
    + destruct Hof as (id & detail & H). injection H as ->.
      right; left. now exists id, detail.
    + destruct Hfrom as [H|(v & H)]; injection H as ->.
      * right; right; right; now left.
      * left. exists v. right; now right.
    + injection Hof as ->. right; right; right; now right.
Qed.

Lemma chunks_that_cannot_be_written_witness :
  ReceiveResponse_Chunk
    (after ReceiveResponse_Scan 1
       (NewReceiveResponse (stream "000bunpack 0000"))) = Some (unpack_chunk []) /\
  ReceiveResponseChunk_EncodeToPktLine (unpack_chunk []) = Panic "impossible chunk".
Proof.
  split; [vm_compute; reflexivity|].
  refine (proj2 (proj1 chunks_that_cannot_be_written
    (NewReceiveResponse (stream "000bunpack 0000"))
    (after ReceiveResponse_Scan 1 (NewReceiveResponse (stream "000bunpack 0000")))
    (unpack_chunk []) _ _) eq_refl).
  - vm_compute. reflexivity.
  - vm_compute. reflexivity.
Defined.

(** *** After the end of the pack file *)

Definition too_many_empty_tokens : string :=
  "bufio.Scan: too many empty tokens without progressing".

(** Past the end of the input every [Scan] asks [bufio.Scanner] for one
    more empty token, which counts them. *)
Lemma PacketScanner_Scan_pack_over (k : nat) (p : PacketScanner) :
  ps_pack_over k p ->
  if (k <? maxConsecutiveEmptyReads)%nat then
    exists p',
      PacketScanner_Scan p = Ret (false, p') /\
      ps_err p' = None /\ ps_curr p' = ps_curr p /\ ps_pack_over (S k) p'
  else PacketScanner_Scan p = Panic too_many_empty_tokens.
Proof.
  intros (He & Hm & Hb & Hs & Herr & Hbuf & Hemp).
  destruct (sc_err (scanner p)) as [e|] eqn:Ee; [|contradiction].
  unfold PacketScanner_Scan. rewrite He, Hm.
  unfold bufio_Scan, bufio_fuel. cbn [bufio_Scan_loop].
  unfold bufio_Scan_iter.
  destruct (k <? maxConsecutiveEmptyReads)%nat eqn:Ek.
  - apply Nat.ltb_lt in Ek.
    destruct (bufio_Scan_token_pack_eof _ e Hb Hs Ee Hbuf)
      as (s' & Ht & Htok & Hlen & Hr' & Hb' & Hst' & Hen' & Herr' & Hemp');
      [now rewrite Hemp|].
    rewrite Ht. cbn [bind negb].
    unfold PacketScanner_Scan_bytes. rewrite Hm, Hlen. cbn [Nat.eqb].
    eexists. split; [reflexivity|]. split; [reflexivity|]. split; [reflexivity|].
    unfold ps_pack_over, sc_bounds. cbn [ps_err packFileMode scanner].
    rewrite Hb', Hst', Hen', Herr', Hemp', Hemp.
    destruct Hb as [Hb Hmax].
    repeat split; try assumption; try lia; discriminate.
  - apply Nat.ltb_ge in Ek.
    unfold bufio_Scan_token. rewrite Ee. cbn [notnil orb].
    rewrite orb_true_r. unfold packetSplitFunc. cbn [bind].
    unfold sc_data.
    destruct (sc_buf (scanner p)) as [|x buf] eqn:Eb; [contradiction|].
    rewrite <- Eb. cbn [nlen slen].
    rewrite Hs, Nat.sub_diag. cbn [Nat.ltb Nat.leb negb orb].
    unfold maxConsecutiveEmptyReads in *. rewrite Hemp.
    replace (100 <=? k)%nat with true by (symmetry; apply Nat.leb_le; lia).
    reflexivity.
Qed.

Lemma ps_pack_over_after (n k : nat) (p : PacketScanner) :
  ps_pack_over k p -> (k + n <= maxConsecutiveEmptyReads)%nat ->
  ps_pack_over (k + n) (after PacketScanner_Scan n p) /\
  ps_err (after PacketScanner_Scan n p) = None.
Proof.
  revert k p; induction n as [|n IH]; intros k p Hp Hk.
  - rewrite Nat.add_0_r. split; [assumption|apply Hp].
  - pose proof (PacketScanner_Scan_pack_over k p Hp) as H.
    replace (k <? maxConsecutiveEmptyReads)%nat with true in H
      by (symmetry; apply Nat.ltb_lt; lia).
    destruct H as (p' & Hs & _ & _ & Hp').
    cbn [after]. rewrite Hs.
    replace (k + S n)%nat with (S k + n)%nat by lia.
    apply IH; [assumption|lia].
Qed.

(** X21.  [PacketScanner.Scan] does not stop for good in pack-file mode.
    After the pack file has been read to its end and [Scan] has returned
    false, each further call asks [bufio.Scanner] for one more empty token:
    the next 99 calls return false with a nil [Err()], and the call after
    them panics ("bufio.Scan: too many empty tokens without
    progressing"). *)
Theorem pack_file_mode_Scan_after_the_end
    (p : PacketScanner) (rest : bytes)
    (Hp : ps_framed p)
    (Hpe : ps_pending p = B "PACK" ++ rest) :
  exists cs p',
    runs PacketScanner_Scan PacketScanner_Packet p cs p' /\
    (forall k, (k < 99)%nat -> exists p'',
       PacketScanner_Scan (after PacketScanner_Scan k p') = Ret (false, p'') /\
       PacketScanner_Err p'' = None) /\
    PacketScanner_Scan (after PacketScanner_Scan 99 p')
      = Panic too_many_empty_tokens.
Proof.
  destruct (PacketScanner_Scan_PACK_packing p rest Hp Hpe)
    as (p1 & Hs & Hc & Hp1 & Hpe1 & _).
  destruct (PacketScanner_pack_run _ p1 (Nat.le_refl _) Hp1)
    as (chunks & p' & Hruns & _ & _ & _ & Hover).
  exists (Some PackFileIndicatorPacket
            :: map (fun c => Some (PackFilePacket c)) chunks), p'.
  split; [eapply runs_cons; [exact Hs|exact Hc|exact Hruns]|]. split.
  - intros k Hk.
    destruct (ps_pack_over_after k 1 p' Hover) as [Hk' _];
      [unfold maxConsecutiveEmptyReads; lia|].
    pose proof (PacketScanner_Scan_pack_over _ _ Hk') as H.
    replace (1 + k <? maxConsecutiveEmptyReads)%nat with true in H
      by (symmetry; apply Nat.ltb_lt; unfold maxConsecutiveEmptyReads; lia).
    destruct H as (p'' & Hs'' & He'' & _).
    now exists p''.
  - destruct (ps_pack_over_after 99 1 p' Hover) as [Hk' _];
      [unfold maxConsecutiveEmptyReads; lia|].
    exact (PacketScanner_Scan_pack_over _ _ Hk').
Qed.

Lemma pack_file_mode_Scan_after_the_end_witness :
  exists cs p',
    runs PacketScanner_Scan PacketScanner_Packet
      (NewPacketScanner (stream "PACKab")) cs p' /\
    (forall k, (k < 99)%nat -> exists p'',
       PacketScanner_Scan (after PacketScanner_Scan k p') = Ret (false, p'') /\
       PacketScanner_Err p'' = None) /\
    PacketScanner_Scan (after PacketScanner_Scan 99 p')
      = Panic too_many_empty_tokens.
Proof.
  refine (pack_file_mode_Scan_after_the_end
    (NewPacketScanner (stream "PACKab")) (B "ab") _ _).
  - apply NewPacketScanner_framed.
  - reflexivity.
Defined.

(** The same, computed: the scanner that has returned false once returns
    false 99 times more and then panics. *)
Example pack_file_mode_after_the_end_example :
  PacketScanner_Scan
    (after PacketScanner_Scan 101 (NewPacketScanner (stream "PACKab")))
  = Ret (false, after PacketScanner_Scan 102 (NewPacketScanner (stream "PACKab"))) /\
  PacketScanner_Scan
    (after PacketScanner_Scan 102 (NewPacketScanner (stream "PACKab")))
  = Panic too_many_empty_tokens.
Proof. split; vm_compute; reflexivity. Qed.

(** ** Reading a frame and writing it back *)

(** A lower-case digit is the digit [%04x] prints for its value. *)
Lemma hex_digit_hex_val (c : ascii) (d : Z) :
  is_lower_hex c = true -> hex_val c = Some d -> hex_digit false d = c.
Proof.
  unfold is_lower_hex, hex_val, hex_digit.
  set (n := Z.of_nat (nat_of_ascii c)).
  assert (Hc : c = ascii_of_nat (Z.to_nat n))
    by (unfold n; now rewrite Nat2Z.id, ascii_nat_embedding).
  intros Hl Hv.
  destruct ((48 <=? n) && (n <=? 57)) eqn:E1.
  - apply andb_true_iff in E1 as [Ha Hb].
    apply Z.leb_le in Ha, Hb. injection Hv as <-.
    replace (n - 48 <? 10) with true by (symmetry; apply Z.ltb_lt; lia).
    rewrite Hc. do 2 f_equal. lia.
  - cbn [orb] in Hl. rewrite Hl in Hv. injection Hv as <-.
    apply andb_true_iff in Hl as [Ha Hb]. apply Z.leb_le in Ha, Hb.
    replace (n - 87 <? 10) with false by (symmetry; apply Z.ltb_ge; lia).
    rewrite Hc. do 2 f_equal. lia.
Qed.

(** Lower-case digits are what [%04x] prints for the number they are read
    as. *)
Lemma hex_fixed_parse (s : bytes) (n : Z) :
  forallb is_lower_hex s = true -> parse_hex_acc 0 s = Some n ->
  0 <= n /\ hex_fixed false (length s) n = s.
Proof.
  revert n; induction s as [|c a IH] using rev_ind; intros n Hl Hp.
  - cbn in Hp. injection Hp as <-. split; [lia|reflexivity].
  - rewrite forallb_app in Hl. apply andb_true_iff in Hl as [Hla Hlc].
    cbn [forallb] in Hlc. rewrite andb_true_r in Hlc.
    rewrite parse_hex_acc_snoc in Hp.
    destruct (parse_hex_acc 0 a) as [v|] eqn:Ea; [|discriminate].
    destruct (hex_val c) as [d|] eqn:Ec; [|discriminate].
    injection Hp as <-.
    destruct (IH v Hla eq_refl) as [Hv Hfix].
    pose proof (hex_val_bound c d Ec) as Hd.
    split; [lia|].
    rewrite length_app. cbn [length]. rewrite Nat.add_1_r.
    cbn [hex_fixed].
    replace ((v * 16 + d) / 16) with v
      by (apply Z.div_unique with d; lia).
    replace ((v * 16 + d) mod 16) with d
      by (apply Z.mod_unique with v; lia).
    rewrite Hfix. f_equal. f_equal. now apply hex_digit_hex_val.
Qed.

(** X22.  Reading a frame and writing it back.  In framed mode, when the
    four bytes ahead are lower-case hexadecimal digits with a value [n] of
    at least 8, at least [n] bytes are ahead and the payload does not start
    with "ERR ": [Scan] returns a bytes packet whose [EncodeToPktLine()] is
    exactly the [n] bytes that were read.  (A header with upper-case digits
    is read as well, and written back in lower case.) *)
Theorem scanned_frame_is_written_back
    (p : PacketScanner) (n : nat)
    (Hp : ps_framed p)
    (Hlow : forallb is_lower_hex (firstn 4 (ps_pending p)) = true)
    (Hhd : ParseUint16 (firstn 4 (ps_pending p)) = Some (Z.of_nat n))
    (H8 : (8 <= n)%nat)
    (Hlen : (n <= length (ps_pending p))%nat)
    (Herr : HasPrefix (skipn 4 (ps_pending p)) (B "ERR ") = false) :
  exists p' b,
    PacketScanner_Scan p = Ret (true, p') /\
    PacketScanner_Packet p' = Some (BytesPacket b) /\
    BytesPacket_EncodeToPktLine b = Ret (firstn n (ps_pending p)) /\
    ps_pending p' = skipn n (ps_pending p).
Proof.
  assert (Hf : next_frame (ps_pending p) = Token n)
    by (apply next_frame_parsed; [assumption|lia|lia]).
  assert (Hpay : skipn 4 (firstn n (ps_pending p))
                 = firstn (n - 4) (skipn 4 (ps_pending p))).
  { rewrite firstn_skipn_swap. do 2 f_equal. lia. }
  destruct (PacketScanner_Scan_Bytes p n Hp Hf H8) as (p' & Hs & Hc & _ & Hpe & _).
  { rewrite Hpay, firstn_firstn.
    replace (Nat.min 4 (n - 4)) with 4%nat by lia.
    now apply not_ERR_firstn. }
  exists p', (skipn 4 (firstn n (ps_pending p))).
  split; [assumption|]. split; [assumption|]. split; [|assumption].
  set (d := ps_pending p) in *.
  assert (H4 : length (firstn 4 d) = 4%nat) by (rewrite length_firstn; lia).
  assert (Hn : Z.of_nat n < 65536)
    by (apply (ParseUint16_bound (firstn 4 d)); assumption).
  assert (Hhex : hex_fixed false 4 (Z.of_nat n) = firstn 4 d).
  { unfold ParseUint16 in Hhd.
    destruct (firstn 4 d) as [|x s] eqn:E; [discriminate|].
    rewrite <- E in *.
    destruct (hex_fixed_parse _ _ Hlow Hhd) as [_ H]. now rewrite H4 in H. }
  assert (Hl : length (skipn 4 (firstn n d)) = (n - 4)%nat)
    by (rewrite length_skipn, length_firstn; lia).
  rewrite BytesPacket_EncodeToPktLine_Ret by (unfold len; rewrite Hl; lia).
  f_equal. unfold len. rewrite Hl.
  replace (Z.of_nat (n - 4) + 4) with (Z.of_nat n) by lia.
  rewrite Hhex.
  replace (firstn 4 d) with (firstn 4 (firstn n d))
    by (rewrite firstn_firstn; f_equal; lia).
  apply firstn_skipn.
Qed.

Lemma scanned_frame_is_written_back_witness :
  exists p' b,
    PacketScanner_Scan
      (NewPacketScanner (mkReader (B "000aabcdef0000") [0%nat; 0%nat] io_EOF))
      = Ret (true, p') /\
    PacketScanner_Packet p' = Some (BytesPacket b) /\
    BytesPacket_EncodeToPktLine b = Ret (B "000aabcdef") /\
    ps_pending p' = B "0000".
Proof.
  refine (scanned_frame_is_written_back
    (NewPacketScanner (mkReader (B "000aabcdef0000") [0%nat; 0%nat] io_EOF))
    10 _ _ _ _ _ _).
  - apply NewPacketScanner_framed.
  - reflexivity.
  - reflexivity.
  - lia.
  - cbn. lia.
  - reflexivity.
Defined.

(** With an upper-case header the frame is written back in lower case. *)
Example upper_case_header_is_not_written_back :
  PacketScanner_Packet
    (after PacketScanner_Scan 1 (NewPacketScanner (stream "000Aabcdef")))
    = Some (BytesPacket (B "abcdef")) /\
  BytesPacket_EncodeToPktLine (B "abcdef") = Ret (B "000aabcdef").
Proof. split; vm_compute; reflexivity. Qed.

(** ** Writing a stream of packets and reading it back *)

(** The packets that can be sent in framed mode: the flush and delim
    packets, and bytes packets with a payload of at least four bytes that
    does not start with "ERR ". *)
Definition sendable (q : Packet) : Prop :=
  match q with
  | FlushPacket | DelimPacket => True
  | BytesPacket b => (4 <= length b)%nat /\ HasPrefix b (B "ERR ") = false
  | _ => False
  end.

Lemma sendable_wire (q : Packet) (enc : bytes) :
  sendable q -> Packet_EncodeToPktLine q = Ret enc -> wire (Ret enc) q.
Proof.
  destruct q as [| |b| | |]; cbn [sendable Packet_EncodeToPktLine wire];
    try contradiction.
  - intros _ H. now rewrite <- H.
  - intros _ H. now rewrite <- H.
  - intros [H4 He] H. split; [now symmetry|]. split; [assumption|].
    now apply not_ERR_firstn.
Qed.

Lemma packet_stream_run (qs : list Packet) :
  forall (p : PacketScanner) (data : bytes),
    Forall sendable qs ->
    encode_all Packet_EncodeToPktLine (map Some qs) = Ret data ->
    ps_framed p -> ps_pending p = data ->
    exists p',
      runs PacketScanner_Scan PacketScanner_Packet p (map Some qs) p' /\
      ps_err p' = match rd_err (sc_r (scanner p)) with
                  | io_EOF => None
                  | e => Some e
                  end.
Proof.
  induction qs as [|q qs IH]; intros p data Hall Henc Hp Hpe.
  - cbn in Henc. apply Ret_eq in Henc. subst data.
    assert (Hf : next_frame (ps_pending p) = NeedMore) by now rewrite Hpe.
    destruct (PacketScanner_Scan_end p Hp Hf) as (p' & Hs & _ & He & _).
    exists p'. split; [now apply runs_stop|assumption].
  - apply Forall_cons_iff in Hall as [Hq Hall].
    cbn [map encode_all] in Henc.
    destruct (Packet_EncodeToPktLine q) as [enc|] eqn:Eq; [|discriminate].
    cbn [bind] in Henc.
    destruct (encode_all Packet_EncodeToPktLine (map Some qs)) as [rest|] eqn:Er;
      [|discriminate].
    cbn [bind] in Henc. apply Ret_eq in Henc. subst data.
    pose proof (sendable_wire q enc Hq Eq) as Hw.
    destruct (PacketScanner_Scan_wire p q enc rest Hp Hw Hpe)
      as (p1 & Hs & Hc & Hp1 & Hpe1 & Hr1).
    destruct (IH p1 rest Hall eq_refl Hp1 Hpe1) as (p' & Hruns & He).
    exists p'. split.
    + cbn [map]. eapply runs_cons; [exact Hs|exact Hc|exact Hruns].
    + now rewrite He, Hr1.
Qed.

(** X23.  Writing a stream of packets and reading it back.  For any list of
    flush packets, delim packets and bytes packets with a payload of at
    least four bytes that does not start with "ERR ": when the reader holds
    their [EncodeToPktLine()] outputs one after the other, the loop
    [for s.Scan()] over a new packet scanner returns exactly these packets,
    in order, however the reader cuts its reads, and then stops; [Err()] is
    nil when the reader ends with [io.EOF], and the reader's error
    otherwise. *)
Theorem packet_stream_encode_scan
    (qs : list Packet) (data : bytes) (sched : list nat) (e : error)
    (Hall : Forall sendable qs)
    (Henc : encode_all Packet_EncodeToPktLine (map Some qs) = Ret data) :
  exists p',
    runs PacketScanner_Scan PacketScanner_Packet
      (NewPacketScanner (mkReader data sched e)) (map Some qs) p' /\
    PacketScanner_Err p' = match e with io_EOF => None | e' => Some e' end.
Proof.
  destruct (NewPacketScanner_framed (mkReader data sched e)) as [Hp Hpe].
  destruct (packet_stream_run qs _ data Hall Henc Hp Hpe) as (p' & Hruns & He).
  exists p'. split; [exact Hruns|].
  unfold PacketScanner_Err. rewrite He. cbn [NewPacketScanner scanner
    bufio_NewScanner sc_r rd_err].
  destruct e; reflexivity.
Qed.

Lemma packet_stream_encode_scan_witness :
  exists p',
    runs PacketScanner_Scan PacketScanner_Packet
      (NewPacketScanner
         (mkReader (B "000bcommand00010008arg10000") [6%nat; 0%nat; 2%nat] io_EOF))
      [Some (BytesPacket (B "command")); Some DelimPacket;
       Some (BytesPacket (B "arg1")); Some FlushPacket] p' /\
    PacketScanner_Err p' = None.
Proof.
  refine (packet_stream_encode_scan
    [BytesPacket (B "command"); DelimPacket; BytesPacket (B "arg1"); FlushPacket]
    (B "000bcommand00010008arg10000") [6%nat; 0%nat; 2%nat] io_EOF _ _).
  - repeat constructor; cbn; lia.
  - reflexivity.
Defined.
